(** * dedup.py: cache-backed duplicate finder

    A shallow embedding of [bin/dedup.py] and the properties of its scanner,
    hash cache, worker loop and duplicate resolver.

    Python [bytes] are lists of [byte]; a Python [str] is the list of its
    code points; Python [int] is [Z]; the [dict] [App.cache] is an
    insertion-ordered association list; the process, the file system, the
    clock and the terminal are one explicit [state] threaded through a
    state-and-exception monad.  What the standard output can encode is a
    parameter of the program, like the digest and the path functions. *)

From Stdlib Require Import List ZArith Lia Bool String.
From Stdlib Require Import Strings.Byte Numbers.DecimalPos Numbers.DecimalZ.
Import ListNotations.

Local Open Scope Z_scope.
Local Open Scope list_scope.

(* ================================================================== *)
(** ** Bytes *)

Definition bytes := list byte.

(** [b"..."] literals. *)
Definition B (s : string) : bytes := list_byte_of_string s.

Definition NL : byte := "010"%byte.
Definition COLON : byte := ":"%byte.
Definition SEP : byte := "/"%byte.

Definition is_nl (c : byte) : bool := Byte.eqb c NL.
Definition is_colon (c : byte) : bool := Byte.eqb c COLON.
Definition is_sep (c : byte) : bool := Byte.eqb c SEP.

Fixpoint bytes_eqb (a b : bytes) : bool :=
  match a, b with
  | [], [] => true
  | x :: a', y :: b' => Byte.eqb x y && bytes_eqb a' b'
  | _, _ => false
  end.

(** [c in s] for a single byte [c]. *)
Definition contains (p : byte -> bool) (s : bytes) : bool := existsb p s.

(** [s.rstrip(chars)]: drop every trailing element that satisfies [p]; the
    same on the bytes of a [bytes] object and on the characters of a [str]. *)
Fixpoint rstrip {A : Type} (p : A -> bool) (s : list A) : list A :=
  match s with
  | [] => []
  | c :: t =>
      match rstrip p t with
      | [] => if p c then [] else [c]
      | t' => c :: t'
      end
  end.

(** [s.lstrip(chars)]. *)
Fixpoint lstrip {A : Type} (p : A -> bool) (s : list A) : list A :=
  match s with
  | [] => []
  | c :: t => if p c then lstrip p t else s
  end.

Definition strip {A : Type} (p : A -> bool) (s : list A) : list A :=
  rstrip p (lstrip p s).

(** A Python [str]: the code points of its characters. *)
Definition str := list N.

(** A [str] literal of ASCII characters. *)
Definition U (s : string) : str := map Byte.to_N (list_byte_of_string s).

Fixpoint str_eqb (a b : str) : bool :=
  match a, b with
  | [], [] => true
  | x :: a', y :: b' => N.eqb x y && str_eqb a' b'
  | _, _ => false
  end.

(** [fp.readline()]: the bytes up to and including the first newline, and
    what is left of the file; [b''] at end of file. *)
Fixpoint readline (s : bytes) : bytes * bytes :=
  match s with
  | [] => ([], [])
  | c :: t =>
      if is_nl c then ([c], t)
      else let (l, r) := readline t in (c :: l, r)
  end.

(** [for line in fp]: the remaining lines, each with its newline. *)
Fixpoint readlines (s : bytes) : list bytes :=
  match s with
  | [] => []
  | c :: t =>
      if is_nl c then [c] :: readlines t
      else match readlines t with
           | [] => [[c]]
           | l :: ls => (c :: l) :: ls
           end
  end.

(** Cut at the first byte satisfying [p]; [None] when there is none. *)
Fixpoint split_first (p : byte -> bool) (s : bytes) : option (bytes * bytes) :=
  match s with
  | [] => None
  | c :: t =>
      if p c then Some ([], t)
      else match split_first p t with
           | Some (a, r) => Some (c :: a, r)
           | None => None
           end
  end.

(** [a, b, c = line.split(b':', 2)]: three fields, cut at the first two
    colons; [None] is the [ValueError] of the unpacking. *)
Definition split_colon_2 (line : bytes) : option (bytes * bytes * bytes) :=
  match split_first is_colon line with
  | None => None
  | Some (a, r) =>
      match split_first is_colon r with
      | None => None
      | Some (b, c) => Some (a, b, c)
      end
  end.

(* ------------------------------------------------------------------ *)
(** *** [b'%i' % n] and [int(line)] *)

Fixpoint bytes_of_uint (u : Decimal.uint) : bytes :=
  match u with
  | Decimal.Nil => []
  | Decimal.D0 u => "0"%byte :: bytes_of_uint u
  | Decimal.D1 u => "1"%byte :: bytes_of_uint u
  | Decimal.D2 u => "2"%byte :: bytes_of_uint u
  | Decimal.D3 u => "3"%byte :: bytes_of_uint u
  | Decimal.D4 u => "4"%byte :: bytes_of_uint u
  | Decimal.D5 u => "5"%byte :: bytes_of_uint u
  | Decimal.D6 u => "6"%byte :: bytes_of_uint u
  | Decimal.D7 u => "7"%byte :: bytes_of_uint u
  | Decimal.D8 u => "8"%byte :: bytes_of_uint u
  | Decimal.D9 u => "9"%byte :: bytes_of_uint u
  end.

(** [b'%i' % n]: decimal digits, with a minus sign for a negative number. *)
Definition format_int (n : Z) : bytes :=
  match Z.to_int n with
  | Decimal.Pos u => bytes_of_uint u
  | Decimal.Neg u => "-"%byte :: bytes_of_uint u
  end.

Definition digit_val (c : byte) : option Z :=
  let n := Byte.to_N c in
  if ((48 <=? n) && (n <=? 57))%N then Some (Z.of_N (n - 48)) else None.

Definition is_digit (c : byte) : bool :=
  match digit_val c with Some _ => true | None => false end.

(** Whitespace skipped by [int()] around a bytes literal. *)
Definition is_space (c : byte) : bool :=
  let n := Byte.to_N c in
  ((n =? 32) || ((9 <=? n) && (n <=? 13)))%N.

(** Digits after the first one; an underscore is accepted only between two
    digits. *)
Fixpoint parse_digits_acc (acc : Z) (s : bytes) : option Z :=
  match s with
  | [] => Some acc
  | c :: t =>
      match digit_val c with
      | Some d => parse_digits_acc (10 * acc + d) t
      | None =>
          if Byte.eqb c "_"%byte then
            match t with
            | c2 :: _ => if is_digit c2 then parse_digits_acc acc t else None
            | [] => None
            end
          else None
      end
  end.

Definition parse_digits (s : bytes) : option Z :=
  match s with
  | c :: t =>
      match digit_val c with
      | Some d => parse_digits_acc d t
      | None => None
      end
  | [] => None
  end.

(** [int(s)] for a bytes object, base 10: surrounding whitespace, an optional
    sign, digits.  [None] is [ValueError]. *)
Definition py_int (s : bytes) : option Z :=
  match rstrip is_space (lstrip is_space s) with
  | "-"%byte :: t => option_map Z.opp (parse_digits t)
  | "+"%byte :: t => parse_digits t
  | t => parse_digits t
  end.

(* ------------------------------------------------------------------ *)
(** *** [binascii.hexlify] and [binascii.unhexlify] *)

Definition hex_digit (n : N) : byte :=
  let code := (if n <? 10 then 48 + n else 87 + n)%N in
  match Byte.of_N code with
  | Some c => c
  | None => "f"%byte
  end.

Definition hex_val (c : byte) : option N :=
  let n := Byte.to_N c in
  (if (48 <=? n) && (n <=? 57) then Some (n - 48)             (* 0-9 *)
   else if (97 <=? n) && (n <=? 102) then Some (n - 87)       (* a-f *)
   else if (65 <=? n) && (n <=? 70) then Some (n - 55)        (* A-F *)
   else None)%N.

Definition hexlify (data : bytes) : bytes :=
  flat_map (fun c => let n := Byte.to_N c in
                     [hex_digit (n / 16); hex_digit (n mod 16)]%N) data.

(** [None] is [binascii.Error] (a [ValueError]): odd length or a byte that is
    not a hexadecimal digit. *)
Fixpoint unhexlify (s : bytes) : option bytes :=
  match s with
  | [] => Some []
  | [_] => None
  | h :: l :: t =>
      match hex_val h, hex_val l with
      | Some a, Some b =>
          match Byte.of_N (16 * a + b), unhexlify t with
          | Some c, Some r => Some (c :: r)
          | _, _ => None
          end
      | _, _ => None
      end
  end.

(* ------------------------------------------------------------------ *)
(** *** [os.path.dirname] (posixpath) *)

(** [p[:p.rfind(b'/') + 1]] *)
Fixpoint head_to_last_sep (p : bytes) : bytes :=
  match p with
  | [] => []
  | c :: t =>
      match head_to_last_sep t with
      | [] => if is_sep c then [c] else []
      | h => c :: h
      end
  end.

Definition dirname (p : bytes) : bytes :=
  let head := head_to_last_sep p in
  match head with
  | [] => head
  | _ => if forallb is_sep head then head else rstrip is_sep head
  end.


(* ================================================================== *)
(** ** Data model *)

(** One value of [App.cache]: [(mtime, checksum)]. *)
Definition entry : Type := Z * bytes.

(** [App.cache], a Python [dict] from path to entry.  Python dictionaries
    iterate in insertion order, and [write_cache] and [remove_dir] both
    iterate, so the order is part of the model. *)
Definition dict : Type := list (bytes * entry).

Fixpoint dict_get (k : bytes) (d : dict) : option entry :=
  match d with
  | [] => None
  | (k', v) :: d' => if bytes_eqb k k' then Some v else dict_get k d'
  end.

(** [d[k] = v]: an existing key keeps its position, a new key goes last. *)
Fixpoint dict_set (k : bytes) (v : entry) (d : dict) : dict :=
  match d with
  | [] => [(k, v)]
  | (k', v') :: d' =>
      if bytes_eqb k k' then (k, v) :: d' else (k', v') :: dict_set k v d'
  end.

(** [del d[k]]; [None] is [KeyError]. *)
Fixpoint dict_del (k : bytes) (d : dict) : option dict :=
  match d with
  | [] => None
  | (k', v') :: d' =>
      if bytes_eqb k k' then Some d'
      else option_map (cons (k', v')) (dict_del k d')
  end.

(** The keys of a Python dictionary are pairwise distinct. *)
Definition dict_wf (d : dict) : Prop := NoDup (map fst d).

(** [byhash], a [collections.defaultdict(list)] from checksum to paths. *)
Definition groups : Type := list (bytes * list bytes).

(** [byhash[checksum]]; a missing key reads as the empty list. *)
Fixpoint groups_get (k : bytes) (g : groups) : list bytes :=
  match g with
  | [] => []
  | (k', v) :: g' => if bytes_eqb k k' then v else groups_get k g'
  end.

(** [byhash[checksum].append(filename)] *)
Fixpoint groups_append (k : bytes) (f : bytes) (g : groups) : groups :=
  match g with
  | [] => [(k, [f])]
  | (k', v) :: g' =>
      if bytes_eqb k k' then (k', v ++ [f]) :: g'
      else (k', v) :: groups_append k f g'
  end.

(** The closure [write_checksum] of [scan_file]: it captures [path] and
    [mtime]. *)
Inductive callback : Type :=
| WriteChecksum (path : bytes) (mtime : Z).

(** A job of the queue: [(filename, callback)]. *)
Definition job : Type := bytes * callback.

(** A file of the file system.  [n_data = None] is a file that cannot be
    opened for reading. *)
Record node : Type := mkNode {
  n_regular : bool;
  n_mtime : Z;          (* st_mtime_ns *)
  n_size : Z;           (* st_size *)
  n_data : option bytes
}.

Definition filesystem : Type := list (bytes * node).

Fixpoint fs_get (p : bytes) (fs : filesystem) : option node :=
  match fs with
  | [] => None
  | (p', n) :: fs' => if bytes_eqb p p' then Some n else fs_get p fs'
  end.

Definition fs_remove (p : bytes) (fs : filesystem) : filesystem :=
  filter (fun pn => negb (bytes_eqb p (fst pn))) fs.

Fixpoint fs_put (p : bytes) (n : node) (fs : filesystem) : filesystem :=
  match fs with
  | [] => [(p, n)]
  | (p', n') :: fs' =>
      if bytes_eqb p p' then (p, n) :: fs' else (p', n') :: fs_put p n fs'
  end.

Inductive exn : Type :=
| SystemExit (code : Z)
| KeyboardInterrupt
| ValueError
| FileNotFoundError
| OSError
| EOFError
| OverflowError
| KeyError
| UnicodeEncodeError.                 (* a [ValueError] that nothing catches *)

(** What [print] is given; the formatted text is not modelled. *)
Inductive message : Type :=
| MsgWarning                                    (* "WARNING: msg" *)
| MsgSkipNonRegular (path : bytes)
| MsgHash (path : bytes) (size : Z)
| MsgCheckCopy (copy : bytes)
| MsgOutdatedCache
| MsgChecksumOf (path checksum : bytes)
| MsgRemoveDuplicate (filename : bytes) (copies : list bytes)
| MsgRemoved (n : nat)
| MsgNoFileRemoved
| MsgRemoveEmptyDir (directory : bytes)
| MsgBlank
| MsgAddRemoveOption
| MsgCacheOld (dt : Z)
| MsgPrompt
| MsgExit
| MsgUnknownAnswer (answer : str)
| MsgCtrlC
| MsgInvalidHeader (filename header : bytes)
| MsgReadCache (filename : bytes) (n : nat)
| MsgWriteCache (filename : bytes) (n : nat)
| MsgNoCacheFile (filename : bytes)
| MsgRemoveCacheFile (filename : bytes)
| MsgSpawn (n : nat)
| MsgScanCompleted
| MsgInterrupted
| MsgThreadException (e : exn).

(** Calls that reach outside the process, in the order they are made. *)
Inductive event : Type :=
| EvPrint (m : message)
| EvIsFile (p : bytes)
| EvStat (p : bytes)
| EvOpenRead (p : bytes)
| EvOpenWrite (p : bytes)
| EvUnlink (p : bytes)
| EvRmdir (p : bytes)
| EvPut (j : option job).

(** What [input()] meets on the terminal: a line, decoded and without its
    newline, or CTRL+c. *)
Inductive keyboard : Type :=
| Line (answer : str)
| CtrlC.

Inductive action : Type :=
| ActScan (directory : list bytes)
| ActRemoveDir (remove : bool) (directory : bytes)
| ActRemoveCache
| ActNone.                          (* no subcommand: [args.action] is [None] *)

(** The [App] object and the world around it. *)
Record state : Type := mkState {
  cache_filename : bytes;          (* App.cache_filename *)
  cache : dict;                    (* App.cache *)
  queue : list (option job);       (* App.queue, [None] is the sentinel *)
  threads : nat;                   (* len(App.threads) *)
  fs : filesystem;
  clock : Z;                       (* time.time(), in seconds *)
  stdin : list keyboard;
  log : list event
}.

Definition set_cache_filename (x : bytes) (s : state) : state :=
  mkState x (cache s) (queue s) (threads s) (fs s) (clock s) (stdin s) (log s).
Definition set_cache (x : dict) (s : state) : state :=
  mkState (cache_filename s) x (queue s) (threads s) (fs s) (clock s)
          (stdin s) (log s).
Definition set_queue (x : list (option job)) (s : state) : state :=
  mkState (cache_filename s) (cache s) x (threads s) (fs s) (clock s)
          (stdin s) (log s).
Definition set_threads (x : nat) (s : state) : state :=
  mkState (cache_filename s) (cache s) (queue s) x (fs s) (clock s)
          (stdin s) (log s).
Definition set_fs (x : filesystem) (s : state) : state :=
  mkState (cache_filename s) (cache s) (queue s) (threads s) x (clock s)
          (stdin s) (log s).
Definition set_clock (x : Z) (s : state) : state :=
  mkState (cache_filename s) (cache s) (queue s) (threads s) (fs s) x
          (stdin s) (log s).
Definition set_stdin (x : list keyboard) (s : state) : state :=
  mkState (cache_filename s) (cache s) (queue s) (threads s) (fs s) (clock s)
          x (log s).
Definition set_log (x : list event) (s : state) : state :=
  mkState (cache_filename s) (cache s) (queue s) (threads s) (fs s) (clock s)
          (stdin s) x.

(* ------------------------------------------------------------------ *)
(** *** The monad: state, and an exception or a value *)

Inductive result (A : Type) : Type :=
| Ret (a : A)
| Raise (e : exn).
Arguments Ret {A} a.
Arguments Raise {A} e.

Definition M (A : Type) : Type := state -> result A * state.

Definition ret {A} (a : A) : M A := fun s => (Ret a, s).

Definition bind {A B} (m : M A) (k : A -> M B) : M B :=
  fun s =>
    match m s with
    | (Ret a, s') => k a s'
    | (Raise e, s') => (Raise e, s')
    end.

Definition raise {A} (e : exn) : M A := fun s => (Raise e, s).

Definition gets {A} (f : state -> A) : M A := fun s => (Ret (f s), s).

Definition modify (f : state -> state) : M unit := fun s => (Ret tt, f s).

(** [try: body  except <handles>: handler] *)
Definition try_except {A} (body : M A) (handles : exn -> bool)
           (handler : M A) : M A :=
  fun s =>
    match body s with
    | (Raise e, s') => if handles e then handler s' else (Raise e, s')
    | r => r
    end.

(** [try: body  finally: final] *)
Definition try_finally {A} (body : M A) (final : M unit) : M A :=
  fun s =>
    match body s with
    | (r, s') =>
        match final s' with
        | (Ret _, s'') => (r, s'')
        | (Raise e, s'') => (Raise e, s'')
        end
    end.

Notation "x <- m ;; k" := (bind m (fun x => k))
  (at level 61, m at next level, right associativity).
Notation "m ;; k" := (bind m (fun _ => k))
  (at level 61, right associativity).

Definition emit (e : event) : M unit :=
  modify (fun s => set_log (log s ++ [e]) s).

(** [print] of a text made of fixed words, numbers, the ASCII forms [%a]
    and [%s] of a bytes object, and the name of the cache file: the
    terminal is taken to encode them.  The texts that hold the name of a
    scanned or cached file, or what was typed, go through [print_names] and
    [print_repr] below. *)
Definition print (m : message) : M unit := emit (EvPrint m).

(** [sys.exit(code)] raises [SystemExit]. *)
Definition sys_exit {A} (code : Z) : M A := raise (SystemExit code).

Definition is_KeyboardInterrupt (e : exn) : bool :=
  match e with KeyboardInterrupt => true | _ => false end.
Definition is_FileNotFoundError (e : exn) : bool :=
  match e with FileNotFoundError => true | _ => false end.
(** [FileNotFoundError] is a subclass of [OSError]. *)
Definition is_OSError (e : exn) : bool :=
  match e with FileNotFoundError | OSError => true | _ => false end.

(** Cache header line *)
Definition HEADER : bytes := B "dedup.py 0.0 md5".
(** [MAX_CACHE_AGE], in seconds *)
Definition MAX_CACHE_AGE : Z := 3600.

(** [str.lower()] on a character of an ASCII [str]. *)
Definition is_ascii (c : N) : bool := (c <? 128)%N.

Definition ascii_lower (c : N) : N :=
  if ((65 <=? c) && (c <=? 90))%N then (c + 32)%N else c.

(** The characters [str.strip()] removes, those for which [str.isspace()]
    holds: the ASCII ones and the Unicode ones (NEL, the no-break space, the
    spaces of the General Punctuation block, ...). *)
Definition is_str_space (c : N) : bool :=
  (((9 <=? c) && (c <=? 13)) || ((28 <=? c) && (c <=? 32))
   || (c =? 133) || (c =? 160) || (c =? 5760)
   || ((8192 <=? c) && (c <=? 8202))
   || (c =? 8232) || (c =? 8233) || (c =? 8239) || (c =? 8287)
   || (c =? 12288))%N.

Fixpoint for_each {A} (l : list A) (body : A -> M unit) : M unit :=
  match l with
  | [] => ret tt
  | x :: l' => body x ;; for_each l' body
  end.

(** How a worker's [run] ends without an exception: on the sentinel, or
    waiting in [queue.get()] on an empty queue. *)
Inductive worker_end : Type :=
| Stopped
| Waiting.

(** [App.__init__], in a given world. *)
Definition App_init (files : filesystem) (now : Z) (keys : list keyboard)
  : state :=
  mkState (B "~/.cache/deduppy_cache.txt") [] [] 0%nat files now keys [].

(* ------------------------------------------------------------------ *)
(** *** The cache file *)

(** One record of the cache file. *)
Definition cache_line (item : bytes * entry) : bytes :=
  let '(filename, (mtime, checksum)) := item in
  format_int mtime ++ [COLON] ++ hexlify checksum ++ [COLON]
    ++ filename ++ [NL].

(** The bytes [write_cache] writes at time [ts] for the cache [c]. *)
Definition cache_file_data (ts : Z) (c : dict) : bytes :=
  HEADER ++ [NL] ++ format_int ts ++ [NL] ++ flat_map cache_line c.

(* ================================================================== *)
(** ** Sample worlds

    Concrete inputs on which the program is run further down.  The digest of
    the samples is the content itself: no property below depends on what
    [md5] computes. *)

Definition sample_md5 (data : bytes) : bytes := data.
Definition sample_real_path (p : bytes) : bytes := p.
Definition sample_expanduser (p : bytes) : bytes :=
  match p with
  | "~"%byte :: rest => B "/home/u" ++ rest
  | _ => p
  end.
Definition sample_walk (files : filesystem) (d : bytes) : list bytes :=
  filter (fun p => bytes_eqb (dirname p) d) (map fst files).
Definition sample_rmdir_ok (files : filesystem) (d : bytes) : bool :=
  negb (existsb (fun p => bytes_eqb (dirname p) d) (map fst files)).

(** A standard output with the encoding [ascii] and the error handler
    [strict]: [os.fsdecode] turns every byte above 127 into a character
    outside ASCII or into a lone surrogate, which this output refuses. *)
Definition sample_stdout (name : bytes) : bool :=
  forallb (fun c => (Byte.to_N c <? 128)%N) name.

(** The same output on [repr(answer)] for an answer of ASCII characters;
    [repr] keeps the printable characters outside ASCII, which this output
    refuses. *)
Definition sample_stdout_repr (answer : str) : bool :=
  forallb (fun c => (c <? 128)%N) answer.

(** [str.lower()] on a [str] of Latin-1 characters. *)
Definition sample_lower (s : str) : str :=
  map (fun c => if ((192 <=? c) && (c <=? 222) && negb (c =? 215))%N
                then (c + 32)%N else ascii_lower c) s.

Definition sample_cache_filename : bytes :=
  B "/home/u/.cache/deduppy_cache.txt".

Definition file_of (data : bytes) (mtime : Z) : node :=
  mkNode true mtime (Z.of_nat (List.length data)) (Some data).

(** Two files of [/t] with a copy each in [/o]; the copy [/o/b] was rewritten
    after its checksum was cached. *)
Definition stale_cache : dict :=
  [ (B "/t/a", (1, B "A")); (B "/t/b", (1, B "B"));
    (B "/o/a", (1, B "A")); (B "/o/b", (1, B "B")) ].

Definition stale_fs : filesystem :=
  [ (B "/t/a", file_of (B "A") 1); (B "/t/b", file_of (B "B") 1);
    (B "/o/a", file_of (B "A") 1); (B "/o/b", file_of (B "changed") 1) ].

Definition stale_state : state :=
  mkState sample_cache_filename stale_cache [] 1%nat stale_fs 1000 [] [].

(** The same world at start-up: the stale cache is on disk, written ten
    seconds ago. *)
Definition stale_disk : filesystem :=
  stale_fs ++ [ (sample_cache_filename,
                 file_of (cache_file_data 990 stale_cache) 990000000000) ].

Definition stale_start : state := App_init stale_disk 1000 [].

(** A worker's queue whose first file has vanished. *)
Definition job_gone : job := (B "/x/gone", WriteChecksum (B "/x/gone") 1).
Definition job_ok : job := (B "/x/ok", WriteChecksum (B "/x/ok") 2).

Definition worker_state : state :=
  mkState sample_cache_filename [] [Some job_gone; Some job_ok; None] 1%nat
          [ (B "/x/ok", file_of (B "data") 2) ] 1000 [] [].

Definition worker_state_ok_first : state :=
  mkState sample_cache_filename [] [Some job_ok; Some job_gone; None] 1%nat
          [ (B "/x/ok", file_of (B "data") 2) ] 1000 [] [].

(** A named pipe, and a regular file whose name holds a colon. *)
Definition pipe : node := mkNode false 7 0 None.

Definition scan_state : state :=
  mkState sample_cache_filename
          [ (B "/d/old", (9, B "0123456789abcdef")) ] [] 1%nat
          [ (B "/d/pipe", pipe);
            (B "/d/a:b", file_of (B "hello") 5);
            (B "/d/old", file_of (B "world") 9) ]
          1000 [] [].

Definition newline_path : bytes := B "/d/a" ++ [NL] ++ B "b".

(** An empty cache in memory, a cache file of an earlier run on disk. *)
Definition empty_cache_state : state :=
  mkState sample_cache_filename [] [] 1%nat stale_disk 1000 [] [].

(** Two identical files in [/t], no copy elsewhere. *)
Definition twins_cache : dict :=
  [ (B "/t/a", (1, B "A")); (B "/t/a2", (1, B "A"));
    (B "/o/b", (1, B "B")) ].

Definition twins_state : state :=
  mkState sample_cache_filename twins_cache [] 1%nat
          [ (B "/t/a", file_of (B "A") 1); (B "/t/a2", file_of (B "A") 1);
            (B "/o/b", file_of (B "B") 1) ] 1000 [] [].

(** A cache to be saved: a path with colons, a negative time. *)
Definition saved_cache : dict :=
  [ (B "/d/a:b:c", (1700000000123456789, B "0123456789abcdef"));
    (B "/o/x", (-5, B "fedcba9876543210")) ].

Definition saving_state : state :=
  mkState sample_cache_filename saved_cache [] 1%nat [] 1000 [] [].

(** A cache file of another version of the format. *)
Definition foreign_cache_file : bytes :=
  B "dedup.py 9.9 sha1" ++ [NL] ++ B "12" ++ [NL].

Definition foreign_state : state :=
  mkState sample_cache_filename [] [] 0%nat
          [ (sample_cache_filename, file_of foreign_cache_file 5) ]
          1000 [] [].

(** The stale cache file two hours after it was written, and what is
    typed at the question. *)
Definition old_cache_state (keys : list keyboard) : state :=
  mkState sample_cache_filename [] [] 0%nat stale_disk 8190 keys [].

(** A target file with a copy elsewhere, and one without. *)
Definition copied_cache : dict :=
  [ (B "/t/a", (1, B "A")); (B "/o/a", (1, B "A"));
    (B "/t/c", (1, B "C")) ].

Definition copied_state : state :=
  mkState sample_cache_filename copied_cache [] 1%nat
          [ (B "/t/a", file_of (B "A") 1); (B "/o/a", file_of (B "A") 1);
            (B "/t/c", file_of (B "C") 1) ] 1000 [] [].

(** A first run: no cache file, one file to scan. *)
Definition first_start : state :=
  App_init [ (B "/d/x", file_of (B "hello") 5) ] 1000 [].



(** A home directory whose name holds a newline, and the cache file of
    that user, met while the home directory is scanned. *)
Definition newline_cache_filename : bytes :=
  B "/home/a" ++ [NL] ++ B "b/.cache/deduppy_cache.txt".

Definition newline_home_state : state :=
  mkState newline_cache_filename [] [] 1%nat
          [ (newline_cache_filename,
             file_of (cache_file_data 990 stale_cache) 990000000000) ]
          1000 [] [].

(* ================================================================== *)
(** ** The program *)

Section App.

Set Default Proof Using "Type".

(** [hashlib.md5(...).digest()] of the whole content. *)
Variable md5 : bytes -> bytes.
(** [os.path.realpath], [os.path.expanduser], the files [os.walk] meets below
    a directory (each already joined to its directory), whether [os.rmdir]
    succeeds, and [os.cpu_count()]. *)
Variable real_path : bytes -> bytes.
Variable expanduser : bytes -> bytes.
Variable os_walk : filesystem -> bytes -> list bytes.
Variable rmdir_ok : filesystem -> bytes -> bool.
Variable cpu_count : option nat.
(** Whether [sys.stdout], with its encoding and its error handler, can
    encode [os.fsdecode(name)]. *)
Variable stdout_encodes : bytes -> bool.
(** [str.lower()] on a [str] that holds characters outside ASCII. *)
Variable unicode_lower : str -> str.
(** Whether [sys.stdout] can encode [repr(answer)]: [repr] escapes the
    characters that are not printable and keeps the others. *)
Variable stdout_encodes_repr : str -> bool.

(** [print] of a text that holds [os.fsdecode(name)] for each of [names].
    The text is encoded as a whole before any of it is written: when a name
    cannot be encoded, [print] raises [UnicodeEncodeError] and nothing is
    printed. *)
Definition print_names (names : list bytes) (m : message) : M unit :=
  if forallb stdout_encodes names then print m else raise UnicodeEncodeError.

(** [print] of a text that holds [repr(answer)]. *)
Definition print_repr (answer : str) (m : message) : M unit :=
  if stdout_encodes_repr answer then print m else raise UnicodeEncodeError.

(** [str.lower()] *)
Definition lower (s : str) : str :=
  if forallb is_ascii s then map ascii_lower s else unicode_lower s.

Definition cache_now : M Z := gets clock.

Definition os_isfile (p : bytes) : M bool :=
  emit (EvIsFile p) ;;
  files <- gets fs ;;
  ret (match fs_get p files with
       | Some n => n_regular n
       | None => false
       end).

Definition os_stat (p : bytes) : M node :=
  emit (EvStat p) ;;
  files <- gets fs ;;
  match fs_get p files with
  | Some n => ret n
  | None => raise FileNotFoundError
  end.

Definition os_unlink (p : bytes) : M unit :=
  emit (EvUnlink p) ;;
  files <- gets fs ;;
  match fs_get p files with
  | Some _ => modify (set_fs (fs_remove p files))
  | None => raise FileNotFoundError
  end.

Definition os_rmdir (d : bytes) : M unit :=
  emit (EvRmdir d) ;;
  files <- gets fs ;;
  if rmdir_ok files d then ret tt else raise OSError.

(** [open(p, 'rb')] and reading to the end. *)
Definition open_read (p : bytes) : M bytes :=
  emit (EvOpenRead p) ;;
  files <- gets fs ;;
  match fs_get p files with
  | None => raise FileNotFoundError
  | Some n =>
      match n_data n with
      | Some data => ret data
      | None => raise OSError
      end
  end.

Definition queue_put (j : option job) : M unit :=
  emit (EvPut j) ;;
  modify (fun s => set_queue (queue s ++ [j]) s).

(** [hash_file]: the chunks of the file are fed to one digest, which is the
    digest of the whole content. *)
Definition hash_file (filename : bytes) : M bytes :=
  data <- open_read filename ;;
  ret (md5 data).

(** Calling the closure [write_checksum(checksum)]. *)
Definition call (cb : callback) (checksum : bytes) : M unit :=
  match cb with
  | WriteChecksum path mtime =>
      modify (fun s => set_cache (dict_set path (mtime, checksum) (cache s)) s)
  end.

(** [HashThread.run], on the jobs [q] waiting in the queue. *)
Fixpoint run_jobs (q : list (option job)) : M worker_end :=
  match q with
  | [] => ret Waiting
  | None :: rest =>
      modify (set_queue rest) ;;
      ret Stopped
  | Some (filename, cb) :: rest =>
      modify (set_queue rest) ;;
      checksum <- hash_file filename ;;
      call cb checksum ;;
      run_jobs rest
  end.

Definition HashThread_run : M worker_end :=
  q <- gets queue ;;
  run_jobs q.

(** [App.warn]: the argument is not used, the text printed is fixed. *)
Definition warn (msg : message) : M unit := print MsgWarning.

Definition remove_cache : M unit :=
  filename <- gets cache_filename ;;
  removed <- try_except (os_unlink filename ;; ret true)
                        is_FileNotFoundError
                        (print (MsgNoCacheFile filename) ;; ret false) ;;
  if removed : bool then print (MsgRemoveCacheFile filename) else ret tt.

(** The loop of [check_cache_age] on what is typed; [input()] at the end of
    the input raises [EOFError]. *)
Fixpoint ask (keys : list keyboard) : M bool :=
  print MsgPrompt ;;
  match keys with
  | [] => raise EOFError
  | CtrlC :: rest =>
      modify (set_stdin rest) ;;
      print MsgBlank ;;
      print MsgCtrlC ;;
      sys_exit 0
  | Line answer :: rest =>
      modify (set_stdin rest) ;;
      let answer := strip is_str_space (lower answer) in
      if str_eqb answer (U "no") || str_eqb answer (U "n") then
        remove_cache ;;
        print MsgBlank ;;
        ret true
      else if str_eqb answer (U "yes") || str_eqb answer (U "y") then
        ret false
      else
        match answer with
        | [] => print MsgExit ;; sys_exit 0
        | _ => print_repr answer (MsgUnknownAnswer answer) ;; ask rest
        end
  end.

(** [check_cache_age]; [None] and [False] both read as [false].
    [datetime.timedelta] refuses more than 999999999 days. *)
Definition check_cache_age (ts : Z) : M bool :=
  now <- cache_now ;;
  let dt := now - ts in
  if (dt / 86400 <? -999999999) || (999999999 <? dt / 86400) then
    raise OverflowError
  else if dt <? MAX_CACHE_AGE then ret false
  else
    print (MsgCacheOld dt) ;;
    keys <- gets stdin ;;
    ask keys.

(** The body of the [for line in fp] loop of [read_cache]. *)
Definition read_cache_line (line : bytes) : M unit :=
  let line := rstrip is_nl line in
  match split_colon_2 line with
  | None => raise ValueError
  | Some (mtime, checksum, filename) =>
      match unhexlify checksum with
      | None => raise ValueError
      | Some checksum =>
          match py_int mtime with
          | None => raise ValueError
          | Some mtime =>
              modify (fun s =>
                        set_cache (dict_set filename (mtime, checksum)
                                            (cache s)) s)
          end
      end
  end.

Definition read_cache : M unit :=
  filename <- gets cache_filename ;;
  opened <- try_except (data <- open_read filename ;; ret (Some data))
                       is_FileNotFoundError
                       (ret None) ;;
  match opened with
  | None => ret tt
  | Some data =>
      let (header, data1) := readline data in
      if negb (bytes_eqb header (HEADER ++ [NL])) then
        print (MsgInvalidHeader filename header) ;;
        sys_exit 1
      else
        let (line, data2) := readline data1 in
        let line := rstrip is_nl line in
        match py_int line with
        | None => raise ValueError
        | Some ts =>
            exit <- check_cache_age ts ;;
            if exit : bool then ret tt
            else
              for_each (readlines data2) read_cache_line ;;
              c <- gets cache ;;
              print (MsgReadCache filename (List.length c))
        end
  end.

(** [open(p, 'wb')], the writes and the close: the file is created or
    replaced. *)
Definition write_file (p : bytes) (data : bytes) : M unit :=
  emit (EvOpenWrite p) ;;
  now <- cache_now ;;
  modify (fun s =>
            set_fs (fs_put p (mkNode true (now * 1000000000)
                                     (Z.of_nat (List.length data)) (Some data))
                           (fs s)) s).

Definition write_cache : M unit :=
  c <- gets cache ;;
  match c with
  | [] => ret tt
  | _ =>
      filename <- gets cache_filename ;;
      ts <- cache_now ;;
      write_file filename
                 (HEADER ++ [NL] ++ format_int ts ++ [NL]
                    ++ flat_map cache_line c) ;;
      print (MsgWriteCache filename (List.length c))
  end.

Definition scan_file (path : bytes) : M unit :=
  let path := real_path path in
  own <- gets cache_filename ;;
  if bytes_eqb path own then ret tt
  else if contains is_nl path then raise ValueError
  else
    regular <- os_isfile path ;;
    (if negb regular then warn (MsgSkipNonRegular path) else ret tt) ;;
    filestat <- os_stat path ;;
    let mtime := n_mtime filestat in
    c <- gets cache ;;
    let unmodified :=
      match dict_get path c with
      | Some (cache_mtime, checksum) => cache_mtime >=? mtime
      | None => false
      end in
    if unmodified then ret tt
    else
      let job := (path, WriteChecksum path mtime) in
      print_names [path] (MsgHash path (n_size filestat)) ;;
      queue_put (Some job).

Definition scan_directory (directory : bytes) : M unit :=
  files <- gets fs ;;
  for_each (os_walk files directory) scan_file.

Definition scan (directories : list bytes) : M unit :=
  for_each directories scan_directory ;;
  print MsgScanCompleted.

Definition start_threads : M unit :=
  let nthread := match cpu_count with
                 | Some (S n) => S n
                 | _ => 1%nat
                 end in
  print (MsgSpawn nthread) ;;
  modify (set_queue []) ;;
  modify (set_threads nthread).

(** [thread.join()] for [n] threads.  The interleaving of the workers with
    the scanner is not modelled: the jobs are run here, one worker after the
    other, in the order they were put.  A worker that ends on an exception
    has it printed by [threading] and is joined like the others. *)
Fixpoint join_threads (n : nat) : M unit :=
  match n with
  | O => ret tt
  | S n' =>
      fun s =>
        match HashThread_run s with
        | (Ret _, s') => join_threads n' s'
        | (Raise e, s') => (print (MsgThreadException e) ;; join_threads n') s'
        end
  end.

Definition stop_threads : M unit :=
  n <- gets threads ;;
  for_each (repeat tt n) (fun _ => queue_put None) ;;
  join_threads n.

(** The first loop of [remove_dir]: the entries directly inside [directory]
    go to [content], the others are grouped by checksum in [byhash]. *)
Fixpoint partition_cache (directory : bytes) (items : dict)
         (content : list (bytes * bytes)) (byhash : groups)
  : list (bytes * bytes) * groups :=
  match items with
  | [] => (content, byhash)
  | (filename, (mtime, checksum)) :: rest =>
      if bytes_eqb (dirname filename) directory then
        partition_cache directory rest (content ++ [(filename, checksum)])
                        byhash
      else
        partition_cache directory rest content
                        (groups_append checksum filename byhash)
  end.

Definition del_cache (filename : bytes) : M unit :=
  c <- gets cache ;;
  match dict_del filename c with
  | Some c' => modify (set_cache c')
  | None => raise KeyError
  end.

(** The second loop of [remove_dir]; the result is [nremoved]. *)
Fixpoint remove_loop (remove : bool) (byhash : groups)
         (content : list (bytes * bytes)) (nremoved : nat) : M nat :=
  match content with
  | [] => ret nremoved
  | (filename, checksum) :: rest =>
      let files := groups_get checksum byhash in
      match files with
      | [] => remove_loop remove byhash rest nremoved
      | copy :: _ =>
          print_names [copy] (MsgCheckCopy copy) ;;
          copy_checksum <- hash_file copy ;;
          if negb (bytes_eqb copy_checksum checksum) then
            print MsgOutdatedCache ;;
            print_names [filename]
                        (MsgChecksumOf filename (hexlify checksum)) ;;
            print_names [copy] (MsgChecksumOf copy (hexlify copy_checksum)) ;;
            sys_exit 1
          else
            print_names (filename :: files)
                        (MsgRemoveDuplicate filename files) ;;
            (if remove then
               del_cache filename ;;
               try_except (os_unlink filename) is_FileNotFoundError (ret tt)
             else ret tt) ;;
            remove_loop remove byhash rest (S nremoved)
      end
  end.

Definition remove_dir (remove : bool) (directory : bytes) : M unit :=
  let directory := real_path directory in
  c <- gets cache ;;
  let (content, byhash) := partition_cache directory c [] [] in
  nremoved <- remove_loop remove byhash content 0 ;;
  match nremoved with
  | O => print MsgNoFileRemoved
  | _ => print (MsgRemoved nremoved)
  end ;;
  if remove then
    removed <- try_except (os_rmdir directory ;; ret true)
                          is_OSError (ret false) ;;
    if removed : bool then
      print_names [directory] (MsgRemoveEmptyDir directory)
    else ret tt
  else
    print MsgBlank ;;
    print MsgAddRemoveOption.

(** [App.main]; [args] is what [parse_args] stored in [self.args]. *)
Definition main (args : action) : M unit :=
  modify (fun s =>
            set_cache_filename (real_path (expanduser (cache_filename s))) s) ;;
  match args with
  | ActRemoveCache => remove_cache ;; sys_exit 0
  | _ =>
      read_cache ;;
      start_threads ;;
      try_finally
        (try_except
           (match args with
            | ActScan directories => scan directories
            | ActRemoveDir remove directory => remove_dir remove directory
            | ActRemoveCache | ActNone => ret tt
            end)
           is_KeyboardInterrupt
           (print MsgBlank ;; print MsgInterrupted))
        stop_threads ;;
      write_cache
  end.


(* ================================================================== *)
(** ** Vocabulary of the properties *)

(** The digest [hash_file] returns for a path, when the file can be read. *)
Definition file_digest (files : filesystem) (p : bytes) : option bytes :=
  match fs_get p files with
  | Some n => option_map md5 (n_data n)
  | None => None
  end.

(** The cache after the jobs [pre] have been completed in order. *)
Fixpoint completed (files : filesystem) (pre : list job) (c : dict) : dict :=
  match pre with
  | [] => c
  | (f, WriteChecksum p m) :: rest =>
      match file_digest files f with
      | Some h => completed files rest (dict_set p (m, h) c)
      | None => c
      end
  end.

(** Every byte of a formatted integer is a digit or the minus sign. *)
Definition is_int_byte (c : byte) : bool :=
  is_digit c || Byte.eqb c "-"%byte.

Definition in_dir (directory : bytes) (item : bytes * entry) : bool :=
  bytes_eqb (dirname (fst item)) directory.

(** The fields of the state that [remove_dir] never writes. *)
Definition same_app (s s' : state) : Prop :=
  cache_filename s' = cache_filename s
  /\ queue s' = queue s
  /\ threads s' = threads s
  /\ clock s' = clock s
  /\ stdin s' = stdin s.

(** One turn of the second loop of [remove_dir], case by case. *)
Inductive loop_step (remove : bool) (byhash : groups) (f c : bytes)
          (s : state) : result unit -> state -> Prop :=
| StepNoCopy s' :
    groups_get c byhash = [] ->
    s' = s ->
    loop_step remove byhash f c s (Ret tt) s'
| StepHidden copy more s' :
    groups_get c byhash = copy :: more ->
    stdout_encodes copy = false ->
    s' = s ->
    loop_step remove byhash f c s (Raise UnicodeEncodeError) s'
| StepUnreadable copy more e s' :
    groups_get c byhash = copy :: more ->
    stdout_encodes copy = true ->
    file_digest (fs s) copy = None ->
    is_OSError e = true ->
    s' = set_log (log s ++ [EvPrint (MsgCheckCopy copy); EvOpenRead copy]) s ->
    loop_step remove byhash f c s (Raise e) s'
| StepStale copy more h s' :
    groups_get c byhash = copy :: more ->
    stdout_encodes copy = true ->
    file_digest (fs s) copy = Some h ->
    h <> c ->
    stdout_encodes f = true ->
    s' = set_log (log s ++ [EvPrint (MsgCheckCopy copy); EvOpenRead copy;
                            EvPrint MsgOutdatedCache;
                            EvPrint (MsgChecksumOf f (hexlify c));
                            EvPrint (MsgChecksumOf copy (hexlify h))]) s ->
    loop_step remove byhash f c s (Raise (SystemExit 1)) s'
| StepStaleHidden copy more h s' :
    groups_get c byhash = copy :: more ->
    stdout_encodes copy = true ->
    file_digest (fs s) copy = Some h ->
    h <> c ->
    stdout_encodes f = false ->
    s' = set_log (log s ++ [EvPrint (MsgCheckCopy copy); EvOpenRead copy;
                            EvPrint MsgOutdatedCache]) s ->
    loop_step remove byhash f c s (Raise UnicodeEncodeError) s'
| StepMute copy more s' :
    groups_get c byhash = copy :: more ->
    stdout_encodes copy = true ->
    file_digest (fs s) copy = Some c ->
    forallb stdout_encodes (f :: copy :: more) = false ->
    s' = set_log (log s ++ [EvPrint (MsgCheckCopy copy); EvOpenRead copy]) s ->
    loop_step remove byhash f c s (Raise UnicodeEncodeError) s'
| StepReport copy more s' :
    groups_get c byhash = copy :: more ->
    file_digest (fs s) copy = Some c ->
    forallb stdout_encodes (f :: copy :: more) = true ->
    remove = false ->
    s' = set_log (log s ++ [EvPrint (MsgCheckCopy copy); EvOpenRead copy;
                            EvPrint (MsgRemoveDuplicate f (copy :: more))])
                 s ->
    loop_step remove byhash f c s (Ret tt) s'
| StepNoKey copy more s' :
    groups_get c byhash = copy :: more ->
    file_digest (fs s) copy = Some c ->
    forallb stdout_encodes (f :: copy :: more) = true ->
    remove = true ->
    dict_del f (cache s) = None ->
    s' = set_log (log s ++ [EvPrint (MsgCheckCopy copy); EvOpenRead copy;
                            EvPrint (MsgRemoveDuplicate f (copy :: more))])
                 s ->
    loop_step remove byhash f c s (Raise KeyError) s'
| StepDelete copy more c' s' :
    groups_get c byhash = copy :: more ->
    file_digest (fs s) copy = Some c ->
    forallb stdout_encodes (f :: copy :: more) = true ->
    remove = true ->
    dict_del f (cache s) = Some c' ->
    log s' = log s ++ [EvPrint (MsgCheckCopy copy); EvOpenRead copy;
                       EvPrint (MsgRemoveDuplicate f (copy :: more));
                       EvUnlink f] ->
    cache s' = c' ->
    fs s' = fs_remove f (fs s) ->
    same_app s s' ->
    loop_step remove byhash f c s (Ret tt) s'.

(** The number of files reported so far goes up with every turn that
    reports one. *)
Definition counted (byhash : groups) (c : bytes) (n : nat) : nat :=
  match groups_get c byhash with
  | [] => n
  | _ => S n
  end.

(** A run of the second loop: turns that return, then the end of [content]
    or a turn that raises. *)
Inductive loop_run (remove : bool) (byhash : groups)
  : list (bytes * bytes) -> state -> result unit -> state -> Prop :=
| RunDone s :
    loop_run remove byhash [] s (Ret tt) s
| RunTurn f c rest s s1 r s' :
    loop_step remove byhash f c s (Ret tt) s1 ->
    loop_run remove byhash rest s1 r s' ->
    loop_run remove byhash ((f, c) :: rest) s r s'
| RunRaise f c rest s e s' :
    loop_step remove byhash f c s (Raise e) s' ->
    loop_run remove byhash ((f, c) :: rest) s (Raise e) s'.

Definition forget {A} (r : result A) : result unit :=
  match r with
  | Ret _ => Ret tt
  | Raise e => Raise e
  end.

(** What the end of [remove_dir] prints and calls after the loop. *)
Definition closing_event (ev : event) : Prop :=
  match ev with
  | EvPrint (MsgRemoved _) | EvPrint MsgNoFileRemoved
  | EvPrint (MsgRemoveEmptyDir _) | EvPrint MsgBlank
  | EvPrint MsgAddRemoveOption | EvRmdir _ => True
  | _ => False
  end.

(** [adds P m]: from any state, [m] extends the log by events that all
    satisfy [P], whatever its result. *)
Definition adds {A} (P : event -> Prop) (m : M A) : Prop :=
  forall s, exists evs,
      log (snd (m s)) = log s ++ evs /\ Forall P evs.

(** Events other than opening a file for writing and the report of an
    outdated cache. *)
Definition benign (ev : event) : Prop :=
  match ev with
  | EvOpenWrite _ => False
  | EvPrint MsgOutdatedCache => False
  | _ => True
  end.

(** The cache after the records of [c] have been read into [d]. *)
Definition load_items (c d : dict) : dict :=
  fold_left (fun d it => dict_set (fst it) (snd it) d) c d.

Definition newline_free (c : dict) : Prop :=
  forall p e, In (p, e) c -> contains is_nl p = false.

Definition is_open_write (ev : event) : bool :=
  match ev with EvOpenWrite _ => true | _ => false end.

Definition is_warning (ev : event) : bool :=
  match ev with EvPrint MsgWarning => true | _ => false end.

(** What [check_cache_age] makes of an answer: [answer.lower().strip()]. *)
Definition normalize (answer : str) : str :=
  strip is_str_space (lower answer).

Definition says_no (answer : str) : bool :=
  str_eqb (normalize answer) (U "no") || str_eqb (normalize answer) (U "n").

Definition says_yes (answer : str) : bool :=
  str_eqb (normalize answer) (U "yes")
  || str_eqb (normalize answer) (U "y").


(** A cache file with the right header and the timestamp [ts]. *)
Definition stamped (ts : Z) (records : bytes) : bytes :=
  HEADER ++ NL :: format_int ts ++ NL :: records.

(** The cache is at least [MAX_CACHE_AGE] old (and [timedelta] takes the
    age). *)
Definition stale (ts : Z) (s : state) : Prop :=
  MAX_CACHE_AGE <= clock s - ts /\ (clock s - ts) / 86400 <= 999999999.

(** The target entry has a copy outside the target directory. *)
Definition has_copy (byhash : groups) (item : bytes * bytes) : bool :=
  match groups_get (snd item) byhash with
  | [] => false
  | _ => true
  end.

Definition not_write (ev : event) : Prop :=
  match ev with
  | EvOpenWrite _ => False
  | _ => True
  end.


(** [tracked m]: [m] keeps the name of the cache file, and it changes no
    file but those it unlinks. *)
Definition tracked {A} (m : M A) : Prop :=
  forall s, exists evs,
      log (snd (m s)) = log s ++ evs
      /\ cache_filename (snd (m s)) = cache_filename s
      /\ forall p, ~ In (EvUnlink p) evs ->
                   fs_get p (fs (snd (m s))) = fs_get p (fs s).

(** The events of the second loop of [remove_dir]. *)
Definition loop_event (ev : event) : Prop :=
  match ev with
  | EvPrint _ | EvOpenRead _ | EvUnlink _ => True
  | _ => False
  end.

(* ================================================================== *)
(** ** Bytes and codecs: lemmas *)

Lemma bytes_eqb_refl (a : bytes) : bytes_eqb a a = true.
Proof.
  induction a as [|x a IH]; simpl; [reflexivity|].
  rewrite (Byte.byte_dec_lb (eq_refl x)). exact IH.
Qed.

Lemma bytes_eqb_eq (a b : bytes) : bytes_eqb a b = true <-> a = b.
Proof.
  split.
  - revert b. induction a as [|x a IH]; intros [|y b] H; simpl in H;
      try discriminate; [reflexivity|].
    apply andb_true_iff in H. destruct H as [Hx Hr].
    apply Byte.byte_dec_bl in Hx. subst y. f_equal. apply IH. exact Hr.
  - intros ->. apply bytes_eqb_refl.
Qed.

Lemma bytes_eqb_neq (a b : bytes) : bytes_eqb a b = false <-> a <> b.
Proof.
  split.
  - intros H E. apply bytes_eqb_eq in E. congruence.
  - intros H. destruct (bytes_eqb a b) eqn:E; [|reflexivity].
    apply bytes_eqb_eq in E. contradiction.
Qed.

Lemma bytes_eqb_sym (a b : bytes) : bytes_eqb a b = bytes_eqb b a.
Proof.
  destruct (bytes_eqb a b) eqn:E.
  - apply bytes_eqb_eq in E. subst. symmetry. apply bytes_eqb_refl.
  - symmetry. apply bytes_eqb_neq. apply bytes_eqb_neq in E. congruence.
Qed.

Lemma contains_app p (a b : bytes) :
  contains p (a ++ b) = contains p a || contains p b.
Proof. apply existsb_app. Qed.

Lemma rstrip_none p (s : bytes) : contains p s = false -> rstrip p s = s.
Proof.
  induction s as [|c t IH]; simpl; [reflexivity|].
  intros H. apply orb_false_iff in H. destruct H as [Hc Ht].
  rewrite (IH Ht). destruct t; [rewrite Hc|]; reflexivity.
Qed.

Lemma rstrip_snoc p (s : bytes) (c : byte) :
  p c = true -> rstrip p (s ++ [c]) = rstrip p s.
Proof.
  intros Hc. induction s as [|x t IH]; simpl.
  - rewrite Hc. reflexivity.
  - rewrite IH. reflexivity.
Qed.

Lemma lstrip_head p (c : byte) (t : bytes) :
  p c = false -> lstrip p (c :: t) = c :: t.
Proof. intros H. simpl. rewrite H. reflexivity. Qed.

Lemma readline_app (l rest : bytes) :
  contains is_nl l = false -> readline (l ++ NL :: rest) = (l ++ [NL], rest).
Proof.
  induction l as [|c t IH]; simpl; intros H; [reflexivity|].
  apply orb_false_iff in H. destruct H as [Hc Ht].
  rewrite Hc, (IH Ht). reflexivity.
Qed.

Lemma readlines_app (l rest : bytes) :
  contains is_nl l = false ->
  readlines (l ++ NL :: rest) = (l ++ [NL]) :: readlines rest.
Proof.
  induction l as [|c t IH]; simpl; intros H; [reflexivity|].
  apply orb_false_iff in H. destruct H as [Hc Ht].
  rewrite Hc, (IH Ht). reflexivity.
Qed.

Lemma split_first_app p (l r : bytes) (c : byte) :
  contains p l = false -> p c = true ->
  split_first p (l ++ c :: r) = Some (l, r).
Proof.
  intros Hl Hc. induction l as [|x t IH]; simpl.
  - rewrite Hc. reflexivity.
  - simpl in Hl. apply orb_false_iff in Hl. destruct Hl as [Hx Ht].
    rewrite Hx, (IH Ht). reflexivity.
Qed.

Lemma bytes_of_uint_digits (u : Decimal.uint) :
  forallb is_digit (bytes_of_uint u) = true.
Proof. induction u; simpl; auto. Qed.

Lemma format_int_bytes (n : Z) : forallb is_int_byte (format_int n) = true.
Proof.
  assert (H : forall u, forallb is_int_byte (bytes_of_uint u) = true).
  { intros u. induction u; simpl; auto. }
  unfold format_int. destruct (Z.to_int n); simpl; auto.
Qed.

Lemma forallb_contains (p q : byte -> bool) (s : bytes) :
  (forall c, q c = true -> p c = false) ->
  forallb q s = true -> contains p s = false.
Proof.
  intros Hpq. induction s as [|c t IH]; simpl; [reflexivity|].
  intros H. apply andb_true_iff in H. destruct H as [Hc Ht].
  rewrite (Hpq c Hc), (IH Ht). reflexivity.
Qed.

Lemma int_byte_not_nl c : is_int_byte c = true -> is_nl c = false.
Proof. destruct c; simpl; intros H; try discriminate H; reflexivity. Qed.

Lemma int_byte_not_colon c : is_int_byte c = true -> is_colon c = false.
Proof. destruct c; simpl; intros H; try discriminate H; reflexivity. Qed.

Lemma int_byte_not_space c : is_int_byte c = true -> is_space c = false.
Proof. destruct c; simpl; intros H; try discriminate H; reflexivity. Qed.

Lemma parse_digits_acc_digit (c : byte) (d acc : Z) (t : bytes) :
  digit_val c = Some d ->
  parse_digits_acc acc (c :: t) = parse_digits_acc (10 * acc + d) t.
Proof. intros H. cbn [parse_digits_acc]. rewrite H. reflexivity. Qed.

Ltac digit_step :=
  match goal with
  | |- parse_digits_acc _ (?c :: _) = _ =>
      let d := eval vm_compute in (digit_val c) in
      match d with
      | Some ?v => rewrite (parse_digits_acc_digit c v) by reflexivity
      end
  end.

Lemma parse_digits_acc_pos (u : Decimal.uint) (acc : positive) :
  parse_digits_acc (Z.pos acc) (bytes_of_uint u)
  = Some (Z.pos (Pos.of_uint_acc u acc)).
Proof.
  revert acc. induction u; intros acc; simpl bytes_of_uint;
    [reflexivity|..];
    digit_step;
    cbn [Pos.of_uint_acc];
    match goal with
    | |- parse_digits_acc ?z _ = Some (Z.pos (Pos.of_uint_acc _ ?q)) =>
        replace z with (Z.pos q) by lia
    end; apply IHu.
Qed.

Lemma parse_digits_acc_zero (u : Decimal.uint) :
  parse_digits_acc 0 (bytes_of_uint u) = Some (Z.of_N (Pos.of_uint u)).
Proof.
  induction u; simpl bytes_of_uint; [reflexivity|..];
    digit_step;
    cbn [Pos.of_uint];
    first [ exact IHu | apply parse_digits_acc_pos ].
Qed.

Lemma parse_digits_uint (u : Decimal.uint) :
  u <> Decimal.Nil ->
  parse_digits (bytes_of_uint u) = Some (Z.of_N (Pos.of_uint u)).
Proof.
  intros Hu. rewrite <- parse_digits_acc_zero.
  destruct u; [contradiction|..]; reflexivity.
Qed.

Lemma py_int_digits (u : Decimal.uint) :
  u <> Decimal.Nil ->
  py_int (bytes_of_uint u) = parse_digits (bytes_of_uint u).
Proof.
  intros Hu. unfold py_int.
  assert (Hsp : contains is_space (bytes_of_uint u) = false).
  { apply forallb_contains with (q := is_digit); [|apply bytes_of_uint_digits].
    intros c Hc. apply int_byte_not_space. unfold is_int_byte.
    rewrite Hc. reflexivity. }
  assert (Hl : lstrip is_space (bytes_of_uint u) = bytes_of_uint u).
  { destruct (bytes_of_uint u) as [|c t]; [reflexivity|].
    apply lstrip_head. simpl in Hsp. apply orb_false_iff in Hsp.
    exact (proj1 Hsp). }
  rewrite Hl, (rstrip_none _ _ Hsp).
  destruct u; [contradiction|..]; reflexivity.
Qed.

(** [int(b'%i' % n) == n] *)
Lemma py_int_format_int (n : Z) : py_int (format_int n) = Some n.
Proof.
  assert (Hz : Decimal.zero <> Decimal.Nil) by discriminate.
  pose proof (DecimalZ.of_to n) as Hn. unfold format_int.
  unfold Z.to_int in *. destruct n as [|p|p]; simpl in Hn.
  - reflexivity.
  - rewrite py_int_digits, parse_digits_uint
      by apply Unsigned.to_uint_nonnil.
    f_equal. exact Hn.
  - unfold py_int.
    assert (Hsp : contains is_space ("-"%byte :: bytes_of_uint (Pos.to_uint p))
                  = false).
    { apply forallb_contains with (q := is_int_byte).
      - apply int_byte_not_space.
      - simpl. apply forallb_forall. intros c Hc.
        pose proof (bytes_of_uint_digits (Pos.to_uint p)) as Hd.
        rewrite forallb_forall in Hd. unfold is_int_byte.
        rewrite (Hd c Hc). reflexivity. }
    rewrite lstrip_head by reflexivity.
    rewrite (rstrip_none _ _ Hsp).
    rewrite parse_digits_uint by apply Unsigned.to_uint_nonnil.
    simpl. f_equal. exact Hn.
Qed.

Lemma unhexlify_hexlify (data : bytes) : unhexlify (hexlify data) = Some data.
Proof.
  induction data as [|c t IH]; [reflexivity|].
  change (hexlify (c :: t)) with (hexlify [c] ++ hexlify t).
  assert (H : forall r, unhexlify (hexlify [c] ++ r)
                        = match unhexlify r with
                          | Some r' => Some (c :: r')
                          | None => None
                          end).
  { intros r. destruct c; reflexivity. }
  rewrite H, IH. reflexivity.
Qed.

Lemma hexlify_plain (data : bytes) :
  contains is_colon (hexlify data) = false
  /\ contains is_nl (hexlify data) = false.
Proof.
  induction data as [|c t [IHc IHn]]; [split; reflexivity|].
  change (hexlify (c :: t)) with (hexlify [c] ++ hexlify t).
  rewrite !contains_app, IHc, IHn.
  split; destruct c; reflexivity.
Qed.

(* ================================================================== *)
(** ** Running the monad *)

Ltac run :=
  unfold bind, ret, raise, gets, modify, print, emit, sys_exit, try_except;
  cbn.

Lemma dict_get_set_same (k : bytes) (v : entry) (d : dict) :
  dict_get k (dict_set k v d) = Some v.
Proof.
  induction d as [|[k' v'] d IH]; simpl.
  - rewrite bytes_eqb_refl. reflexivity.
  - destruct (bytes_eqb k k') eqn:E; simpl.
    + rewrite bytes_eqb_refl. reflexivity.
    + rewrite E. exact IH.
Qed.

Lemma hash_file_ok (p h : bytes) (s : state) :
  file_digest (fs s) p = Some h ->
  hash_file p s = (Ret h, set_log (log s ++ [EvOpenRead p]) s).
Proof.
  unfold file_digest, hash_file, open_read. run.
  destruct (fs_get p (fs s)) as [n|]; [|discriminate].
  destruct (n_data n); simpl; [|discriminate].
  intros H. injection H as <-. reflexivity.
Qed.

Lemma hash_file_fails (p : bytes) (s : state) :
  file_digest (fs s) p = None ->
  exists e, is_OSError e = true
            /\ hash_file p s = (Raise e, set_log (log s ++ [EvOpenRead p]) s).
Proof.
  unfold file_digest, hash_file, open_read. run.
  destruct (fs_get p (fs s)) as [n|].
  - destruct (n_data n); simpl; [discriminate|].
    intros _. exists OSError. split; reflexivity.
  - intros _. exists FileNotFoundError. split; reflexivity.
Qed.

Lemma print_names_ok (names : list bytes) (m : message) (s : state) :
  forallb stdout_encodes names = true ->
  print_names names m s = (Ret tt, set_log (log s ++ [EvPrint m]) s).
Proof. intros H. unfold print_names. rewrite H. reflexivity. Qed.

Lemma print_names_fails (names : list bytes) (m : message) (s : state) :
  forallb stdout_encodes names = false ->
  print_names names m s = (Raise UnicodeEncodeError, s).
Proof. intros H. unfold print_names. rewrite H. reflexivity. Qed.

Lemma print_name (name : bytes) (m : message) (s : state) :
  print_names [name] m s
  = if stdout_encodes name
    then (Ret tt, set_log (log s ++ [EvPrint m]) s)
    else (Raise UnicodeEncodeError, s).
Proof.
  unfold print_names. cbn [forallb]. rewrite andb_true_r.
  destruct (stdout_encodes name); reflexivity.
Qed.

(* ================================================================== *)
(** ** The scanner *)

(** C7, as the code has it: on a path whose canonical form holds a newline
    byte [scan_file] leaves the state as it found it: nothing is asked of
    the file system or of the cache, no job is put on the queue, and the
    path is not recorded.  It raises [ValueError] at once, except on the
    cache file's own path: that test comes first, and returns. *)
Theorem scan_file_newline_raises (path : bytes) (s : state) :
  contains is_nl (real_path path) = true ->
  snd (scan_file path s) = s
  /\ (real_path path <> cache_filename s ->
      scan_file path s = (Raise ValueError, s))
  /\ (real_path path = cache_filename s ->
      scan_file path s = (Ret tt, s)).
Proof.
  intros Hnl. unfold scan_file. run.
  destruct (bytes_eqb (real_path path) (cache_filename s)) eqn:Hown.
  - split; [reflexivity|]. split; [|reflexivity].
    intros Hne. apply bytes_eqb_eq in Hown. contradiction.
  - rewrite Hnl. split; [reflexivity|]. split; [reflexivity|].
    intros Heq. apply bytes_eqb_neq in Hown. contradiction.
Qed.


(* ================================================================== *)
(** ** The hash cache on disk *)

(** C9: with an empty in-memory cache [write_cache] returns at once and
    leaves the whole state as it was: no file is opened for writing, and a
    cache file left by an earlier run keeps its content. *)
Theorem write_cache_empty (s : state) :
  cache s = [] -> write_cache s = (Ret tt, s).
Proof.
  intros H. unfold write_cache. run. rewrite H. reflexivity.
Qed.

(* ================================================================== *)
(** ** The worker loop *)

(** C2, as the code has it: the first job whose file cannot be hashed ends
    the worker on the uncaught error.  The jobs before it were completed, the
    failing job's callback is not called, no warning is printed (only the
    files opened appear in the log), and what follows it stays in the queue. *)
Theorem run_jobs_stops_at_error (pre : list job) (f : bytes) (cb : callback)
        (rest : list (option job)) (s : state) :
  Forall (fun j => file_digest (fs s) (fst j) <> None) pre ->
  file_digest (fs s) f = None ->
  exists e s',
    run_jobs (map Some pre ++ Some (f, cb) :: rest) s = (Raise e, s')
    /\ is_OSError e = true
    /\ queue s' = rest
    /\ cache s' = completed (fs s) pre (cache s)
    /\ log s' = log s ++ map EvOpenRead (map fst pre ++ [f])
    /\ fs s' = fs s.
Proof.
  revert s. induction pre as [|[f0 cb0] pre IH]; intros s Hpre Hf.
  - destruct (hash_file_fails f (set_queue rest s) Hf) as (e & He & Hrun).
    exists e. eexists. cbn [map app run_jobs].
    unfold bind at 1. cbn [modify]. unfold bind at 1. rewrite Hrun.
    repeat split; auto.
  - inversion Hpre as [|? ? Hf0 Hpre']; subst. cbn [fst] in Hf0.
    destruct (file_digest (fs s) f0) as [h|] eqn:Hd; [|contradiction].
    cbn [map app run_jobs].
    unfold bind at 1. cbn [modify]. unfold bind at 1.
    rewrite (hash_file_ok f0 h) by exact Hd.
    unfold bind at 1. destruct cb0 as [p0 m0]. cbn [call modify].
    match goal with
    | |- context [run_jobs _ ?s1] =>
        destruct (IH s1) as (e & s' & Hrun & He & Hq & Hc & Hl & Hfs);
        [exact Hpre' | exact Hf |]
    end.
    exists e, s'. rewrite Hrun. cbn in Hc, Hl, Hfs.
    repeat split; auto.
    + rewrite Hc. cbn [completed]. rewrite Hd. reflexivity.
    + rewrite Hl. cbn [map app]. rewrite <- app_assoc. reflexivity.
Qed.

(* ================================================================== *)
(** ** The duplicate resolver *)

Lemma partition_content (directory : bytes) (items : dict)
      (content : list (bytes * bytes)) (byhash : groups) :
  fst (partition_cache directory items content byhash)
  = content ++ map (fun it => (fst it, snd (snd it)))
                   (filter (in_dir directory) items).
Proof.
  revert content byhash.
  induction items as [|[f [m c]] items IH]; intros content byhash; simpl.
  - rewrite app_nil_r. reflexivity.
  - unfold in_dir at 1. cbn [fst].
    destruct (bytes_eqb (dirname f) directory); rewrite IH.
    + rewrite <- app_assoc. reflexivity.
    + reflexivity.
Qed.

Lemma groups_get_append (k k' f : bytes) (g : groups) :
  groups_get k (groups_append k' f g)
  = if bytes_eqb k k' then groups_get k g ++ [f] else groups_get k g.
Proof.
  induction g as [|[k0 v] g IH]; simpl.
  - destruct (bytes_eqb k k'); reflexivity.
  - destruct (bytes_eqb k' k0) eqn:E0; simpl.
    + apply bytes_eqb_eq in E0. subst k0.
      destruct (bytes_eqb k k'); reflexivity.
    + destruct (bytes_eqb k k0) eqn:E1.
      * apply bytes_eqb_eq in E1. subst k0.
        rewrite bytes_eqb_sym, E0. reflexivity.
      * exact IH.
Qed.

(** The group of a checksum: the paths outside [directory] that carry it, in
    cache order. *)
Lemma partition_groups (directory k : bytes) (items : dict)
      (content : list (bytes * bytes)) (byhash : groups) :
  groups_get k (snd (partition_cache directory items content byhash))
  = groups_get k byhash
    ++ map fst (filter (fun it => negb (in_dir directory it)
                                  && bytes_eqb k (snd (snd it))) items).
Proof.
  revert content byhash.
  induction items as [|[f [m c]] items IH]; intros content byhash; simpl.
  - rewrite app_nil_r. reflexivity.
  - unfold in_dir at 1. cbn [fst snd].
    destruct (bytes_eqb (dirname f) directory); rewrite IH; cbn [negb andb].
    + reflexivity.
    + rewrite groups_get_append.
      destruct (bytes_eqb k c); [|reflexivity].
      rewrite <- app_assoc. reflexivity.
Qed.

Lemma same_app_refl s : same_app s s.
Proof. repeat split. Qed.

Lemma same_app_trans s1 s2 s3 :
  same_app s1 s2 -> same_app s2 s3 -> same_app s1 s3.
Proof.
  unfold same_app. intros (A1 & A2 & A3 & A4 & A5) (B1 & B2 & B3 & B4 & B5).
  repeat split; congruence.
Qed.

Lemma fs_remove_absent (p : bytes) (files : filesystem) :
  fs_get p files = None -> fs_remove p files = files.
Proof.
  induction files as [|[p' n] files IH]; simpl; [reflexivity|].
  destruct (bytes_eqb p p'); [discriminate|]. intros H. cbn.
  rewrite (IH H). reflexivity.
Qed.

Lemma fs_get_remove_other (p q : bytes) (files : filesystem) :
  p <> q -> fs_get p (fs_remove q files) = fs_get p files.
Proof.
  intros Hne. induction files as [|[p' n] files IH]; simpl; [reflexivity|].
  destruct (bytes_eqb q p') eqn:Eq; cbn.
  - apply bytes_eqb_eq in Eq. subst p'.
    apply bytes_eqb_neq in Hne. rewrite Hne. exact IH.
  - destruct (bytes_eqb p p'); [reflexivity | exact IH].
Qed.

Lemma dict_del_other (p q : bytes) (e : entry) (d d' : dict) :
  p <> q -> dict_del q d = Some d' -> In (p, e) d -> In (p, e) d'.
Proof.
  intros Hne. revert d'. induction d as [|[k v] d IH]; intros d' Hdel Hin;
    simpl in Hdel; [discriminate|].
  destruct (bytes_eqb q k) eqn:Eq.
  - injection Hdel as <-. apply bytes_eqb_eq in Eq. subst k.
    destruct Hin as [H|H]; [congruence | exact H].
  - destruct (dict_del q d) as [d0|]; [|discriminate].
    injection Hdel as <-. destruct Hin as [H|H]; [left; exact H|].
    right. apply (IH d0 eq_refl H).
Qed.

Lemma remove_loop_cons (remove : bool) (byhash : groups) (f c : bytes)
      (rest : list (bytes * bytes)) (n : nat) (s : state) :
  exists r1 s1,
    loop_step remove byhash f c s r1 s1
    /\ remove_loop remove byhash ((f, c) :: rest) n s
       = match r1 with
         | Ret _ => remove_loop remove byhash rest (counted byhash c n) s1
         | Raise e => (Raise e, s1)
         end.
Proof.
  cbn [remove_loop]. unfold counted.
  destruct (groups_get c byhash) as [|copy more] eqn:Hg.
  - exists (Ret tt), s. split; [|reflexivity]. now apply StepNoCopy.
  - unfold bind at 1. rewrite print_name.
    destruct (stdout_encodes copy) eqn:Hcopy.
    2:{ exists (Raise UnicodeEncodeError), s. split; [|reflexivity].
        eapply StepHidden; eauto. }
    unfold bind at 1.
    destruct (file_digest (fs s) copy) as [h|] eqn:Hd.
    + rewrite (hash_file_ok copy h) by exact Hd.
      destruct (bytes_eqb h c) eqn:Ehc; cbn [negb].
      * apply bytes_eqb_eq in Ehc. subst h. unfold bind at 1.
        destruct (forallb stdout_encodes (f :: copy :: more)) eqn:Hall.
        -- rewrite print_names_ok by exact Hall.
           destruct remove.
           ++ destruct (dict_del f (cache s)) as [c'|] eqn:Hdel.
              ** unfold del_cache, os_unlink. run. rewrite Hdel. cbn.
                 destruct (fs_get f (fs s)) eqn:Hget; cbn.
                 --- eexists (Ret tt), _. split; [|reflexivity].
                     eapply StepDelete; eauto; cbn.
                     +++ rewrite <- !app_assoc. reflexivity.
                     +++ repeat split.
                 --- eexists (Ret tt), _. split; [|reflexivity].
                     eapply StepDelete; eauto; cbn.
                     +++ rewrite <- !app_assoc. reflexivity.
                     +++ symmetry. apply fs_remove_absent. exact Hget.
                     +++ repeat split.
              ** unfold del_cache. run. rewrite Hdel. cbn.
                 eexists (Raise KeyError), _. split; [|reflexivity].
                 eapply StepNoKey; eauto. cbn. rewrite <- !app_assoc.
                 reflexivity.
           ++ run. eexists (Ret tt), _. split; [|reflexivity].
              eapply StepReport; eauto. cbn. rewrite <- !app_assoc.
              reflexivity.
        -- rewrite print_names_fails by exact Hall.
           eexists (Raise UnicodeEncodeError), _. split; [|reflexivity].
           eapply StepMute; eauto. cbn. rewrite <- !app_assoc.
           reflexivity.
      * apply bytes_eqb_neq in Ehc.
        unfold bind at 1. cbn [print emit modify].
        unfold bind at 1. rewrite print_name.
        destruct (stdout_encodes f) eqn:Hf.
        -- unfold bind at 1. rewrite print_name, Hcopy.
           eexists (Raise (SystemExit 1)), _. split; [|reflexivity].
           eapply StepStale; eauto. cbn. rewrite <- !app_assoc.
           reflexivity.
        -- eexists (Raise UnicodeEncodeError), _. split; [|reflexivity].
           eapply StepStaleHidden; eauto. cbn. rewrite <- !app_assoc.
           reflexivity.
    + destruct (hash_file_fails copy
                 (set_log (log s ++ [EvPrint (MsgCheckCopy copy)]) s) Hd)
        as (e & He & Hrun).
      rewrite Hrun. exists (Raise e). eexists. split; [|reflexivity].
      eapply StepUnreadable; eauto. cbn. rewrite <- !app_assoc.
      reflexivity.
Qed.

Lemma remove_loop_run (remove : bool) (byhash : groups)
      (content : list (bytes * bytes)) (n : nat) (s : state) :
  loop_run remove byhash content s
           (forget (fst (remove_loop remove byhash content n s)))
           (snd (remove_loop remove byhash content n s)).
Proof.
  revert n s. induction content as [|[f c] rest IH]; intros n s.
  - apply RunDone.
  - destruct (remove_loop_cons remove byhash f c rest n s)
      as (r1 & s1 & Hstep & Heq).
    rewrite Heq. destruct r1 as [[]|e].
    + eapply RunTurn; [exact Hstep | apply IH].
    + apply RunRaise. exact Hstep.
Qed.

Ltac in_cases :=
  repeat match goal with
         | H : In _ (_ :: _) |- _ => destruct H as [H|H]
         | H : In _ [] |- _ => destruct H
         end.

(** What one turn adds to the log. *)
Lemma loop_step_log remove byhash f c s r s' :
  loop_step remove byhash f c s r s' ->
  exists evs,
    log s' = log s ++ evs
    /\ (forall p, In (EvUnlink p) evs ->
                  p = f /\ remove = true /\ groups_get c byhash <> []
                  /\ r = Ret tt)
    /\ (forall p copies, In (EvPrint (MsgRemoveDuplicate p copies)) evs ->
                         p = f /\ groups_get c byhash = copies
                         /\ copies <> [])
    /\ (forall p, ~ In (EvOpenWrite p) evs)
    /\ (In (EvPrint MsgOutdatedCache) evs ->
        r = Raise (SystemExit 1) \/ r = Raise UnicodeEncodeError).
Proof.
  intros H. destruct H; subst;
    match goal with
    | H : log _ = log _ ++ ?l |- _ => exists l; split; [exact H|]
    | |- context [log (set_log (_ ++ ?l) _)] =>
        exists l; split; [reflexivity|]
    | |- _ => exists []; split; [symmetry; apply app_nil_r|]
    end;
    repeat split; unfold not; intros; in_cases; try discriminate;
    repeat match goal with
           | H : _ = _ :> event |- _ => inversion H; clear H
           end; subst; auto; congruence.
Qed.

Lemma loop_step_frame remove byhash f c s r s' :
  loop_step remove byhash f c s r s' ->
  same_app s s'
  /\ (remove = false -> fs s' = fs s /\ cache s' = cache s)
  /\ (groups_get c byhash = [] -> fs s' = fs s /\ cache s' = cache s)
  /\ (forall e, r = Raise e -> fs s' = fs s /\ cache s' = cache s)
  /\ (forall p, p <> f ->
                fs_get p (fs s') = fs_get p (fs s)
                /\ forall e, In (p, e) (cache s) -> In (p, e) (cache s')).
Proof.
  intros H. destruct H; subst; cbn;
    try (repeat split; auto; congruence).
  match goal with
  | Hs : same_app _ _, Hf : fs _ = _ |- _ =>
      split; [exact Hs|]; rewrite Hf
  end.
  repeat split; try congruence.
  - apply fs_get_remove_other. assumption.
  - intros e He. eapply dict_del_other; eauto.
Qed.

Lemma loop_run_log remove byhash content s r s' :
  loop_run remove byhash content s r s' ->
  exists evs,
    log s' = log s ++ evs
    /\ (forall p, In (EvUnlink p) evs ->
                  remove = true
                  /\ exists c, In (p, c) content
                               /\ groups_get c byhash <> [])
    /\ (forall p copies, In (EvPrint (MsgRemoveDuplicate p copies)) evs ->
                         exists c, In (p, c) content
                                   /\ groups_get c byhash = copies
                                   /\ copies <> [])
    /\ (forall p, ~ In (EvOpenWrite p) evs)
    /\ (In (EvPrint MsgOutdatedCache) evs ->
        r = Raise (SystemExit 1) \/ r = Raise UnicodeEncodeError).
Proof.
  induction 1 as [s | f c rest s s1 r s' Hstep Hrun IH | f c rest s e s' Hstep].
  - exists []. rewrite app_nil_r. repeat split; intros; in_cases.
    intros [].
  - destruct (loop_step_log _ _ _ _ _ _ _ Hstep)
      as (e1 & Hl1 & Hu1 & Hm1 & Hw1 & Ho1).
    destruct IH as (e2 & Hl2 & Hu2 & Hm2 & Hw2 & Ho2).
    exists (e1 ++ e2). rewrite Hl2, Hl1, app_assoc.
    split; [reflexivity|]. repeat split.
    + apply in_app_or in H. destruct H as [H|H].
      * apply Hu1 in H. apply H.
      * apply Hu2 in H. apply H.
    + apply in_app_or in H. destruct H as [H|H].
      * apply Hu1 in H. destruct H as (-> & _ & Hg & _).
        exists c. split; [left; reflexivity | exact Hg].
      * apply Hu2 in H. destruct H as (_ & c' & Hin & Hg).
        exists c'. split; [right; exact Hin | exact Hg].
    + intros p copies H. apply in_app_or in H. destruct H as [H|H].
      * apply Hm1 in H. destruct H as (-> & Hg & Hne).
        exists c. split; [left; reflexivity | auto].
      * apply Hm2 in H. destruct H as (c' & Hin & Hg).
        exists c'. split; [right; exact Hin | exact Hg].
    + intros p H. apply in_app_or in H. destruct H as [H|H].
      * exact (Hw1 p H).
      * exact (Hw2 p H).
    + intros H. apply in_app_or in H. destruct H as [H|H].
      * apply Ho1 in H. destruct H as [H|H]; discriminate H.
      * exact (Ho2 H).
  - destruct (loop_step_log _ _ _ _ _ _ _ Hstep)
      as (e1 & Hl1 & Hu1 & Hm1 & Hw1 & Ho1).
    exists e1. split; [exact Hl1|]. repeat split.
    + apply Hu1 in H. apply H.
    + apply Hu1 in H. destruct H as (_ & _ & _ & H). discriminate H.
    + intros p copies H. apply Hm1 in H. destruct H as (-> & Hg & Hne).
      exists c. split; [left; reflexivity | auto].
    + exact Hw1.
    + exact Ho1.
Qed.

Lemma loop_run_frame remove byhash content s r s' :
  loop_run remove byhash content s r s' ->
  same_app s s'
  /\ (remove = false -> fs s' = fs s /\ cache s' = cache s)
  /\ (forall p,
         (forall c, In (p, c) content -> groups_get c byhash = []) ->
         fs_get p (fs s') = fs_get p (fs s)
         /\ forall e, In (p, e) (cache s) -> In (p, e) (cache s')).
Proof.
  induction 1 as [s | f c rest s s1 r s' Hstep Hrun IH | f c rest s e s' Hstep].
  - split; [apply same_app_refl|]. auto.
  - destruct (loop_step_frame _ _ _ _ _ _ _ Hstep)
      as (Hs1 & Hd1 & Hg1 & _ & Hp1).
    destruct IH as (Hs2 & Hd2 & Hp2).
    split; [eapply same_app_trans; eauto|]. split.
    + intros Hr. destruct (Hd1 Hr), (Hd2 Hr). split; congruence.
    + intros p Hp.
      assert (Hp' : forall c0, In (p, c0) rest -> groups_get c0 byhash = [])
        by (intros c0 Hin; apply Hp; right; exact Hin).
      destruct (Hp2 p Hp') as (Hf2 & Hc2).
      destruct (bytes_eqb p f) eqn:E.
      * apply bytes_eqb_eq in E. subst p.
        destruct (Hg1 (Hp c (or_introl eq_refl))) as (Hf1 & Hc1).
        split; [congruence|]. intros e He. apply Hc2. rewrite Hc1. exact He.
      * apply bytes_eqb_neq in E. destruct (Hp1 p E) as (Hf1 & Hc1).
        split; [congruence|]. intros e He. apply Hc2, Hc1, He.
  - destruct (loop_step_frame _ _ _ _ _ _ _ Hstep)
      as (Hs1 & _ & _ & He1 & _).
    destruct (He1 e eq_refl) as (Hf & Hc).
    split; [exact Hs1|]. split; [auto|].
    intros p _. rewrite Hf, Hc. auto.
Qed.

Lemma remove_dir_run (remove : bool) (directory : bytes) (s : state) :
  let d := real_path directory in
  let content := fst (partition_cache d (cache s) [] []) in
  let byhash := snd (partition_cache d (cache s) [] []) in
  exists r1 s1 tail,
    loop_run remove byhash content s r1 s1
    /\ (fst (remove_dir remove directory s) = r1
        \/ (r1 = Ret tt
            /\ fst (remove_dir remove directory s)
               = Raise UnicodeEncodeError))
    /\ log (snd (remove_dir remove directory s)) = log s1 ++ tail
    /\ fs (snd (remove_dir remove directory s)) = fs s1
    /\ cache (snd (remove_dir remove directory s)) = cache s1
    /\ same_app s1 (snd (remove_dir remove directory s))
    /\ Forall closing_event tail
    /\ (forall e, r1 = Raise e -> tail = []).
Proof.
  intros d content byhash.
  pose proof (remove_loop_run remove byhash content 0 s) as Hrun.
  subst content byhash.
  destruct (remove_dir remove directory s) as [r s'] eqn:Hrd.
  cbn [fst snd].
  unfold remove_dir in Hrd. fold d in Hrd.
  unfold bind at 1 in Hrd. cbn [gets] in Hrd.
  destruct (partition_cache d (cache s) [] []) as [ct bh].
  cbn [fst snd] in Hrun.
  unfold bind at 1 in Hrd.
  destruct (remove_loop remove bh ct 0 s) as [[n|e] s1];
    cbn [fst snd forget] in Hrun.
  - exists (Ret tt), s1.
    unfold os_rmdir, print_names, bind, ret, raise, gets, modify, print,
      emit, try_except in Hrd.
    destruct n, remove; cbn in Hrd;
      try destruct (rmdir_ok (fs s1) d); cbn in Hrd;
      try destruct (stdout_encodes d); cbn in Hrd;
      injection Hrd as <- <-; cbn;
      eexists; (split; [exact Hrun|]); rewrite <- ?app_assoc;
      (split; [first [left; reflexivity | right; split; reflexivity]|]);
      repeat split; try reflexivity; try discriminate;
      repeat constructor.
  - injection Hrd as <- <-. exists (Raise e), s1, [].
    rewrite app_nil_r. repeat split; auto.
Qed.

Lemma content_in (d p c : bytes) (items : dict) :
  In (p, c) (fst (partition_cache d items [] [])) ->
  dirname p = d /\ exists m, In (p, (m, c)) items.
Proof.
  rewrite partition_content. cbn [app]. intros H.
  apply in_map_iff in H. destruct H as ([f [m c']] & Heq & Hin).
  cbn in Heq. injection Heq as -> ->.
  apply filter_In in Hin. destruct Hin as (Hin & Hd).
  unfold in_dir in Hd. cbn in Hd. apply bytes_eqb_eq in Hd.
  split; [exact Hd | exists m; exact Hin].
Qed.

Lemma groups_in (d k g : bytes) (items : dict) :
  In g (groups_get k (snd (partition_cache d items [] []))) ->
  dirname g <> d /\ exists m, In (g, (m, k)) items.
Proof.
  rewrite partition_groups. cbn [groups_get app]. intros H.
  apply in_map_iff in H. destruct H as ([f [m c']] & Heq & Hin).
  cbn in Heq. subst f.
  apply filter_In in Hin. destruct Hin as (Hin & Hd).
  apply andb_true_iff in Hd. destruct Hd as (Hd & Hk).
  unfold in_dir in Hd. cbn in Hd, Hk.
  apply negb_true_iff, bytes_eqb_neq in Hd.
  apply bytes_eqb_eq in Hk. subst c'.
  split; [exact Hd | exists m; exact Hin].
Qed.

Lemma groups_empty (d k : bytes) (items : dict) :
  (forall g m, In (g, (m, k)) items -> dirname g = d) ->
  groups_get k (snd (partition_cache d items [] [])) = [].
Proof.
  intros H.
  destruct (groups_get k (snd (partition_cache d items [] [])))
    as [|g more] eqn:E; [reflexivity|].
  destruct (groups_in d k g items) as (Hne & m & Hin).
  - rewrite E. left. reflexivity.
  - exfalso. apply Hne. eapply H. exact Hin.
Qed.

Lemma dict_wf_unique (d : dict) (k : bytes) (v v' : entry) :
  dict_wf d -> In (k, v) d -> In (k, v') d -> v = v'.
Proof.
  unfold dict_wf. induction d as [|[k0 v0] d IH]; intros Hwf H1 H2;
    [destruct H1|].
  cbn in Hwf. inversion Hwf as [|? ? Hnotin Hwf']; subst.
  destruct H1 as [H1|H1], H2 as [H2|H2].
  - congruence.
  - injection H1 as -> ->. exfalso. apply Hnotin.
    apply in_map_iff. exists (k, v'). split; [reflexivity | exact H2].
  - injection H2 as -> ->. exfalso. apply Hnotin.
    apply in_map_iff. exists (k, v). split; [reflexivity | exact H1].
  - apply IH; assumption.
Qed.

Lemma closing_not_unlink (tail : list event) (p : bytes) :
  Forall closing_event tail -> ~ In (EvUnlink p) tail.
Proof.
  intros H Hin. rewrite Forall_forall in H. exact (H _ Hin).
Qed.

Lemma closing_not_report (tail : list event) (p : bytes) (l : list bytes) :
  Forall closing_event tail -> ~ In (EvPrint (MsgRemoveDuplicate p l)) tail.
Proof.
  intros H Hin. rewrite Forall_forall in H. exact (H _ Hin).
Qed.

(** C8: whatever the cache holds, every path [remove_dir] passes to
    [os.unlink] is the key of a cache entry whose [dirname] is the canonical
    target directory. *)
Theorem remove_dir_unlinks_inside_target (remove : bool) (directory : bytes)
        (s : state) :
  exists evs,
    log (snd (remove_dir remove directory s)) = log s ++ evs
    /\ forall p, In (EvUnlink p) evs ->
                 dirname p = real_path directory
                 /\ exists e, In (p, e) (cache s).
Proof.
  destruct (remove_dir_run remove directory s)
    as (r1 & s1 & tail & Hrun & _ & Hl & _ & _ & _ & Htail & _).
  destruct (loop_run_log _ _ _ _ _ _ Hrun) as (evs & Hl1 & Hu & _).
  exists (evs ++ tail). split.
  - rewrite Hl, Hl1, app_assoc. reflexivity.
  - intros p Hin. apply in_app_or in Hin. destruct Hin as [Hin|Hin].
    + destruct (Hu p Hin) as (_ & c & Hc & _).
      apply content_in in Hc. destruct Hc as (Hd & m & Hm).
      split; [exact Hd | exists (m, c); exact Hm].
    + exfalso. exact (closing_not_unlink tail p Htail Hin).
Qed.

(** C10: the groups hold paths outside the target directory only; so a file
    directly inside the target directory whose checksum is carried by
    target-directory entries only has an empty group, and [remove_dir], in
    either mode and however the run ends, neither reports nor unlinks it and
    keeps its cache entry. *)
Theorem target_only_copies_untouched (remove : bool) (directory : bytes)
        (s : state) (f : bytes) (mtime : Z) (checksum : bytes) :
  let d := real_path directory in
  let byhash := snd (partition_cache d (cache s) [] []) in
  let s' := snd (remove_dir remove directory s) in
  dict_wf (cache s) ->
  In (f, (mtime, checksum)) (cache s) ->
  dirname f = d ->
  (forall g m, In (g, (m, checksum)) (cache s) -> dirname g = d) ->
  (forall k g, In g (groups_get k byhash) -> dirname g <> d)
  /\ groups_get checksum byhash = []
  /\ exists evs,
      log s' = log s ++ evs
      /\ ~ In (EvUnlink f) evs
      /\ (forall copies, ~ In (EvPrint (MsgRemoveDuplicate f copies)) evs)
      /\ In (f, (mtime, checksum)) (cache s')
      /\ fs_get f (fs s') = fs_get f (fs s).
Proof.
  intros d byhash s' Hwf Hin Hdir Honly.
  assert (Hempty : groups_get checksum byhash = [])
    by (apply groups_empty; exact Honly).
  split; [intros k g Hg; apply (groups_in d k g (cache s) Hg)|].
  split; [exact Hempty|].
  destruct (remove_dir_run remove directory s)
    as (r1 & s1 & tail & Hrun & _ & Hl & Hfs & Hc & _ & Htail & _).
  fold d in Hrun. fold byhash in Hrun. fold s' in Hl, Hfs, Hc.
  assert (Hf : forall c, In (f, c) (fst (partition_cache d (cache s) [] []))
                         -> groups_get c byhash = []).
  { intros c Hc'. apply content_in in Hc'. destruct Hc' as (_ & m & Hm).
    pose proof (dict_wf_unique _ _ _ _ Hwf Hin Hm) as E.
    injection E as _ <-. exact Hempty. }
  destruct (loop_run_log _ _ _ _ _ _ Hrun) as (evs & Hl1 & Hu & Hm & _).
  destruct (loop_run_frame _ _ _ _ _ _ Hrun) as (_ & _ & Hframe).
  destruct (Hframe f Hf) as (Hfs1 & Hc1).
  exists (evs ++ tail). repeat split.
  - rewrite Hl, Hl1, app_assoc. reflexivity.
  - intros H. apply in_app_or in H. destruct H as [H|H].
    + destruct (Hu f H) as (_ & c & Hc' & Hne). apply Hne, Hf, Hc'.
    + exact (closing_not_unlink tail f Htail H).
  - intros copies H. apply in_app_or in H. destruct H as [H|H].
    + destruct (Hm f copies H) as (c & Hc' & Hg & Hne).
      apply Hne. rewrite <- Hg. apply Hf, Hc'.
    + exact (closing_not_report tail f copies Htail H).
  - rewrite Hc. apply Hc1, Hin.
  - rewrite Hfs. exact Hfs1.
Qed.

Lemma NoDup_map_filter {A B} (g : A -> B) (p : A -> bool) (l : list A) :
  NoDup (map g l) -> NoDup (map g (filter p l)).
Proof.
  induction l as [|x l IH]; cbn; intros H; [constructor|].
  inversion H as [|? ? Hx Hl]; subst.
  destruct (p x); cbn; [|apply IH; exact Hl].
  constructor; [|apply IH; exact Hl].
  intros Hin. apply Hx. apply in_map_iff in Hin.
  destruct Hin as (y & Hy & Hin). apply filter_In in Hin.
  apply in_map_iff. exists y. split; [exact Hy | apply Hin].
Qed.

Lemma content_NoDup (d : bytes) (items : dict) :
  dict_wf items -> NoDup (map fst (fst (partition_cache d items [] []))).
Proof.
  intros Hwf. rewrite partition_content. cbn [app].
  rewrite map_map. cbn [fst]. apply NoDup_map_filter. exact Hwf.
Qed.



(* ================================================================== *)
(** ** What a computation adds to the log *)

Lemma adds_ret {A} P (a : A) : adds P (ret a).
Proof. intros s. exists []. cbn. rewrite app_nil_r. auto. Qed.

Lemma adds_raise {A} P (e : exn) : adds P (@raise A e).
Proof. intros s. exists []. cbn. rewrite app_nil_r. auto. Qed.

Lemma adds_gets {A} P (f : state -> A) : adds P (gets f).
Proof. intros s. exists []. cbn. rewrite app_nil_r. auto. Qed.

Lemma adds_modify P (f : state -> state) :
  (forall s, log (f s) = log s) -> adds P (modify f).
Proof. intros H s. exists []. cbn. rewrite H, app_nil_r. auto. Qed.

Lemma adds_emit (P : event -> Prop) (e : event) : P e -> adds P (emit e).
Proof. intros H s. exists [e]. cbn. auto. Qed.

Lemma adds_print_names (P : event -> Prop) names m :
  P (EvPrint m) -> adds P (print_names names m).
Proof.
  intros H. unfold print_names.
  destruct (forallb _ _); [apply adds_emit; exact H | apply adds_raise].
Qed.

Lemma adds_print_repr (P : event -> Prop) answer m :
  P (EvPrint m) -> adds P (print_repr answer m).
Proof.
  intros H. unfold print_repr.
  destruct (stdout_encodes_repr _);
    [apply adds_emit; exact H | apply adds_raise].
Qed.

Lemma adds_bind {A B} P (m : M A) (k : A -> M B) :
  adds P m -> (forall a, adds P (k a)) -> adds P (bind m k).
Proof.
  intros Hm Hk s. unfold bind. destruct (Hm s) as (e1 & Hl1 & HP1).
  destruct (m s) as [[a|e] s1]; cbn [snd] in Hl1.
  - destruct (Hk a s1) as (e2 & Hl2 & HP2).
    exists (e1 ++ e2). rewrite Hl2, Hl1, app_assoc. split; [reflexivity|].
    apply Forall_app. auto.
  - exists e1. auto.
Qed.

Lemma adds_try_except {A} P (body handler : M A) (handles : exn -> bool) :
  adds P body -> adds P handler -> adds P (try_except body handles handler).
Proof.
  intros Hb Hh s. unfold try_except. destruct (Hb s) as (e1 & Hl1 & HP1).
  destruct (body s) as [[a|e] s1]; cbn [snd] in Hl1.
  - exists e1. auto.
  - destruct (handles e); [|exists e1; auto].
    destruct (Hh s1) as (e2 & Hl2 & HP2).
    exists (e1 ++ e2). rewrite Hl2, Hl1, app_assoc. split; [reflexivity|].
    apply Forall_app. auto.
Qed.

Lemma adds_try_finally {A} P (body : M A) (final : M unit) :
  adds P body -> adds P final -> adds P (try_finally body final).
Proof.
  intros Hb Hf s. unfold try_finally. destruct (Hb s) as (e1 & Hl1 & HP1).
  destruct (body s) as [r s1]; cbn [snd] in Hl1.
  destruct (Hf s1) as (e2 & Hl2 & HP2).
  exists (e1 ++ e2).
  destruct (final s1) as [[[]|e] s2]; cbn [snd] in *;
    rewrite Hl2, Hl1, app_assoc; (split; [reflexivity|]);
    apply Forall_app; auto.
Qed.

Lemma adds_for_each {A} P (l : list A) (body : A -> M unit) :
  (forall x, adds P (body x)) -> adds P (for_each l body).
Proof.
  intros H. induction l as [|x l IH]; cbn [for_each].
  - apply adds_ret.
  - apply adds_bind; [apply H | intros _; exact IH].
Qed.

Ltac adds_step :=
  match goal with
  | |- adds _ (bind _ _) => apply adds_bind; [|intros]
  | |- adds _ (ret _) => apply adds_ret
  | |- adds _ (raise _) => apply adds_raise
  | |- adds _ (sys_exit _) => apply adds_raise
  | |- adds _ (gets _) => apply adds_gets
  | |- adds _ cache_now => apply adds_gets
  | |- adds _ (modify _) => apply adds_modify; intros; reflexivity
  | |- adds _ (print _) =>
      apply adds_emit; first [exact I | cbv beta; discriminate]
  | |- adds _ (emit _) =>
      apply adds_emit; first [exact I | cbv beta; discriminate]
  | |- adds _ (print_names _ _) =>
      apply adds_print_names; first [exact I | cbv beta; discriminate]
  | |- adds _ (print_repr _ _) =>
      apply adds_print_repr; first [exact I | cbv beta; discriminate]
  | |- adds _ (try_except _ _ _) => apply adds_try_except
  | |- adds _ (try_finally _ _) => apply adds_try_finally
  | |- adds _ (for_each _ _) => apply adds_for_each; intros
  | |- adds _ (match ?x with _ => _ end) => destruct x
  end.

Lemma open_read_benign p : adds benign (open_read p).
Proof. unfold open_read. repeat adds_step. Qed.

Lemma hash_file_benign p : adds benign (hash_file p).
Proof.
  unfold hash_file. apply adds_bind; [apply open_read_benign|].
  intros; apply adds_ret.
Qed.

Lemma remove_cache_benign : adds benign remove_cache.
Proof. unfold remove_cache, os_unlink. repeat adds_step. Qed.

Lemma ask_benign keys : adds benign (ask keys).
Proof.
  induction keys as [|k keys IH]; cbn [ask].
  - repeat adds_step.
  - apply adds_bind; [repeat adds_step|]. intros _.
    destruct k as [answer|]; [|repeat adds_step].
    apply adds_bind; [repeat adds_step|]. intros _. cbv zeta.
    destruct (_ || _).
    + apply adds_bind; [apply remove_cache_benign|]. intros.
      repeat adds_step.
    + destruct (_ || _); [repeat adds_step|].
      destruct (strip is_str_space (lower answer));
        [repeat adds_step|].
      apply adds_bind; [repeat adds_step | intros _; exact IH].
Qed.

Lemma check_cache_age_benign ts : adds benign (check_cache_age ts).
Proof.
  unfold check_cache_age. apply adds_bind; [repeat adds_step|]. intros now.
  cbv zeta. destruct (_ || _); [repeat adds_step|].
  destruct (_ <? _); [repeat adds_step|].
  apply adds_bind; [repeat adds_step|]. intros _.
  apply adds_bind; [repeat adds_step|]. intros keys. apply ask_benign.
Qed.

Lemma read_cache_line_benign line : adds benign (read_cache_line line).
Proof. unfold read_cache_line. cbv zeta. repeat adds_step. Qed.

Lemma read_cache_benign : adds benign read_cache.
Proof.
  unfold read_cache. apply adds_bind; [repeat adds_step|]. intros filename.
  apply adds_bind.
  { apply adds_try_except; [|repeat adds_step].
    apply adds_bind; [apply open_read_benign | intros; apply adds_ret]. }
  intros [data|]; [|repeat adds_step].
  destruct (readline data) as [header data1].
  destruct (negb _); [repeat adds_step|].
  destruct (readline data1) as [line data2]. cbv zeta.
  destruct (py_int _) as [ts|]; [|repeat adds_step].
  apply adds_bind; [apply check_cache_age_benign|]. intros [|].
  - repeat adds_step.
  - apply adds_bind.
    + apply adds_for_each. intros. apply read_cache_line_benign.
    + intros. repeat adds_step.
Qed.

Lemma start_threads_benign : adds benign start_threads.
Proof. unfold start_threads. cbv zeta. repeat adds_step. Qed.

Lemma run_jobs_benign q : adds benign (run_jobs q).
Proof.
  induction q as [|[[f cb]|] q IH]; cbn [run_jobs].
  - repeat adds_step.
  - apply adds_bind; [repeat adds_step|]. intros _.
    apply adds_bind; [apply hash_file_benign|]. intros h.
    apply adds_bind; [|intros _; exact IH].
    destruct cb. cbn [call]. repeat adds_step.
  - repeat adds_step.
Qed.

Lemma join_threads_benign n : adds benign (join_threads n).
Proof.
  induction n as [|n IH]; cbn [join_threads]; [apply adds_ret|].
  intros s.
  assert (Hw : adds benign HashThread_run).
  { unfold HashThread_run. apply adds_bind; [repeat adds_step|].
    intros q. apply run_jobs_benign. }
  destruct (Hw s) as (e1 & Hl1 & HP1).
  destruct (HashThread_run s) as [[w|e] s1]; cbn [snd] in Hl1.
  - destruct (IH s1) as (e2 & Hl2 & HP2).
    exists (e1 ++ e2). rewrite Hl2, Hl1, app_assoc. split; [reflexivity|].
    apply Forall_app. auto.
  - assert (Hk : adds benign (print (MsgThreadException e) ;; join_threads n)).
    { apply adds_bind; [repeat adds_step | intros _; exact IH]. }
    destruct (Hk s1) as (e2 & Hl2 & HP2).
    exists (e1 ++ e2). rewrite Hl2, Hl1, app_assoc. split; [reflexivity|].
    apply Forall_app. auto.
Qed.

Lemma queue_put_benign j : adds benign (queue_put j).
Proof. unfold queue_put. repeat adds_step. Qed.

Lemma stop_threads_benign : adds benign stop_threads.
Proof.
  unfold stop_threads. apply adds_bind; [repeat adds_step|]. intros n.
  apply adds_bind; [|intros _; apply join_threads_benign].
  apply adds_for_each. intros _. apply queue_put_benign.
Qed.

Lemma benign_not_outdated (evs : list event) :
  Forall benign evs -> ~ In (EvPrint MsgOutdatedCache) evs.
Proof. intros H Hin. rewrite Forall_forall in H. exact (H _ Hin). Qed.

Lemma benign_not_write (evs : list event) (p : bytes) :
  Forall benign evs -> ~ In (EvOpenWrite p) evs.
Proof. intros H Hin. rewrite Forall_forall in H. exact (H _ Hin). Qed.

Lemma write_cache_not_outdated :
  adds (fun ev => ev <> EvPrint MsgOutdatedCache) write_cache.
Proof. unfold write_cache, write_file. repeat adds_step. Qed.

Lemma join_threads_returns n s : fst (join_threads n s) = Ret tt.
Proof.
  revert s. induction n as [|n IH]; intros s; cbn [join_threads];
    [reflexivity|].
  destruct (HashThread_run s) as [[w|e] s1]; [apply IH|].
  unfold bind, print, emit, modify. apply IH.
Qed.

Lemma stop_threads_returns s : fst (stop_threads s) = Ret tt.
Proof.
  unfold stop_threads. unfold bind at 1. cbn [gets].
  assert (H : forall l s0, fst (for_each l (fun _ : unit => queue_put None) s0)
                           = Ret tt).
  { induction l as [|x l IH]; intros s0; [reflexivity|].
    cbn [for_each]. unfold bind at 1, queue_put. run. apply IH. }
  unfold bind. specialize (H (repeat tt (threads s)) s).
  destruct (for_each _ _ s) as [[[]|e] s1]; cbn in H; [|discriminate H].
  apply join_threads_returns.
Qed.

(** What a turn changes in the file system. *)
Lemma loop_step_tracked remove byhash f c s r s' :
  loop_step remove byhash f c s r s' ->
  forall evs, log s' = log s ++ evs ->
  forall p, ~ In (EvUnlink p) evs -> fs_get p (fs s') = fs_get p (fs s).
Proof.
  intros H. destruct H; subst; intros evs Hl p Hp; cbn; try reflexivity.
  match goal with
  | Hf : fs _ = _ |- _ => rewrite Hf
  end.
  apply fs_get_remove_other. intros ->. apply Hp.
  match goal with
  | Hlog : log _ = log s ++ (?x :: ?l) |- _ =>
      assert (E : evs = x :: l) by (apply (app_inv_head (log s)); congruence)
  end.
  rewrite E. do 3 right. left. reflexivity.
Qed.

Lemma loop_run_tracked remove byhash content s r s' :
  loop_run remove byhash content s r s' ->
  forall evs, log s' = log s ++ evs ->
  forall p, ~ In (EvUnlink p) evs -> fs_get p (fs s') = fs_get p (fs s).
Proof.
  induction 1 as [s | f c rest s s1 r s' Hstep Hrun IH | f c rest s e s' Hstep];
    intros evs Hl p Hp.
  - reflexivity.
  - destruct (loop_step_log _ _ _ _ _ _ _ Hstep) as (e1 & Hl1 & _).
    destruct (loop_run_log _ _ _ _ _ _ Hrun) as (e2 & Hl2 & _).
    assert (E : evs = e1 ++ e2).
    { apply (app_inv_head (log s)). rewrite <- Hl, Hl2, Hl1, app_assoc.
      reflexivity. }
    subst evs.
    rewrite (IH e2 Hl2 p)
      by (intros Hx; apply Hp; apply in_or_app; right; exact Hx).
    apply (loop_step_tracked _ _ _ _ _ _ _ Hstep e1 Hl1).
    intros Hx. apply Hp. apply in_or_app. left. exact Hx.
  - apply (loop_step_tracked _ _ _ _ _ _ _ Hstep evs Hl p Hp).
Qed.

Lemma remove_dir_log (remove : bool) (directory : bytes) (s : state) :
  exists evs,
    log (snd (remove_dir remove directory s)) = log s ++ evs
    /\ (forall p, ~ In (EvOpenWrite p) evs)
    /\ (In (EvPrint MsgOutdatedCache) evs ->
        fst (remove_dir remove directory s) = Raise (SystemExit 1)
        \/ fst (remove_dir remove directory s) = Raise UnicodeEncodeError)
    /\ same_app s (snd (remove_dir remove directory s))
    /\ (forall p, ~ In (EvUnlink p) evs ->
                  fs_get p (fs (snd (remove_dir remove directory s)))
                  = fs_get p (fs s)).
Proof.
  destruct (remove_dir_run remove directory s)
    as (r1 & s1 & tail & Hrun & Hr & Hl & Hfs & _ & Hsame & Htail & _).
  destruct (loop_run_log _ _ _ _ _ _ Hrun) as (evs & Hl1 & _ & _ & Hw & Ho).
  destruct (loop_run_frame _ _ _ _ _ _ Hrun) as (Hsame1 & _).
  exists (evs ++ tail). rewrite Hl, Hl1, app_assoc.
  split; [reflexivity|]. rewrite Forall_forall in Htail.
  split; [|split; [|split]].
  - intros p Hin. apply in_app_or in Hin. destruct Hin as [Hin|Hin].
    + exact (Hw p Hin).
    + exact (Htail _ Hin).
  - intros Hin. apply in_app_or in Hin.
    destruct Hin as [Hin|Hin]; [|destruct (Htail _ Hin)].
    destruct Hr as [Hr|(Hr & _)].
    + rewrite Hr. exact (Ho Hin).
    + destruct (Ho Hin) as [E|E]; rewrite E in Hr; discriminate Hr.
  - eapply same_app_trans; eauto.
  - intros p Hp. rewrite Hfs.
    apply (loop_run_tracked _ _ _ _ _ _ Hrun evs Hl1).
    intros Hx. apply Hp. apply in_or_app. left. exact Hx.
Qed.

(* ------------------------------------------------------------------ *)
(** *** The files a computation leaves alone *)

Lemma tracked_ret {A} (a : A) : tracked (ret a).
Proof. intros s. exists []. cbn. rewrite app_nil_r. auto. Qed.

Lemma tracked_raise {A} (e : exn) : tracked (@raise A e).
Proof. intros s. exists []. cbn. rewrite app_nil_r. auto. Qed.

Lemma tracked_gets {A} (f : state -> A) : tracked (gets f).
Proof. intros s. exists []. cbn. rewrite app_nil_r. auto. Qed.

Lemma tracked_modify (f : state -> state) :
  (forall s, log (f s) = log s /\ cache_filename (f s) = cache_filename s
             /\ fs (f s) = fs s) ->
  tracked (modify f).
Proof.
  intros H s. exists []. cbn. destruct (H s) as (-> & -> & ->).
  rewrite app_nil_r. auto.
Qed.

Lemma tracked_emit (e : event) : tracked (emit e).
Proof. intros s. exists [e]. cbn. auto. Qed.

Lemma tracked_print_repr answer m : tracked (print_repr answer m).
Proof.
  unfold print_repr.
  destruct (stdout_encodes_repr _); [apply tracked_emit | apply tracked_raise].
Qed.

Lemma tracked_bind {A B} (m : M A) (k : A -> M B) :
  tracked m -> (forall a, tracked (k a)) -> tracked (bind m k).
Proof.
  intros Hm Hk s. unfold bind. destruct (Hm s) as (e1 & Hl1 & Hc1 & Hf1).
  destruct (m s) as [[a|e] s1]; cbn [snd] in Hl1, Hc1, Hf1.
  - destruct (Hk a s1) as (e2 & Hl2 & Hc2 & Hf2).
    exists (e1 ++ e2). rewrite Hl2, Hl1, app_assoc, Hc2, Hc1.
    split; [reflexivity|]. split; [reflexivity|].
    intros p Hp. rewrite Hf2, Hf1; [reflexivity | |];
      intros Hx; apply Hp; apply in_or_app; auto.
  - exists e1. auto.
Qed.

Lemma tracked_try_except {A} (body handler : M A) (handles : exn -> bool) :
  tracked body -> tracked handler ->
  tracked (try_except body handles handler).
Proof.
  intros Hb Hh s. unfold try_except.
  destruct (Hb s) as (e1 & Hl1 & Hc1 & Hf1).
  destruct (body s) as [[a|e] s1]; cbn [snd] in Hl1, Hc1, Hf1.
  - exists e1. auto.
  - destruct (handles e); [|exists e1; auto].
    destruct (Hh s1) as (e2 & Hl2 & Hc2 & Hf2).
    exists (e1 ++ e2). rewrite Hl2, Hl1, app_assoc, Hc2, Hc1.
    split; [reflexivity|]. split; [reflexivity|].
    intros p Hp. rewrite Hf2, Hf1; [reflexivity | |];
      intros Hx; apply Hp; apply in_or_app; auto.
Qed.

Lemma tracked_for_each {A} (l : list A) (body : A -> M unit) :
  (forall x, tracked (body x)) -> tracked (for_each l body).
Proof.
  intros H. induction l as [|x l IH]; cbn [for_each].
  - apply tracked_ret.
  - apply tracked_bind; [apply H | intros _; exact IH].
Qed.

Ltac tracked_step :=
  match goal with
  | |- tracked (bind _ _) => apply tracked_bind; [|intros]
  | |- tracked (ret _) => apply tracked_ret
  | |- tracked (raise _) => apply tracked_raise
  | |- tracked (sys_exit _) => apply tracked_raise
  | |- tracked (gets _) => apply tracked_gets
  | |- tracked cache_now => apply tracked_gets
  | |- tracked (modify _) =>
      apply tracked_modify; intros; repeat split; reflexivity
  | |- tracked (print _) => apply tracked_emit
  | |- tracked (print_repr _ _) => apply tracked_print_repr
  | |- tracked (emit _) => apply tracked_emit
  | |- tracked (try_except _ _ _) => apply tracked_try_except
  | |- tracked (for_each _ _) => apply tracked_for_each; intros
  | |- tracked (match ?x with _ => _ end) => destruct x
  end.

Lemma os_unlink_tracked p : tracked (os_unlink p).
Proof.
  intros s. unfold os_unlink. run. exists [EvUnlink p].
  destruct (fs_get p (fs s)) eqn:E; cbn;
    (split; [reflexivity|]); (split; [reflexivity|]); intros q Hq;
    [|reflexivity].
  apply fs_get_remove_other. intros ->. apply Hq. left. reflexivity.
Qed.

Lemma remove_cache_tracked : tracked remove_cache.
Proof.
  unfold remove_cache. apply tracked_bind; [tracked_step|]. intros filename.
  apply tracked_bind; [|intros; repeat tracked_step].
  apply tracked_try_except; [|repeat tracked_step].
  apply tracked_bind; [apply os_unlink_tracked | intros; apply tracked_ret].
Qed.

Lemma ask_tracked keys : tracked (ask keys).
Proof.
  induction keys as [|k keys IH]; cbn [ask].
  - repeat tracked_step.
  - apply tracked_bind; [repeat tracked_step|]. intros _.
    destruct k as [answer|]; [|repeat tracked_step].
    apply tracked_bind; [repeat tracked_step|]. intros _. cbv zeta.
    destruct (_ || _).
    + apply tracked_bind; [apply remove_cache_tracked|]. intros.
      repeat tracked_step.
    + destruct (_ || _); [repeat tracked_step|].
      destruct (strip is_str_space (lower answer));
        [repeat tracked_step|].
      apply tracked_bind; [repeat tracked_step | intros _; exact IH].
Qed.

Lemma read_cache_tracked : tracked read_cache.
Proof.
  unfold read_cache. apply tracked_bind; [repeat tracked_step|].
  intros filename. apply tracked_bind.
  { apply tracked_try_except; [|repeat tracked_step].
    unfold open_read. repeat tracked_step. }
  intros [data|]; [|repeat tracked_step].
  destruct (readline data) as [header data1].
  destruct (negb _); [repeat tracked_step|].
  destruct (readline data1) as [line data2]. cbv zeta.
  destruct (py_int _) as [ts|]; [|repeat tracked_step].
  apply tracked_bind.
  { unfold check_cache_age. apply tracked_bind; [repeat tracked_step|].
    intros now. cbv zeta. destruct (_ || _); [repeat tracked_step|].
    destruct (_ <? _); [repeat tracked_step|].
    apply tracked_bind; [repeat tracked_step|]. intros _.
    apply tracked_bind; [repeat tracked_step|]. intros keys.
    apply ask_tracked. }
  intros [|]; [repeat tracked_step|].
  apply tracked_bind.
  - apply tracked_for_each. intros line0. unfold read_cache_line. cbv zeta.
    repeat tracked_step.
  - intros. repeat tracked_step.
Qed.

(* ------------------------------------------------------------------ *)
(** *** Starting and stopping idle workers *)

Lemma start_threads_run (s : state) :
  exists s' n,
    start_threads s = (Ret tt, s')
    /\ log s' = log s ++ [EvPrint (MsgSpawn n)]
    /\ queue s' = []
    /\ threads s' = n
    /\ (0 < n)%nat
    /\ fs s' = fs s
    /\ cache_filename s' = cache_filename s.
Proof.
  unfold start_threads. run.
  destruct cpu_count as [[|k]|]; eexists; eexists;
    repeat split; lia.
Qed.

Lemma put_sentinels (n : nat) (s : state) :
  exists s',
    for_each (repeat tt n) (fun _ : unit => queue_put None) s = (Ret tt, s')
    /\ queue s' = queue s ++ repeat None n
    /\ log s' = log s ++ repeat (EvPut None) n
    /\ threads s' = threads s
    /\ fs s' = fs s
    /\ cache_filename s' = cache_filename s.
Proof.
  revert s. induction n as [|n IH]; intros s.
  - exists s. cbn. rewrite !app_nil_r. repeat split.
  - cbn [repeat for_each]. unfold bind at 1, queue_put. run.
    match goal with
    | |- context [for_each _ _ ?s0] =>
        destruct (IH s0) as (s' & Hrun & Hq & Hl & Hth & Hfs & Hcf)
    end.
    exists s'. split; [exact Hrun|]. cbn in Hq, Hl, Hth, Hfs, Hcf.
    rewrite Hq, Hl, <- !app_assoc. repeat split; assumption.
Qed.

Lemma join_idle (n : nat) (s : state) :
  queue s = repeat None n ->
  exists s',
    join_threads n s = (Ret tt, s')
    /\ queue s' = []
    /\ log s' = log s
    /\ threads s' = threads s
    /\ fs s' = fs s
    /\ cache_filename s' = cache_filename s.
Proof.
  revert s. induction n as [|n IH]; intros s Hq.
  - exists s. repeat split. exact Hq.
  - cbn [join_threads]. unfold HashThread_run. unfold bind at 1.
    cbn [gets]. rewrite Hq. cbn [repeat run_jobs]. run.
    destruct (IH (set_queue (repeat None n) s) eq_refl)
      as (s' & Hrun & Hq' & Hl & Hth & Hfs & Hcf).
    exists s'. split; [exact Hrun|]. repeat split; assumption.
Qed.

(** With nothing queued, [stop_threads] puts one sentinel for each worker,
    each worker takes one and stops, and the queue ends empty. *)
Lemma stop_threads_idle (s : state) :
  queue s = [] ->
  exists s',
    stop_threads s = (Ret tt, s')
    /\ log s' = log s ++ repeat (EvPut None) (threads s)
    /\ queue s' = []
    /\ threads s' = threads s
    /\ fs s' = fs s
    /\ cache_filename s' = cache_filename s.
Proof.
  intros Hq. unfold stop_threads. unfold bind at 1. cbn [gets].
  destruct (put_sentinels (threads s) s)
    as (s1 & Hrun1 & Hq1 & Hl1 & Hth1 & Hfs1 & Hcf1).
  unfold bind. rewrite Hrun1. rewrite Hq in Hq1. cbn [app] in Hq1.
  destruct (join_idle (threads s) s1 Hq1)
    as (s2 & Hrun2 & Hq2 & Hl2 & Hth2 & Hfs2 & Hcf2).
  exists s2. split; [exact Hrun2|].
  repeat split; congruence.
Qed.

Lemma repeat_put_not (n : nat) (ev : event) :
  (forall j, ev <> EvPut j) -> ~ In ev (repeat (EvPut None) n).
Proof. intros H Hin. apply repeat_spec in Hin. exact (H None Hin). Qed.

(** [main] on [remove_dir] once the name of the cache file is set. *)
Lemma stale_exit_tail (remove : bool) (directory : bytes) (s : state)
      (out : result unit * state) :
  out = (read_cache ;;
         start_threads ;;
         try_finally
           (try_except (remove_dir remove directory)
                       is_KeyboardInterrupt
                       (print MsgBlank ;; print MsgInterrupted))
           stop_threads ;;
         write_cache) s ->
  exists evs,
    log (snd out) = log s ++ evs
    /\ (In (EvPrint MsgOutdatedCache) evs ->
        (fst out = Raise (SystemExit 1) \/ fst out = Raise UnicodeEncodeError)
        /\ (forall p, ~ In (EvOpenWrite p) evs)
        /\ (exists evs0,
               evs = evs0 ++ repeat (EvPut None) (threads (snd out)))
        /\ (0 < threads (snd out))%nat
        /\ queue (snd out) = []
        /\ cache_filename (snd out) = cache_filename s
        /\ (forall p, ~ In (EvUnlink p) evs ->
                      fs_get p (fs (snd out)) = fs_get p (fs s))).
Proof.
  intros Hout.
  destruct (read_cache_benign s) as (e1 & Hl1 & HP1).
  destruct (read_cache_tracked s) as (e1' & Hl1' & Hcf1 & Ht1).
  assert (E1 : e1' = e1) by (apply (app_inv_head (log s)); congruence).
  subst e1'. clear Hl1'.
  unfold bind at 1 in Hout.
  destruct (read_cache s) as [[[]|e] s1]; cbn [fst snd] in Hl1, Hcf1, Ht1.
  2:{ subst out. exists e1. split; [exact Hl1|].
      intros Hin. destruct (benign_not_outdated _ HP1 Hin). }
  destruct (start_threads_run s1)
    as (s2 & n & Hst & Hl2 & Hq2 & Hth2 & Hn & Hfs2 & Hcf2).
  unfold bind at 1 in Hout. rewrite Hst in Hout.
  destruct (remove_dir_log remove directory s2)
    as (e3 & Hl3 & Hw3 & Ho3 & Hsame3 & Ht3).
  unfold bind at 1, try_finally, try_except in Hout.
  destruct (remove_dir remove directory s2) as [[[]|e] s3];
    cbn [fst snd] in Hl3, Ho3, Hsame3, Ht3.
  - (* the loop ended normally: nothing was reported *)
    destruct (stop_threads_benign s3) as (e4 & Hl4 & HP4).
    pose proof (stop_threads_returns s3) as Hr4.
    destruct (stop_threads s3) as [[[]|e] s4]; cbn [fst snd] in Hl4, Hr4;
      [|discriminate Hr4].
    destruct (write_cache_not_outdated s4) as (e5 & Hl5 & HP5).
    subst out. exists (e1 ++ [EvPrint (MsgSpawn n)] ++ e3 ++ e4 ++ e5).
    rewrite Hl5, Hl4, Hl3, Hl2, Hl1, <- !app_assoc.
    split; [reflexivity|]. intros Hin. exfalso.
    rewrite Forall_forall in HP5.
    repeat (apply in_app_or in Hin; destruct Hin as [Hin|Hin]).
    + exact (benign_not_outdated _ HP1 Hin).
    + destruct Hin as [Hin|[]]. discriminate Hin.
    + destruct (Ho3 Hin) as [E|E]; discriminate E.
    + exact (benign_not_outdated _ HP4 Hin).
    + exact (HP5 _ Hin eq_refl).
  - destruct (is_KeyboardInterrupt e) eqn:Eki.
    + (* not met: the loop raises no KeyboardInterrupt *)
      assert (Hk : adds benign (print MsgBlank ;; print MsgInterrupted))
        by repeat adds_step.
      destruct (Hk s3) as (ek & Hlk & HPk).
      destruct ((print MsgBlank ;; print MsgInterrupted) s3) as [rk sk];
        cbn [snd] in Hlk.
      destruct (stop_threads_benign sk) as (e4 & Hl4 & HP4).
      pose proof (stop_threads_returns sk) as Hr4.
      destruct (stop_threads sk) as [[[]|e'] s4]; cbn [fst snd] in Hl4, Hr4;
        [|discriminate Hr4].
      assert (Hout3 : ~ In (EvPrint MsgOutdatedCache) e3).
      { intros Hin. destruct (Ho3 Hin) as [E|E]; injection E as ->;
          discriminate Eki. }
      destruct rk as [[]|ek'].
      * destruct (write_cache_not_outdated s4) as (e5 & Hl5 & HP5).
        subst out.
        exists (e1 ++ [EvPrint (MsgSpawn n)] ++ e3 ++ ek ++ e4 ++ e5).
        rewrite Hl5, Hl4, Hlk, Hl3, Hl2, Hl1, <- !app_assoc.
        split; [reflexivity|]. intros Hin. exfalso.
        rewrite Forall_forall in HP5.
        repeat (apply in_app_or in Hin; destruct Hin as [Hin|Hin]).
        -- exact (benign_not_outdated _ HP1 Hin).
        -- destruct Hin as [Hin|[]]. discriminate Hin.
        -- exact (Hout3 Hin).
        -- exact (benign_not_outdated _ HPk Hin).
        -- exact (benign_not_outdated _ HP4 Hin).
        -- exact (HP5 _ Hin eq_refl).
      * subst out. exists (e1 ++ [EvPrint (MsgSpawn n)] ++ e3 ++ ek ++ e4).
        cbn [fst snd].
        rewrite Hl4, Hlk, Hl3, Hl2, Hl1, <- !app_assoc.
        split; [reflexivity|]. intros Hin. exfalso.
        repeat (apply in_app_or in Hin; destruct Hin as [Hin|Hin]).
        -- exact (benign_not_outdated _ HP1 Hin).
        -- destruct Hin as [Hin|[]]. discriminate Hin.
        -- exact (Hout3 Hin).
        -- exact (benign_not_outdated _ HPk Hin).
        -- exact (benign_not_outdated _ HP4 Hin).
    + (* the exception goes through [finally] and past [write_cache] *)
      destruct Hsame3 as (Hcf3 & Hq3 & Hth3 & _).
      rewrite Hq2 in Hq3.
      destruct (stop_threads_idle s3 Hq3)
        as (s4 & Hstop & Hl4 & Hq4 & Hth4 & Hfs4 & Hcf4).
      rewrite Hstop in Hout. subst out. cbn [fst snd].
      exists (e1 ++ [EvPrint (MsgSpawn n)] ++ e3
                 ++ repeat (EvPut None) (threads s3)).
      rewrite Hl4, Hl3, Hl2, Hl1, <- !app_assoc.
      split; [reflexivity|]. intros Hin.
      split; [|split; [|split; [|split; [|split; [|split]]]]].
      * repeat (apply in_app_or in Hin; destruct Hin as [Hin|Hin]).
        -- destruct (benign_not_outdated _ HP1 Hin).
        -- destruct Hin as [Hin|[]]. discriminate Hin.
        -- exact (Ho3 Hin).
        -- exfalso. revert Hin. apply repeat_put_not. discriminate.
      * intros p Hp.
        repeat (apply in_app_or in Hp; destruct Hp as [Hp|Hp]).
        -- exact (benign_not_write _ p HP1 Hp).
        -- destruct Hp as [Hp|[]]. discriminate Hp.
        -- exact (Hw3 p Hp).
        -- revert Hp. apply repeat_put_not. discriminate.
      * exists (e1 ++ [EvPrint (MsgSpawn n)] ++ e3).
        rewrite Hth4, <- !app_assoc. reflexivity.
      * rewrite Hth4, Hth3, Hth2. exact Hn.
      * exact Hq4.
      * congruence.
      * intros p Hp. rewrite Hfs4.
        rewrite Ht3
          by (intros Hx; apply Hp; apply in_or_app; right;
              apply in_or_app; right; apply in_or_app; left; exact Hx).
        rewrite Hfs2. apply Ht1.
        intros Hx. apply Hp. apply in_or_app. left. exact Hx.
Qed.

(** C3, as the code has it: a run of [main] on [remove_dir] that reports an
    outdated cache ends on the exception of the report, [sys.exit(1)] (or
    the [UnicodeEncodeError] of its second line), and the cache in memory is
    not saved: no file is opened for writing.  On the way out the workers
    are stopped: one sentinel is put for each of them, and the queue ends
    empty.  A file keeps its content unless this run has unlinked it, and
    so does the cache file. *)
Theorem main_stale_exit_without_write (remove : bool) (directory : bytes)
        (s : state) :
  let out := main (ActRemoveDir remove directory) s in
  exists evs,
    log (snd out) = log s ++ evs
    /\ (In (EvPrint MsgOutdatedCache) evs ->
        (fst out = Raise (SystemExit 1) \/ fst out = Raise UnicodeEncodeError)
        /\ (forall p, ~ In (EvOpenWrite p) evs)
        /\ (exists evs0,
               evs = evs0 ++ repeat (EvPut None) (threads (snd out)))
        /\ (0 < threads (snd out))%nat
        /\ queue (snd out) = []
        /\ cache_filename (snd out)
           = real_path (expanduser (cache_filename s))
        /\ (forall p, ~ In (EvUnlink p) evs ->
                      fs_get p (fs (snd out)) = fs_get p (fs s))).
Proof.
  exact (stale_exit_tail
           remove directory
           (set_cache_filename (real_path (expanduser (cache_filename s))) s)
           _ eq_refl).
Qed.

(* ================================================================== *)
(** ** The cache file: write, then read *)

Lemma fs_get_put_same (p : bytes) (n : node) (files : filesystem) :
  fs_get p (fs_put p n files) = Some n.
Proof.
  induction files as [|[p' n'] files IH]; cbn.
  - rewrite bytes_eqb_refl. reflexivity.
  - destruct (bytes_eqb p p') eqn:E; cbn.
    + rewrite bytes_eqb_refl. reflexivity.
    + rewrite E. exact IH.
Qed.

Lemma write_cache_nonempty (s : state) :
  cache s <> [] ->
  fst (write_cache s) = Ret tt
  /\ exists n,
      fs (snd (write_cache s)) = fs_put (cache_filename s) n (fs s)
      /\ n_data n = Some (cache_file_data (clock s) (cache s)).
Proof.
  intros Hne. unfold write_cache, write_file, cache_now. run.
  destruct (cache s) as [|it c]; [contradiction|]. cbn.
  split; [reflexivity|]. eexists. split; reflexivity.
Qed.

Lemma open_read_ok (p data : bytes) (n : node) (s : state) :
  fs_get p (fs s) = Some n -> n_data n = Some data ->
  open_read p s = (Ret data, set_log (log s ++ [EvOpenRead p]) s).
Proof.
  intros Hg Hd. unfold open_read. run. rewrite Hg, Hd. reflexivity.
Qed.

Lemma format_int_no_nl n : contains is_nl (format_int n) = false.
Proof.
  apply forallb_contains with (q := is_int_byte);
    [apply int_byte_not_nl | apply format_int_bytes].
Qed.

Lemma format_int_no_colon n : contains is_colon (format_int n) = false.
Proof.
  apply forallb_contains with (q := is_int_byte);
    [apply int_byte_not_colon | apply format_int_bytes].
Qed.

Lemma cache_line_shape (f : bytes) (m : Z) (h : bytes) :
  cache_line (f, (m, h))
  = (format_int m ++ COLON :: hexlify h ++ COLON :: f) ++ [NL].
Proof.
  unfold cache_line. cbn [app]. rewrite <- !app_assoc. cbn [app].
  rewrite <- app_assoc. reflexivity.
Qed.

Lemma cache_line_body_no_nl (f : bytes) (m : Z) (h : bytes) :
  contains is_nl f = false ->
  contains is_nl (format_int m ++ COLON :: hexlify h ++ COLON :: f) = false.
Proof.
  intros Hf. rewrite contains_app, format_int_no_nl. cbn.
  rewrite contains_app. destruct (hexlify_plain h) as (_ & ->). cbn.
  exact Hf.
Qed.

Lemma read_cache_line_ok (f : bytes) (m : Z) (h : bytes) (s : state) :
  contains is_nl f = false ->
  read_cache_line (cache_line (f, (m, h))) s
  = (Ret tt, set_cache (dict_set f (m, h) (cache s)) s).
Proof.
  intros Hf. unfold read_cache_line. cbv zeta.
  rewrite cache_line_shape, rstrip_snoc by reflexivity.
  rewrite rstrip_none by (apply cache_line_body_no_nl; exact Hf).
  unfold split_colon_2.
  rewrite split_first_app
    by (first [apply format_int_no_colon | reflexivity]).
  rewrite split_first_app
    by (first [apply hexlify_plain | reflexivity]).
  rewrite unhexlify_hexlify, py_int_format_int. reflexivity.
Qed.

Lemma readlines_cache (c : dict) :
  newline_free c -> readlines (flat_map cache_line c) = map cache_line c.
Proof.
  induction c as [|[f [m h]] c IH]; intros Hc; [reflexivity|].
  cbn [flat_map map]. rewrite cache_line_shape at 1.
  rewrite <- app_assoc. cbn [app].
  rewrite readlines_app.
  - rewrite IH; [rewrite cache_line_shape; reflexivity|].
    intros p e Hin. apply (Hc p e). right. exact Hin.
  - apply cache_line_body_no_nl. apply (Hc f (m, h)). left. reflexivity.
Qed.

Lemma read_lines_ok (c : dict) (s : state) :
  newline_free c ->
  exists s',
    for_each (map cache_line c) read_cache_line s = (Ret tt, s')
    /\ cache s' = load_items c (cache s)
    /\ log s' = log s
    /\ cache_filename s' = cache_filename s.
Proof.
  revert s. induction c as [|[f [m h]] c IH]; intros s Hc.
  - exists s. repeat split.
  - cbn [map for_each]. unfold bind.
    rewrite read_cache_line_ok by (apply (Hc f (m, h)); left; reflexivity).
    destruct (IH (set_cache (dict_set f (m, h) (cache s)) s))
      as (s' & Hrun & Hcache & Hlog & Hcf).
    { intros p e Hin. apply (Hc p e). right. exact Hin. }
    exists s'. rewrite Hrun. repeat split; assumption.
Qed.

Lemma dict_set_fresh (k : bytes) (v : entry) (d : dict) :
  ~ In k (map fst d) -> dict_set k v d = d ++ [(k, v)].
Proof.
  induction d as [|[k' v'] d IH]; cbn; intros H; [reflexivity|].
  destruct (bytes_eqb k k') eqn:E.
  - apply bytes_eqb_eq in E. subst k'. exfalso. apply H. left. reflexivity.
  - rewrite IH; [reflexivity|]. intros Hin. apply H. right. exact Hin.
Qed.

Lemma load_items_fresh (c d : dict) :
  NoDup (map fst (d ++ c)) -> load_items c d = d ++ c.
Proof.
  revert d. induction c as [|[k v] c IH]; intros d Hnd; cbn.
  - rewrite app_nil_r. reflexivity.
  - rewrite dict_set_fresh.
    + change (fold_left _ c (d ++ [(k, v)]))
        with (load_items c (d ++ [(k, v)])).
      rewrite IH; rewrite <- app_assoc; [reflexivity | exact Hnd].
    + rewrite map_app in Hnd. cbn in Hnd.
      apply NoDup_remove_2 in Hnd. intros Hin. apply Hnd.
      apply in_or_app. left. exact Hin.
Qed.

Lemma check_cache_age_fresh (ts : Z) (s : state) :
  ts <= clock s < ts + MAX_CACHE_AGE ->
  check_cache_age ts s = (Ret false, s).
Proof.
  intros Hage. unfold MAX_CACHE_AGE in Hage.
  unfold check_cache_age, cache_now. run.
  rewrite Z.div_small by lia. cbn.
  replace (clock s - ts <? MAX_CACHE_AGE) with true
    by (symmetry; apply Z.ltb_lt; unfold MAX_CACHE_AGE; lia).
  reflexivity.
Qed.

(** C5: a non-empty cache with distinct keys and no newline in a path,
    written by [write_cache] and read back by [read_cache] into a fresh
    [App] within [MAX_CACHE_AGE] (so that the age question is not asked),
    comes back as the same dictionary: the same paths, in the same order,
    each with its checksum and modification time.  Colons in a path are
    harmless: the record is cut at its first two colons only. *)
Theorem cache_round_trip (s sr : state) :
  cache s <> [] ->
  dict_wf (cache s) ->
  newline_free (cache s) ->
  cache_filename sr = cache_filename s ->
  fs sr = fs (snd (write_cache s)) ->
  cache sr = [] ->
  clock s <= clock sr < clock s + MAX_CACHE_AGE ->
  fst (write_cache s) = Ret tt
  /\ fst (read_cache sr) = Ret tt
  /\ cache (snd (read_cache sr)) = cache s.
Proof.
  intros Hne Hwf Hnl Hcf Hfs Hempty Hage.
  destruct (write_cache_nonempty s Hne) as (Hw & n & Hput & Hdata).
  split; [exact Hw|].
  assert (Hget : fs_get (cache_filename sr) (fs sr) = Some n).
  { rewrite Hfs, Hput, Hcf. apply fs_get_put_same. }
  assert (Hrc : exists s2, read_cache sr = (Ret tt, s2)
                           /\ cache s2 = cache s).
  { unfold read_cache. unfold bind at 1. cbn [gets].
    unfold bind at 1, try_except. unfold bind at 1.
    rewrite (open_read_ok _ _ _ _ Hget Hdata). cbn [ret].
    unfold cache_file_data.
    change (HEADER ++ [NL] ++ format_int (clock s) ++ [NL]
              ++ flat_map cache_line (cache s))
      with (HEADER ++ NL :: (format_int (clock s)
                               ++ NL :: flat_map cache_line (cache s))).
    rewrite readline_app by reflexivity.
    rewrite bytes_eqb_refl. cbn [negb].
    rewrite readline_app by apply format_int_no_nl.
    cbv zeta. rewrite rstrip_snoc by reflexivity.
    rewrite rstrip_none by apply format_int_no_nl.
    rewrite py_int_format_int.
    unfold bind at 1. rewrite check_cache_age_fresh by exact Hage.
    rewrite readlines_cache by exact Hnl.
    unfold bind at 1.
    match goal with
    | |- context [for_each _ _ ?s1] =>
        destruct (read_lines_ok (cache s) s1 Hnl)
          as (s' & Hrun & Hcache & _ & _)
    end.
    rewrite Hrun. run. eexists. split; [reflexivity|].
    cbn. rewrite Hcache. cbn. rewrite Hempty.
    apply (load_items_fresh (cache s) []). exact Hwf. }
  destruct Hrc as (s2 & Hrun & Hcache). rewrite Hrun. auto.
Qed.

(* ================================================================== *)
(** ** Loading the cache: the other ways out of [read_cache] *)

(** X1: without a cache file [read_cache] returns at once; the cache in
    memory is untouched and nothing is printed. *)
Theorem read_cache_missing_file (s : state) :
  fs_get (cache_filename s) (fs s) = None ->
  read_cache s
  = (Ret tt, set_log (log s ++ [EvOpenRead (cache_filename s)]) s).
Proof.
  intros H. unfold read_cache, open_read. run. rewrite H. reflexivity.
Qed.

(** X2: a cache file whose first line is not the header line makes
    [read_cache] print the error and end on [sys.exit(1)]; no record is
    loaded and no file is touched. *)
Theorem read_cache_bad_header (s : state) (n : node) (data : bytes) :
  fs_get (cache_filename s) (fs s) = Some n ->
  n_data n = Some data ->
  fst (readline data) <> HEADER ++ [NL] ->
  exists s',
    read_cache s = (Raise (SystemExit 1), s')
    /\ cache s' = cache s
    /\ fs s' = fs s
    /\ log s' = log s ++ [EvOpenRead (cache_filename s);
                          EvPrint (MsgInvalidHeader (cache_filename s)
                                                    (fst (readline data)))].
Proof.
  intros Hg Hd Hh. unfold read_cache. unfold bind at 1. cbn [gets].
  unfold bind at 1, try_except. unfold bind at 1.
  rewrite (open_read_ok _ _ _ _ Hg Hd). cbn [ret].
  destruct (readline data) as [header data1]. cbn [fst] in Hh.
  apply bytes_eqb_neq in Hh. rewrite Hh. cbn [negb]. run.
  eexists. split; [reflexivity|]. cbn. rewrite <- app_assoc. auto.
Qed.

(** [read_cache] on a file with the right header and a timestamp. *)
Lemma read_cache_stamped (s : state) (n : node) (ts : Z) (records : bytes) :
  fs_get (cache_filename s) (fs s) = Some n ->
  n_data n = Some (stamped ts records) ->
  read_cache s
  = (exit <- check_cache_age ts ;;
     if exit : bool then ret tt
     else
       for_each (readlines records) read_cache_line ;;
       c <- gets cache ;;
       print (MsgReadCache (cache_filename s) (List.length c)))
      (set_log (log s ++ [EvOpenRead (cache_filename s)]) s).
Proof.
  intros Hg Hd. unfold read_cache. unfold bind at 1. cbn [gets].
  unfold bind at 1, try_except. unfold bind at 1.
  rewrite (open_read_ok _ _ _ _ Hg Hd). cbn [ret].
  unfold stamped.
  rewrite readline_app by reflexivity.
  rewrite bytes_eqb_refl. cbn [negb].
  rewrite readline_app by apply format_int_no_nl.
  cbv zeta. rewrite rstrip_snoc by reflexivity.
  rewrite rstrip_none by apply format_int_no_nl.
  rewrite py_int_format_int. reflexivity.
Qed.

Lemma check_cache_age_stale (ts : Z) (s : state) :
  stale ts s ->
  check_cache_age ts s
  = (print (MsgCacheOld (clock s - ts)) ;; keys <- gets stdin ;; ask keys) s.
Proof.
  intros [Hold Hmax]. unfold MAX_CACHE_AGE in Hold.
  unfold check_cache_age, cache_now. unfold bind at 1. cbn [gets].
  replace (clock s - ts <? MAX_CACHE_AGE) with false
    by (symmetry; apply Z.ltb_ge; unfold MAX_CACHE_AGE; lia).
  replace ((clock s - ts) / 86400 <? -999999999) with false.
  2:{ symmetry. apply Z.ltb_ge.
      assert (0 <= (clock s - ts) / 86400)
        by (apply Z.div_pos; lia). lia. }
  replace (999999999 <? (clock s - ts) / 86400) with false
    by (symmetry; apply Z.ltb_ge; lia).
  reflexivity.
Qed.

Lemma fs_get_remove_same (p : bytes) (files : filesystem) :
  fs_get p (fs_remove p files) = None.
Proof.
  induction files as [|[p' n] files IH]; cbn; [reflexivity|].
  destruct (bytes_eqb p p') eqn:E; cbn; [exact IH|].
  rewrite E. exact IH.
Qed.


(** X4: an old cache and an empty answer, or CTRL+c at the question:
    [read_cache] ends on [sys.exit(0)]; the cache file stays and nothing is
    loaded. *)
Theorem read_cache_stale_quit (s : state) (n : node) (ts : Z)
        (records : bytes) (key : keyboard) (rest : list keyboard) :
  fs_get (cache_filename s) (fs s) = Some n ->
  n_data n = Some (stamped ts records) ->
  stale ts s ->
  stdin s = key :: rest ->
  key = CtrlC \/ (exists answer, key = Line answer /\ normalize answer = []) ->
  exists s',
    read_cache s = (Raise (SystemExit 0), s')
    /\ cache s' = cache s
    /\ fs s' = fs s.
Proof.
  intros Hg Hd Hold Hin Hkey.
  rewrite (read_cache_stamped s n ts records Hg Hd).
  unfold bind at 1. rewrite check_cache_age_stale by exact Hold.
  unfold bind at 1. cbn [print emit modify]. unfold bind at 1. cbn [gets].
  cbn [stdin set_log]. rewrite Hin.
  destruct Hkey as [-> | (answer & -> & Hempty)]; cbn [ask].
  - run. eexists. split; [reflexivity|]. auto.
  - unfold bind at 1. cbn [print emit modify]. unfold bind at 1.
    cbn [modify]. cbv zeta.
    change (strip is_str_space (lower answer)) with (normalize answer).
    rewrite Hempty. run. eexists. split; [reflexivity|]. auto.
Qed.


Lemma str_eqb_eq (a b : str) : str_eqb a b = true -> a = b.
Proof.
  revert b. induction a as [|x a IH]; intros [|y b] H; cbn in H;
    try discriminate; [reflexivity|].
  apply andb_true_iff in H. destruct H as [Hx Hr].
  apply N.eqb_eq in Hx. subst y. f_equal. apply IH. exact Hr.
Qed.

Lemma says_yes_not_no (answer : str) :
  says_yes answer = true -> says_no answer = false.
Proof.
  unfold says_yes, says_no. intros H. apply orb_true_iff in H.
  destruct H as [H|H]; apply str_eqb_eq in H; rewrite H; reflexivity.
Qed.

(** X6: the round trip also holds for a cache read back after more than
    [MAX_CACHE_AGE], when the answer to the question is yes (or y): the
    records are loaded as they were written. *)
Theorem cache_round_trip_after_yes (s sr : state) (answer : str)
        (rest : list keyboard) :
  cache s <> [] ->
  dict_wf (cache s) ->
  newline_free (cache s) ->
  cache_filename sr = cache_filename s ->
  fs sr = fs (snd (write_cache s)) ->
  cache sr = [] ->
  stale (clock s) sr ->
  stdin sr = Line answer :: rest ->
  says_yes answer = true ->
  fst (read_cache sr) = Ret tt
  /\ cache (snd (read_cache sr)) = cache s
  /\ stdin (snd (read_cache sr)) = rest.
Proof.
  intros Hne Hwf Hnl Hcf Hfs Hempty Hold Hin Hyes.
  destruct (write_cache_nonempty s Hne) as (_ & n & Hput & Hdata).
  assert (Hget : fs_get (cache_filename sr) (fs sr) = Some n).
  { rewrite Hfs, Hput, Hcf. apply fs_get_put_same. }
  change (cache_file_data (clock s) (cache s))
    with (stamped (clock s) (flat_map cache_line (cache s))) in Hdata.
  assert (Hin' : forall c s0 s0',
             for_each (map cache_line c) read_cache_line s0 = (Ret tt, s0') ->
             stdin s0' = stdin s0).
  { induction c as [|[f [m h]] c IH]; intros s0 s0' H0.
    - cbn in H0. injection H0 as <-. reflexivity.
    - cbn [map for_each] in H0. unfold bind in H0.
      unfold read_cache_line in H0. cbv zeta in H0.
      destruct (split_colon_2 _) as [[[a b] c0]|]; [|discriminate H0].
      destruct (unhexlify b); [|discriminate H0].
      destruct (py_int a); [|discriminate H0].
      cbn [modify] in H0. apply IH in H0. exact H0. }
  assert (Hrc : exists s2, read_cache sr = (Ret tt, s2)
                           /\ cache s2 = cache s /\ stdin s2 = rest).
  { rewrite (read_cache_stamped sr n _ _ Hget Hdata).
    unfold bind at 1. rewrite check_cache_age_stale by exact Hold.
    unfold bind at 1. cbn [print emit modify]. unfold bind at 1.
    cbn [gets]. cbn [stdin set_log]. rewrite Hin. cbn [ask].
    unfold bind at 1. cbn [print emit modify]. unfold bind at 1.
    cbn [modify]. cbv zeta.
    change (strip is_str_space (lower answer)) with (normalize answer).
    pose proof (says_yes_not_no answer Hyes) as Hno.
    unfold says_no in Hno. unfold says_yes in Hyes. rewrite Hno, Hyes.
    cbn [ret]. rewrite readlines_cache by exact Hnl.
    unfold bind at 1.
    match goal with
    | |- context [for_each _ _ ?s1] =>
        destruct (read_lines_ok (cache s) s1 Hnl)
          as (s' & Hrun & Hcache & _ & _);
        assert (Hs1 : stdin s1 = rest /\ cache s1 = cache sr)
          by (split; reflexivity)
    end.
    rewrite Hrun. run. eexists. split; [reflexivity|]. cbn.
    destruct Hs1 as (Hs1 & Hc1).
    rewrite Hcache, Hc1, Hempty, (Hin' _ _ _ Hrun), Hs1.
    split; [|reflexivity].
    apply (load_items_fresh (cache s) []). exact Hwf. }
  destruct Hrc as (s2 & Hrun & Hc & Hs). rewrite Hrun. auto.
Qed.


(* ------------------------------------------------------------------ *)
(** *** Which entries are target entries *)

Lemma head_to_last_sep_none (name : bytes) :
  contains is_sep name = false -> head_to_last_sep name = [].
Proof.
  induction name as [|c t IH]; cbn; [reflexivity|].
  intros H. apply orb_false_iff in H. destruct H as [Hc Ht].
  rewrite (IH Ht), Hc. reflexivity.
Qed.

Lemma head_to_last_sep_join (d name : bytes) :
  contains is_sep name = false ->
  head_to_last_sep (d ++ SEP :: name) = d ++ [SEP].
Proof.
  intros Hn. induction d as [|c d IH]; cbn.
  - rewrite (head_to_last_sep_none name Hn). reflexivity.
  - rewrite IH. destruct (d ++ [SEP]) eqn:E; [|reflexivity].
    destruct d; discriminate E.
Qed.

Lemma rstrip_keep_last p (d : bytes) (x : byte) :
  p x = false -> rstrip p (d ++ [x]) = d ++ [x].
Proof.
  intros Hx. induction d as [|c d IH]; cbn.
  - rewrite Hx. reflexivity.
  - rewrite IH. destruct (d ++ [x]) eqn:E; [|reflexivity].
    destruct d; discriminate E.
Qed.

(** For a file name without a slash, [dirname] of the name joined to a
    directory that does not end in a slash is that directory, and [dirname]
    of the name joined to the root is the root: these are the entries
    [remove_dir] takes as lying directly inside its target. *)
Theorem dirname_join (d name : bytes) (x : byte) :
  contains is_sep name = false ->
  is_sep x = false ->
  dirname ((d ++ [x]) ++ SEP :: name) = d ++ [x]
  /\ dirname (SEP :: name) = [SEP].
Proof.
  intros Hn Hx. split.
  - unfold dirname. rewrite head_to_last_sep_join by exact Hn.
    destruct ((d ++ [x]) ++ [SEP]) as [|c t] eqn:E.
    + destruct d; discriminate E.
    + rewrite <- E.
      replace (forallb is_sep ((d ++ [x]) ++ [SEP])) with false.
      * rewrite rstrip_snoc by reflexivity.
        apply rstrip_keep_last. exact Hx.
      * symmetry. rewrite !forallb_app. cbn. rewrite Hx.
        rewrite andb_false_r. reflexivity.
  - unfold dirname.
    pose proof (head_to_last_sep_join [] name Hn) as H. cbn [app] in H.
    rewrite H. reflexivity.
Qed.

(** X9: the first loop of [remove_dir] splits the cache in cache order:
    [content] lists the entries whose [dirname] is the directory, and the
    group of a checksum lists the other paths carrying that checksum; the
    verification copy is the first of these. *)
Theorem partition_cache_in_order (directory : bytes) (items : dict) :
  fst (partition_cache directory items [] [])
  = map (fun it => (fst it, snd (snd it)))
        (filter (in_dir directory) items)
  /\ forall k,
      groups_get k (snd (partition_cache directory items [] []))
      = map fst (filter (fun it => negb (in_dir directory it)
                                   && bytes_eqb k (snd (snd it))) items).
Proof.
  split.
  - apply partition_content.
  - intros k. apply partition_groups.
Qed.

(* ------------------------------------------------------------------ *)
(** *** Writing the cache file *)

Lemma fs_get_put_other (p q : bytes) (n : node) (files : filesystem) :
  p <> q -> fs_get p (fs_put q n files) = fs_get p files.
Proof.
  intros Hne. apply bytes_eqb_neq in Hne.
  induction files as [|[p' n'] files IH]; cbn.
  - rewrite Hne. reflexivity.
  - destruct (bytes_eqb q p') eqn:E; cbn.
    + apply bytes_eqb_eq in E. subst p'. rewrite Hne. reflexivity.
    + destruct (bytes_eqb p p'); [reflexivity | exact IH].
Qed.

(** X10: [write_cache] always returns, keeps the cache in memory as it is,
    and changes no file but the cache file. *)
Theorem write_cache_frame (s : state) :
  fst (write_cache s) = Ret tt
  /\ cache (snd (write_cache s)) = cache s
  /\ cache_filename (snd (write_cache s)) = cache_filename s
  /\ clock (snd (write_cache s)) = clock s
  /\ forall p, p <> cache_filename s ->
               fs_get p (fs (snd (write_cache s))) = fs_get p (fs s).
Proof.
  unfold write_cache, write_file, cache_now. run.
  destruct (cache s) as [|it c] eqn:Hc; cbn.
  - rewrite Hc. repeat split.
  - rewrite Hc. repeat split.
    intros p Hp. apply fs_get_put_other. exact Hp.
Qed.

(* ------------------------------------------------------------------ *)
(** *** The worker and the scanner together *)

(** X11: a worker whose jobs can all be hashed completes them in order and
    stops at the first sentinel; what is queued behind the sentinel is left
    for the other workers. *)
Theorem run_jobs_until_sentinel (jobs : list job) (rest : list (option job))
        (s : state) :
  Forall (fun j => file_digest (fs s) (fst j) <> None) jobs ->
  exists s',
    run_jobs (map Some jobs ++ None :: rest) s = (Ret Stopped, s')
    /\ queue s' = rest
    /\ cache s' = completed (fs s) jobs (cache s)
    /\ log s' = log s ++ map EvOpenRead (map fst jobs)
    /\ fs s' = fs s.
Proof.
  revert s. induction jobs as [|[f0 cb0] jobs IH]; intros s Hjobs.
  - eexists. cbn [map app run_jobs]. run. split; [reflexivity|].
    cbn. rewrite app_nil_r. auto.
  - inversion Hjobs as [|? ? Hf0 Hjobs']; subst. cbn [fst] in Hf0.
    destruct (file_digest (fs s) f0) as [h|] eqn:Hd; [|contradiction].
    cbn [map app run_jobs].
    unfold bind at 1. cbn [modify]. unfold bind at 1.
    rewrite (hash_file_ok f0 h) by exact Hd.
    unfold bind at 1. destruct cb0 as [p0 m0]. cbn [call modify].
    match goal with
    | |- context [run_jobs _ ?s1] =>
        destruct (IH s1) as (s' & Hrun & Hq & Hc & Hl & Hfs);
        [exact Hjobs'|]
    end.
    exists s'. rewrite Hrun. cbn in Hc, Hl, Hfs.
    repeat split; auto.
    + rewrite Hc. cbn [completed]. rewrite Hd. reflexivity.
    + rewrite Hl. cbn [map app]. rewrite <- app_assoc. reflexivity.
Qed.

(** [scan_file] on a path that exists and that can be printed. *)
Lemma scan_file_existing (path : bytes) (s : state) (n : node) :
  let p := real_path path in
  let unmodified :=
    match dict_get p (cache s) with
    | Some (cache_mtime, _) => cache_mtime >=? n_mtime n
    | None => false
    end in
  p <> cache_filename s ->
  contains is_nl p = false ->
  fs_get p (fs s) = Some n ->
  stdout_encodes p = true ->
  exists s',
    scan_file path s = (Ret tt, s')
    /\ cache s' = cache s
    /\ fs s' = fs s
    /\ cache_filename s' = cache_filename s
    /\ queue s' = queue s
                  ++ (if unmodified then []
                      else [Some (p, WriteChecksum p (n_mtime n))]).
Proof.
  intros p unmodified Hown Hnl Hfs Henc. apply bytes_eqb_neq in Hown.
  unfold scan_file, os_isfile, os_stat, warn, queue_put, print_names.
  run. fold p.
  rewrite Hown, Hnl, Hfs. destruct (n_regular n); cbn; rewrite Hfs; cbn;
    fold unmodified; destruct unmodified; cbn; rewrite ?Henc; cbn;
    eexists; (split; [reflexivity|]); cbn;
    rewrite ?app_nil_r; auto.
Qed.

(** X12: once a file whose name the standard output can encode has been
    scanned and its job completed by a worker, scanning the same unchanged
    file again puts no job on the queue and leaves the cache as it is. *)
Theorem scan_twice_no_rehash (path : bytes) (s : state) (n : node)
        (data : bytes) :
  let p := real_path path in
  let s1 := snd (scan_file path s) in
  let s2 := snd (HashThread_run s1) in
  p <> cache_filename s ->
  contains is_nl p = false ->
  fs_get p (fs s) = Some n ->
  n_data n = Some data ->
  stdout_encodes p = true ->
  queue s = [] ->
  exists cache_mtime checksum,
    dict_get p (cache s2) = Some (cache_mtime, checksum)
    /\ n_mtime n <= cache_mtime
    /\ fst (scan_file path s2) = Ret tt
    /\ queue (snd (scan_file path s2)) = []
    /\ cache (snd (scan_file path s2)) = cache s2.
Proof.
  intros p s1 s2 Hown Hnl Hfs Hdata Henc Hq.
  destruct (scan_file_existing path s n Hown Hnl Hfs Henc)
    as (s1' & Hrun1 & Hc1 & Hf1 & Hcf1 & Hq1).
  assert (Hs1 : s1 = s1') by (unfold s1; rewrite Hrun1; reflexivity).
  clearbody s1. subst s1'. rewrite Hq in Hq1. cbn [app] in Hq1.
  assert (Hd : file_digest (fs s1) p = Some (md5 data)).
  { unfold file_digest. rewrite Hf1. fold p in Hfs. rewrite Hfs, Hdata.
    reflexivity. }
  assert (Hs2 : exists s2' cm ck,
             HashThread_run s1 = (Ret Waiting, s2')
             /\ dict_get p (cache s2') = Some (cm, ck) /\ n_mtime n <= cm
             /\ fs s2' = fs s /\ cache_filename s2' = cache_filename s
             /\ queue s2' = []).
  { unfold HashThread_run. unfold bind at 1. cbn [gets].
    fold p in Hq1.
    destruct (dict_get p (cache s)) as [[cm ck]|] eqn:Hget.
    - destruct (cm >=? n_mtime n) eqn:Hge; rewrite Hq1.
      + cbn [run_jobs ret]. exists s1, cm, ck. rewrite Hc1.
        repeat split; auto. apply Z.geb_le in Hge. lia.
      + cbn [run_jobs]. unfold bind at 1. cbn [modify]. unfold bind at 1.
        rewrite (hash_file_ok p (md5 data)) by exact Hd. run.
        eexists. exists (n_mtime n), (md5 data).
        split; [reflexivity|]. cbn.
        rewrite dict_get_set_same. repeat split; auto. lia.
    - rewrite Hq1.
      cbn [run_jobs]. unfold bind at 1. cbn [modify]. unfold bind at 1.
      rewrite (hash_file_ok p (md5 data)) by exact Hd. run.
      eexists. exists (n_mtime n), (md5 data).
      split; [reflexivity|]. cbn.
      rewrite dict_get_set_same. repeat split; auto. lia. }
  destruct Hs2 as (s2' & cm & ck & Hrun2 & Hget & Hle & Hf2 & Hcf2 & Hq2).
  assert (Hs2 : s2 = s2') by (unfold s2; rewrite Hrun2; reflexivity).
  clearbody s2. subst s2'.
  exists cm, ck. split; [exact Hget|]. split; [exact Hle|].
  assert (Hown2 : p <> cache_filename s2) by (rewrite Hcf2; exact Hown).
  assert (Hfs2 : fs_get p (fs s2) = Some n) by (rewrite Hf2; exact Hfs).
  destruct (scan_file_existing path s2 n Hown2 Hnl Hfs2 Henc)
    as (s3 & Hrun3 & Hc3 & _ & _ & Hq3).
  rewrite Hrun3. cbn [fst snd]. fold p in Hq3. rewrite Hget in Hq3.
  replace (cm >=? n_mtime n) with true in Hq3
    by (symmetry; apply Z.geb_le; lia).
  rewrite Hq2 in Hq3. auto.
Qed.

(** X13: a path that no longer exists when [scan_file] reaches it (a file
    deleted meanwhile, a dangling link): the warning is printed, [os.stat]
    raises [FileNotFoundError], and neither the queue nor the cache has
    changed. *)
Theorem scan_file_missing (path : bytes) (s : state) :
  let p := real_path path in
  p <> cache_filename s ->
  contains is_nl p = false ->
  fs_get p (fs s) = None ->
  exists s',
    scan_file path s = (Raise FileNotFoundError, s')
    /\ queue s' = queue s
    /\ cache s' = cache s
    /\ log s' = log s ++ [EvIsFile p; EvPrint MsgWarning; EvStat p].
Proof.
  intros p Hown Hnl Hfs. apply bytes_eqb_neq in Hown.
  unfold scan_file, os_isfile, os_stat, warn. run. fold p.
  rewrite Hown, Hnl, Hfs. cbn. rewrite Hfs. cbn.
  eexists. split; [reflexivity|]. cbn. rewrite <- !app_assoc. auto.
Qed.

(* ================================================================== *)
(** ** The duplicate resolver: what is deleted, and what is not *)

Lemma dict_get_in (k : bytes) (v : entry) (d : dict) :
  In (k, v) d -> dict_get k d <> None.
Proof.
  induction d as [|[k' v'] d IH]; cbn; intros H; [destruct H|].
  destruct (bytes_eqb k k') eqn:E; [discriminate|].
  destruct H as [H|H]; [|exact (IH H)].
  injection H as -> ->. rewrite bytes_eqb_refl in E. discriminate E.
Qed.

Lemma dict_get_none (k : bytes) (d : dict) :
  dict_get k d = None <-> ~ In k (map fst d).
Proof.
  induction d as [|[k' v'] d IH]; cbn.
  - split; auto.
  - destruct (bytes_eqb k k') eqn:E.
    + apply bytes_eqb_eq in E. subst k'. split; [discriminate|].
      intros H. exfalso. apply H. left. reflexivity.
    + apply bytes_eqb_neq in E. rewrite IH. split.
      * intros H [H1|H1]; [congruence | exact (H H1)].
      * intros H H1. apply H. right. exact H1.
Qed.

Lemma dict_del_none (k : bytes) (d : dict) :
  dict_del k d = None -> dict_get k d = None.
Proof.
  induction d as [|[k' v'] d IH]; cbn; [reflexivity|].
  destruct (bytes_eqb k k'); [discriminate|].
  destruct (dict_del k d); [discriminate|]. intros _. apply IH. reflexivity.
Qed.

Lemma dict_del_get_other (k p : bytes) (d d' : dict) :
  p <> k -> dict_del k d = Some d' -> dict_get p d' = dict_get p d.
Proof.
  intros Hne. revert d'. induction d as [|[k' v'] d IH]; intros d' H;
    cbn in H; [discriminate|].
  destruct (bytes_eqb k k') eqn:E.
  - injection H as <-. apply bytes_eqb_eq in E. subst k'. cbn.
    apply bytes_eqb_neq in Hne. rewrite Hne. reflexivity.
  - destruct (dict_del k d) as [d0|]; [|discriminate].
    injection H as <-. cbn. rewrite (IH d0 eq_refl). reflexivity.
Qed.

Lemma dict_del_get_same (k : bytes) (d d' : dict) :
  dict_wf d -> dict_del k d = Some d' -> dict_get k d' = None.
Proof.
  unfold dict_wf. revert d'.
  induction d as [|[k' v'] d IH]; intros d' Hwf H; cbn in H; [discriminate|].
  cbn in Hwf. inversion Hwf as [|? ? Hnotin Hwf']; subst.
  destruct (bytes_eqb k k') eqn:E.
  - injection H as <-. apply bytes_eqb_eq in E. subst k'.
    apply dict_get_none. exact Hnotin.
  - destruct (dict_del k d) as [d0|]; [|discriminate].
    injection H as <-. cbn. rewrite E. apply (IH d0 Hwf' eq_refl).
Qed.

Lemma dict_del_wf (k : bytes) (d d' : dict) :
  dict_wf d -> dict_del k d = Some d' -> dict_wf d'.
Proof.
  unfold dict_wf. revert d'.
  induction d as [|[k' v'] d IH]; intros d' Hwf H; cbn in H; [discriminate|].
  cbn in Hwf. inversion Hwf as [|? ? Hnotin Hwf']; subst.
  destruct (bytes_eqb k k') eqn:E.
  - injection H as <-. exact Hwf'.
  - destruct (dict_del k d) as [d0|] eqn:Hd; [|discriminate].
    injection H as <-. cbn. constructor; [|apply (IH d0 Hwf' eq_refl)].
    apply dict_get_none. apply bytes_eqb_neq in E.
    rewrite (dict_del_get_other k k' d d0) by congruence.
    apply dict_get_none. exact Hnotin.
Qed.

Lemma fs_remove_none (p q : bytes) (files : filesystem) :
  fs_get p files = None -> fs_get p (fs_remove q files) = None.
Proof.
  induction files as [|[p' n] files IH]; cbn; [reflexivity|].
  destruct (bytes_eqb p p') eqn:E; [discriminate|]. intros H.
  destruct (bytes_eqb q p'); cbn; [exact (IH H)|].
  rewrite E. exact (IH H).
Qed.

Lemma content_of (d f c : bytes) (m : Z) (items : dict) :
  In (f, (m, c)) items -> dirname f = d ->
  In (f, c) (fst (partition_cache d items [] [])).
Proof.
  intros Hin Hd. rewrite partition_content. cbn [app].
  apply in_map_iff. exists (f, (m, c)). split; [reflexivity|].
  apply filter_In. split; [exact Hin|].
  unfold in_dir. cbn. apply bytes_eqb_eq. exact Hd.
Qed.

Lemma groups_apart (d : bytes) (items : dict) (k g : bytes) :
  In g (groups_get k (snd (partition_cache d items [] []))) ->
  ~ In g (map fst (fst (partition_cache d items [] []))).
Proof.
  intros Hg Hc. apply groups_in in Hg. destruct Hg as (Hne & _).
  apply in_map_iff in Hc. destruct Hc as ([g' c] & Heq & Hin).
  cbn in Heq. subst g'. apply content_in in Hin. apply Hne, Hin.
Qed.

Lemma file_digest_fs_get (files files' : filesystem) (p : bytes) :
  fs_get p files' = fs_get p files ->
  file_digest files' p = file_digest files p.
Proof. unfold file_digest. intros ->. reflexivity. Qed.

(** What a turn that unlinks has checked, and what any turn can add to the
    log. *)
Lemma loop_step_checked remove byhash f c s r s' :
  loop_step remove byhash f c s r s' ->
  exists evs,
    log s' = log s ++ evs
    /\ Forall loop_event evs
    /\ (forall p, In (EvUnlink p) evs ->
                  p = f
                  /\ exists copy more,
                      groups_get c byhash = copy :: more
                      /\ file_digest (fs s) copy = Some c).
Proof.
  intros H. destruct H; subst;
    match goal with
    | H : log _ = log _ ++ ?l |- _ => exists l; split; [exact H|]
    | |- context [log (set_log (_ ++ ?l) _)] =>
        exists l; split; [reflexivity|]
    | |- _ => exists []; split; [symmetry; apply app_nil_r|]
    end;
    (split; [repeat constructor|]);
    intros p Hin; in_cases; try discriminate.
  injection Hin as <-. split; [reflexivity|]. eauto.
Qed.

Lemma loop_run_checked remove byhash content s r s' :
  (forall k g, In g (groups_get k byhash) -> ~ In g (map fst content)) ->
  loop_run remove byhash content s r s' ->
  exists evs,
    log s' = log s ++ evs
    /\ Forall loop_event evs
    /\ (forall p, In (EvUnlink p) evs ->
                  exists c copy more,
                    In (p, c) content
                    /\ groups_get c byhash = copy :: more
                    /\ file_digest (fs s) copy = Some c).
Proof.
  intros Hapart Hrun.
  induction Hrun
    as [s | f c rest s s1 r s' Hstep Hrun IH | f c rest s e s' Hstep].
  - exists []. rewrite app_nil_r. repeat split; [constructor|].
    intros p [].
  - destruct (loop_step_checked _ _ _ _ _ _ _ Hstep)
      as (e1 & Hl1 & Hk1 & Hu1).
    destruct (loop_step_frame _ _ _ _ _ _ _ Hstep) as (_ & _ & _ & _ & Hp1).
    destruct IH as (e2 & Hl2 & Hk2 & Hu2).
    { intros k g Hg Hin. apply (Hapart k g Hg). cbn. right. exact Hin. }
    exists (e1 ++ e2). rewrite Hl2, Hl1, app_assoc.
    split; [reflexivity|]. split; [apply Forall_app; auto|].
    intros p Hin. apply in_app_or in Hin. destruct Hin as [Hin|Hin].
    + destruct (Hu1 p Hin) as (-> & copy & more & Hg & Hd).
      exists c, copy, more. split; [left; reflexivity | auto].
    + destruct (Hu2 p Hin) as (c' & copy & more & Hc' & Hg & Hd).
      exists c', copy, more. split; [right; exact Hc'|].
      split; [exact Hg|]. rewrite <- Hd. symmetry.
      apply file_digest_fs_get. apply Hp1. intros ->.
      apply (Hapart c' f); [rewrite Hg; left; reflexivity|].
      cbn. left. reflexivity.
  - destruct (loop_step_checked _ _ _ _ _ _ _ Hstep)
      as (e1 & Hl1 & Hk1 & Hu1).
    exists e1. split; [exact Hl1|]. split; [exact Hk1|].
    intros p Hin. destruct (Hu1 p Hin) as (-> & copy & more & Hg & Hd).
    exists c, copy, more. split; [left; reflexivity | auto].
Qed.

(** X14: nothing is deleted unverified.  Every path [remove_dir] unlinks
    is a target entry of the cache, and a cache entry outside the target
    directory carries the same checksum and is a file whose content had
    that digest when the run began and still has it when the run ends. *)
Theorem remove_dir_deletes_only_verified (remove : bool) (directory : bytes)
        (s : state) :
  let d := real_path directory in
  let s' := snd (remove_dir remove directory s) in
  exists evs,
    log s' = log s ++ evs
    /\ forall p, In (EvUnlink p) evs ->
                 exists m c copy m',
                   In (p, (m, c)) (cache s)
                   /\ dirname p = d
                   /\ In (copy, (m', c)) (cache s)
                   /\ dirname copy <> d
                   /\ file_digest (fs s) copy = Some c
                   /\ file_digest (fs s') copy = Some c.
Proof.
  intros d s'.
  destruct (remove_dir_run remove directory s)
    as (r1 & s1 & tail & Hrun & _ & Hl & Hfs & _ & _ & Htail & _).
  fold d in Hrun. fold s' in Hl, Hfs.
  destruct (loop_run_checked _ _ _ _ _ _ (groups_apart d (cache s)) Hrun)
    as (evs & Hl1 & _ & Hu).
  destruct (loop_run_frame _ _ _ _ _ _ Hrun) as (_ & _ & Hframe).
  exists (evs ++ tail). split; [rewrite Hl, Hl1, app_assoc; reflexivity|].
  intros p Hin. apply in_app_or in Hin. destruct Hin as [Hin|Hin].
  2:{ exfalso. exact (closing_not_unlink tail p Htail Hin). }
  destruct (Hu p Hin) as (c & copy & more & Hc & Hg & Hd).
  destruct (content_in d p c (cache s) Hc) as (Hdir & m & Hm).
  assert (Hcopy : In copy (groups_get c (snd (partition_cache d (cache s)
                                                              [] []))))
    by (rewrite Hg; left; reflexivity).
  destruct (groups_in d c copy (cache s) Hcopy) as (Hout & m' & Hm').
  exists m, c, copy, m'. repeat split; auto.
  rewrite <- Hd. apply file_digest_fs_get. rewrite Hfs.
  apply (Hframe copy). intros c0 Hc0. exfalso.
  apply (groups_apart d (cache s) c copy Hcopy).
  apply in_map_iff. exists (copy, c0). split; [reflexivity | exact Hc0].
Qed.

Lemma remove_dir_dry (directory : bytes) (s : state) :
  let d := real_path directory in
  exists r1 s1 tail,
    loop_run false (snd (partition_cache d (cache s) [] []))
             (fst (partition_cache d (cache s) [] [])) s r1 s1
    /\ log (snd (remove_dir false directory s)) = log s1 ++ tail
    /\ fs (snd (remove_dir false directory s)) = fs s1
    /\ cache (snd (remove_dir false directory s)) = cache s1
    /\ Forall (fun ev => exists m, ev = EvPrint m) tail.
Proof.
  intros d.
  pose proof (remove_loop_run false (snd (partition_cache d (cache s) [] []))
                              (fst (partition_cache d (cache s) [] []))
                              0 s) as Hrun.
  destruct (remove_dir false directory s) as [r s'] eqn:Hrd.
  cbn [fst snd].
  unfold remove_dir in Hrd. fold d in Hrd.
  unfold bind at 1 in Hrd. cbn [gets] in Hrd.
  destruct (partition_cache d (cache s) [] []) as [ct bh].
  cbn [fst snd] in Hrun.
  unfold bind at 1 in Hrd.
  destruct (remove_loop false bh ct 0 s) as [[n|e] s1];
    cbn [fst snd forget] in Hrun.
  - exists (Ret tt), s1.
    unfold bind, ret, raise, gets, modify, print, emit in Hrd.
    destruct n; cbn in Hrd; injection Hrd as <- <-; cbn;
      eexists; (split; [exact Hrun|]); rewrite <- ?app_assoc;
      (split; [reflexivity|]); (split; [reflexivity|]);
      (split; [reflexivity|]);
      repeat (constructor; [eexists; reflexivity|]); constructor.
  - injection Hrd as <- <-. exists (Raise e), s1, [].
    rewrite app_nil_r. repeat split; auto.
Qed.

(** X15: in dry-run mode [remove_dir] changes neither the file system
    nor the cache and calls neither [os.unlink] nor [os.rmdir], however
    the run ends. *)
Theorem remove_dir_dry_run (directory : bytes) (s : state) :
  let s' := snd (remove_dir false directory s) in
  fs s' = fs s
  /\ cache s' = cache s
  /\ exists evs,
      log s' = log s ++ evs
      /\ forall p, ~ In (EvUnlink p) evs /\ ~ In (EvRmdir p) evs.
Proof.
  intros s'.
  destruct (remove_dir_dry directory s)
    as (r1 & s1 & tail & Hrun & Hl & Hfs & Hc & Htail).
  fold s' in Hl, Hfs, Hc.
  destruct (loop_run_frame _ _ _ _ _ _ Hrun) as (_ & Hdry & _).
  destruct (Hdry eq_refl) as (Hfs1 & Hc1).
  destruct (loop_run_log _ _ _ _ _ _ Hrun) as (evs & Hl1 & Hu & _).
  destruct (loop_run_checked
              _ _ _ _ _ _
              (groups_apart (real_path directory) (cache s)) Hrun)
    as (evs' & Hl1' & Hkind & _).
  assert (evs' = evs) by (apply (app_inv_head (log s)); congruence).
  subst evs'.
  split; [congruence|]. split; [congruence|].
  exists (evs ++ tail). split; [rewrite Hl, Hl1, app_assoc; reflexivity|].
  rewrite Forall_forall in Hkind, Htail.
  intros p. split; intros Hin; apply in_app_or in Hin;
    destruct Hin as [Hin|Hin].
  - destruct (Hu p Hin) as (Hr & _). discriminate Hr.
  - destruct (Htail _ Hin) as (m & Hm). discriminate Hm.
  - exact (Hkind _ Hin).
  - destruct (Htail _ Hin) as (m & Hm). discriminate Hm.
Qed.

Lemma dict_del_some (k : bytes) (d d' : dict) :
  dict_del k d = Some d' -> dict_get k d <> None.
Proof.
  revert d'. induction d as [|[k' v'] d IH]; intros d' H; cbn in H |- *;
    [discriminate|].
  destruct (bytes_eqb k k'); [discriminate|].
  destruct (dict_del k d) as [d0|]; [|discriminate].
  apply (IH d0 eq_refl).
Qed.

(** What a turn leaves absent, and what it has made absent. *)
Lemma loop_step_shrinks remove byhash f c s r s' :
  loop_step remove byhash f c s r s' ->
  (forall p, fs_get p (fs s) = None -> fs_get p (fs s') = None)
  /\ (forall p, dict_get p (cache s) = None -> dict_get p (cache s') = None)
  /\ (dict_wf (cache s) -> dict_wf (cache s'))
  /\ (forall p, p <> f -> dict_get p (cache s') = dict_get p (cache s))
  /\ (remove = true -> r = Ret tt -> groups_get c byhash <> [] ->
      dict_wf (cache s) ->
      fs_get f (fs s') = None /\ dict_get f (cache s') = None).
Proof.
  intros H. destruct H; subst; cbn;
    try (repeat split; auto; congruence).
  match goal with
  | Hf : fs _ = _, Hd : dict_del _ _ = Some _ |- _ =>
      rewrite Hf; repeat split
  end.
  - intros p Hp. apply fs_remove_none. exact Hp.
  - intros p Hp. destruct (bytes_eqb p f) eqn:E.
    + apply bytes_eqb_eq in E. subst p. exfalso.
      eapply dict_del_some; eauto.
    + apply bytes_eqb_neq in E.
      erewrite dict_del_get_other; eauto.
  - intros Hwf. eapply dict_del_wf; eauto.
  - intros p Hp. eapply dict_del_get_other; eauto.
  - apply fs_get_remove_same.
  - eapply dict_del_get_same; eauto.
Qed.

Lemma loop_run_shrinks remove byhash content s r s' :
  loop_run remove byhash content s r s' ->
  (forall p, fs_get p (fs s) = None -> fs_get p (fs s') = None)
  /\ (forall p, dict_get p (cache s) = None -> dict_get p (cache s') = None)
  /\ (dict_wf (cache s) -> dict_wf (cache s')).
Proof.
  induction 1 as [s | f c rest s s1 r s' Hstep Hrun IH | f c rest s e s' Hstep].
  - auto.
  - destruct (loop_step_shrinks _ _ _ _ _ _ _ Hstep) as (A1 & A2 & A3 & _).
    destruct IH as (B1 & B2 & B3). auto.
  - destruct (loop_step_shrinks _ _ _ _ _ _ _ Hstep) as (A1 & A2 & A3 & _).
    auto.
Qed.




Lemma loop_run_removed byhash content s s' :
  loop_run true byhash content s (Ret tt) s' ->
  dict_wf (cache s) ->
  forall f c, In (f, c) content -> groups_get c byhash <> [] ->
              fs_get f (fs s') = None /\ dict_get f (cache s') = None.
Proof.
  intros Hrun. remember (Ret tt) as r eqn:Hr in Hrun.
  induction Hrun
    as [s | f0 c0 rest s s1 r s' Hstep Hrun IH | f0 c0 rest s e s' Hstep];
    intros Hwf f c Hin Hg.
  - destruct Hin.
  - destruct (loop_step_shrinks _ _ _ _ _ _ _ Hstep)
      as (_ & _ & Hwf1 & _ & Hgone).
    destruct Hin as [Heq|Hin].
    + injection Heq as -> ->.
      destruct (Hgone eq_refl eq_refl Hg Hwf) as (Hf & Hc).
      destruct (loop_run_shrinks _ _ _ _ _ _ Hrun) as (B1 & B2 & _).
      auto.
    + apply (IH Hr (Hwf1 Hwf) f c Hin Hg).
  - discriminate Hr.
Qed.

(** X16: in destructive mode, when [remove_dir] returns, every target
    entry that has a copy outside the target directory is gone, from the
    file system and from the cache. *)
Theorem remove_dir_removes_duplicates (directory : bytes) (s : state)
        (f : bytes) (mtime : Z) (checksum : bytes) :
  let d := real_path directory in
  let byhash := snd (partition_cache d (cache s) [] []) in
  let s' := snd (remove_dir true directory s) in
  dict_wf (cache s) ->
  fst (remove_dir true directory s) = Ret tt ->
  In (f, (mtime, checksum)) (cache s) ->
  dirname f = d ->
  groups_get checksum byhash <> [] ->
  fs_get f (fs s') = None /\ dict_get f (cache s') = None.
Proof.
  intros d byhash s' Hwf Hret Hin Hdir Hg.
  destruct (remove_dir_run true directory s)
    as (r1 & s1 & tail & Hrun & Hr & _ & Hfs & Hc & _).
  fold d in Hrun. fold byhash in Hrun. fold s' in Hfs, Hc.
  assert (Hr1 : r1 = Ret tt).
  { destruct Hr as [Hr|(Hr & _)]; [|exact Hr].
    rewrite Hret in Hr. symmetry. exact Hr. }
  subst r1. rewrite Hfs, Hc.
  apply (loop_run_removed _ _ _ _ Hrun Hwf f checksum); [|exact Hg].
  apply (content_of d f checksum mtime); assumption.
Qed.

Lemma remove_loop_count remove byhash content n s :
  forall k s',
    remove_loop remove byhash content n s = (Ret k, s') ->
    k = (n + List.length (filter (has_copy byhash) content))%nat.
Proof.
  revert n s. induction content as [|[f c] rest IH]; intros n s k s' H.
  - cbn in H. injection H as <- _. cbn. lia.
  - destruct (remove_loop_cons remove byhash f c rest n s)
      as (r1 & s1 & _ & Heq).
    rewrite Heq in H. destruct r1 as [[]|e]; [|discriminate H].
    apply IH in H. rewrite H. cbn [filter]. unfold counted, has_copy.
    cbn [snd]. destruct (groups_get c byhash); cbn [List.length]; lia.
Qed.

(** X17: when [remove_dir] returns, the number it prints is the number of
    target entries that have a copy outside the target directory, in
    dry-run mode as in destructive mode; with none, "No file removed" is
    printed. *)
Theorem remove_dir_reports_count (remove : bool) (directory : bytes)
        (s : state) :
  let d := real_path directory in
  let content := fst (partition_cache d (cache s) [] []) in
  let byhash := snd (partition_cache d (cache s) [] []) in
  let k := List.length (filter (has_copy byhash) content) in
  fst (remove_dir remove directory s) = Ret tt ->
  exists evs,
    log (snd (remove_dir remove directory s)) = log s ++ evs
    /\ In (EvPrint (match k with
                    | O => MsgNoFileRemoved
                    | _ => MsgRemoved k
                    end)) evs.
Proof.
  intros d content byhash k.
  pose proof (remove_loop_run remove byhash content 0 s) as Hrun.
  pose proof (remove_loop_count remove byhash content 0 s) as Hcount.
  subst k content byhash.
  destruct (remove_dir remove directory s) as [r s'] eqn:Hrd.
  cbn [fst snd]. intros ->.
  unfold remove_dir in Hrd. fold d in Hrd.
  unfold bind at 1 in Hrd. cbn [gets] in Hrd.
  destruct (partition_cache d (cache s) [] []) as [ct bh].
  cbn [fst snd] in Hrun, Hcount |- *.
  unfold bind at 1 in Hrd.
  destruct (remove_loop remove bh ct 0 s) as [[n|e] s1];
    cbn [fst snd forget] in Hrun; [|discriminate Hrd].
  specialize (Hcount n s1 eq_refl). cbn [Nat.add] in Hcount.
  rewrite <- Hcount.
  destruct (loop_run_log _ _ _ _ _ _ Hrun) as (evs & Hl1 & _).
  unfold os_rmdir, print_names, bind, ret, raise, gets, modify, print, emit,
    try_except in Hrd.
  destruct n, remove; cbn in Hrd;
    try destruct (rmdir_ok (fs s1) d); cbn in Hrd;
    try destruct (stdout_encodes d); cbn in Hrd; try discriminate Hrd;
    injection Hrd as <-; cbn; rewrite Hl1, <- ?app_assoc;
    eexists; (split; [reflexivity|]);
    apply in_or_app; right; left; reflexivity.
Qed.

Lemma loop_run_outcomes remove byhash content s r s' :
  NoDup (map fst content) ->
  (forall f c, In (f, c) content -> dict_get f (cache s) <> None) ->
  loop_run remove byhash content s r s' ->
  r <> Raise KeyError.
Proof.
  intros Hnd Hkeys Hrun. revert Hnd Hkeys.
  induction Hrun
    as [s | f c rest s s1 r s' Hstep Hrun IH | f c rest s e s' Hstep];
    intros Hnd Hkeys.
  - discriminate.
  - cbn in Hnd. inversion Hnd as [|? ? Hnotin Hnd']; subst.
    apply IH; [exact Hnd'|].
    intros f' c' Hin.
    destruct (loop_step_shrinks _ _ _ _ _ _ _ Hstep) as (_ & _ & _ & Hsame & _).
    rewrite Hsame.
    + apply (Hkeys f' c'). right. exact Hin.
    + intros ->. apply Hnotin. apply in_map_iff.
      exists (f, c'). split; [reflexivity | exact Hin].
  - inversion Hstep; subst; try discriminate.
    + intros E. injection E as ->.
      match goal with
      | H : is_OSError _ = true |- _ => discriminate H
      end.
    + exfalso. apply (Hkeys f c); [left; reflexivity|].
      apply dict_del_none. assumption.
Qed.

(** X18: on a cache with distinct keys [remove_dir] never ends on
    [KeyError]: [del self.cache[filename]] always finds its key, since
    [content] lists each key of the cache once at most and a turn deletes
    the key of its own entry only. *)
Theorem remove_dir_no_KeyError (remove : bool) (directory : bytes)
        (s : state) :
  dict_wf (cache s) ->
  fst (remove_dir remove directory s) <> Raise KeyError.
Proof.
  intros Hwf.
  destruct (remove_dir_run remove directory s)
    as (r1 & s1 & tail & Hrun & Hr & _).
  destruct Hr as [Hr|(_ & Hr)]; rewrite Hr; [|discriminate].
  refine (loop_run_outcomes remove _ _ s r1 s1 _ _ Hrun);
    [apply content_NoDup; exact Hwf|].
  intros f c Hin. apply content_in in Hin. destruct Hin as (_ & m & Hm).
  apply (dict_get_in f (m, c)). exact Hm.
Qed.

(* ================================================================== *)
(** ** When [main] writes the cache file *)

Lemma adds_weaken {A} (P Q : event -> Prop) (m : M A) :
  (forall ev, P ev -> Q ev) -> adds P m -> adds Q m.
Proof.
  intros HPQ Hm s. destruct (Hm s) as (evs & Hl & HP).
  exists evs. split; [exact Hl|].
  rewrite Forall_forall in *. auto.
Qed.

Lemma benign_not_write_event (ev : event) : benign ev -> not_write ev.
Proof. destruct ev; cbn; auto. Qed.

Lemma scan_file_benign path : adds benign (scan_file path).
Proof.
  unfold scan_file, os_isfile, os_stat, warn, queue_put. cbv zeta.
  apply adds_bind; [repeat adds_step|]. intros own.
  destruct (bytes_eqb _ _); [repeat adds_step|].
  destruct (contains _ _); [repeat adds_step|].
  apply adds_bind; [repeat adds_step|]. intros regular.
  apply adds_bind; [destruct (negb regular); repeat adds_step|]. intros _.
  apply adds_bind; [repeat adds_step|]. intros filestat.
  apply adds_bind; [repeat adds_step|]. intros c.
  destruct (match dict_get _ c with Some _ => _ | None => _ end);
    repeat adds_step.
Qed.

Lemma scan_benign directories : adds benign (scan directories).
Proof.
  unfold scan. apply adds_bind; [|intros; repeat adds_step].
  apply adds_for_each. intros directory. unfold scan_directory.
  apply adds_bind; [repeat adds_step|]. intros files.
  apply adds_for_each. intros path. apply scan_file_benign.
Qed.

Lemma remove_dir_not_write remove directory :
  adds not_write (remove_dir remove directory).
Proof.
  intros s. destruct (remove_dir_log remove directory s) as (evs & Hl & Hw & _).
  exists evs. split; [exact Hl|]. apply Forall_forall.
  intros ev Hin. destruct ev; cbn; auto. exact (Hw _ Hin).
Qed.

Lemma write_cache_returns s : fst (write_cache s) = Ret tt.
Proof.
  unfold write_cache, write_file, cache_now. run.
  destruct (cache s); reflexivity.
Qed.

(** [main] after [parse_args], for the subcommands that load the cache:
    it ends in [write_cache], or on an exception before it. *)
Lemma main_tail (body : M unit) (s : state) :
  adds not_write body ->
  let prog :=
    read_cache ;;
    start_threads ;;
    try_finally
      (try_except body is_KeyboardInterrupt
                  (print MsgBlank ;; print MsgInterrupted))
      stop_threads ;;
    write_cache in
  (exists s4, prog s = write_cache s4)
  \/ (exists e evs,
         fst (prog s) = Raise e
         /\ log (snd (prog s)) = log s ++ evs
         /\ Forall not_write evs).
Proof.
  intros Hbody prog.
  assert (Hpre : adds not_write
                      (read_cache ;;
                       start_threads ;;
                       try_finally
                         (try_except body is_KeyboardInterrupt
                                     (print MsgBlank ;; print MsgInterrupted))
                         stop_threads)).
  { apply adds_bind;
      [apply (adds_weaken benign); [apply benign_not_write_event
                                   |apply read_cache_benign]|].
    intros _. apply adds_bind;
      [apply (adds_weaken benign); [apply benign_not_write_event
                                   |apply start_threads_benign]|].
    intros _. apply adds_try_finally.
    - apply adds_try_except; [exact Hbody | repeat adds_step].
    - apply (adds_weaken benign); [apply benign_not_write_event
                                  |apply stop_threads_benign]. }
  destruct (Hpre s) as (evs & Hl & Hw). clear Hpre.
  subst prog. unfold bind in Hl |- *.
  destruct (read_cache s) as [[[]|e] s1]; cbn [fst snd] in *;
    [|right; exists e, evs; auto].
  destruct (start_threads s1) as [[[]|e] s2]; cbn [fst snd] in *;
    [|right; exists e, evs; auto].
  destruct (try_finally _ stop_threads s2) as [[[]|e] s3];
    cbn [fst snd] in *; [|right; exists e, evs; auto].
  left. exists s3. reflexivity.
Qed.

Lemma main_shape (args : action) (s : state) :
  (exists s4, main args s = write_cache s4)
  \/ (exists e evs,
         fst (main args s) = Raise e
         /\ log (snd (main args s)) = log s ++ evs
         /\ Forall not_write evs).
Proof.
  set (s0 := set_cache_filename (real_path (expanduser (cache_filename s))) s).
  change (log s) with (log s0).
  destruct args as [directories | remove directory | |].
  - apply (main_tail (scan directories) s0).
    apply (adds_weaken benign); [apply benign_not_write_event
                                |apply scan_benign].
  - apply (main_tail (remove_dir remove directory) s0).
    apply remove_dir_not_write.
  - right.
    assert (Heq : main ActRemoveCache s
                  = (remove_cache ;; @sys_exit unit 0) s0) by reflexivity.
    rewrite Heq.
    assert (H : adds not_write (remove_cache ;; @sys_exit unit 0)).
    { apply (adds_weaken benign); [apply benign_not_write_event|].
      apply adds_bind; [apply remove_cache_benign | intros; apply adds_raise]. }
    destruct (H s0) as (evs & Hl & Hw).
    unfold bind in Hl |- *.
    destruct (remove_cache s0) as [[[]|e] s1]; cbn [fst snd] in *.
    + exists (SystemExit 0), evs. auto.
    + exists e, evs. auto.
  - apply (main_tail (ret tt) s0). repeat adds_step.
Qed.

(** X19: whatever the subcommand, a run of [main] that ends on an
    exception (a [sys.exit], a [ValueError] of the scanner, an [OSError])
    has opened no file for writing: the cache file is written only when
    [main] returns. *)
Theorem main_writes_only_on_return (args : action) (s : state) (e : exn) :
  fst (main args s) = Raise e ->
  exists evs,
    log (snd (main args s)) = log s ++ evs
    /\ forall p, ~ In (EvOpenWrite p) evs.
Proof.
  intros Hraise.
  destruct (main_shape args s) as [(s4 & Heq) | (e' & evs & _ & Hl & Hw)].
  - rewrite Heq, write_cache_returns in Hraise. discriminate Hraise.
  - exists evs. split; [exact Hl|]. intros p Hin.
    rewrite Forall_forall in Hw. exact (Hw _ Hin).
Qed.

(** X20: when [main] returns with a cache that is not empty, the cache
    file holds that cache: the header line, the time of the write, and one
    record for each entry, in cache order. *)
Theorem main_persists_on_return (args : action) (s : state) :
  let s' := snd (main args s) in
  fst (main args s) = Ret tt ->
  cache s' <> [] ->
  exists n,
    fs_get (cache_filename s') (fs s') = Some n
    /\ n_data n = Some (cache_file_data (clock s') (cache s')).
Proof.
  intros s' Hret Hne.
  destruct (main_shape args s) as [(s4 & Heq) | (e' & evs & Hr & _)];
    [|rewrite Hret in Hr; discriminate Hr].
  unfold s' in *. rewrite Heq in Hne |- *.
  destruct (write_cache_frame s4) as (_ & Hc & Hcf & Hck & _).
  rewrite Hc in Hne.
  destruct (write_cache_nonempty s4 Hne) as (_ & n & Hput & Hdata).
  exists n. rewrite Hcf, Hck, Hc, Hput. split; [|exact Hdata].
  apply fs_get_put_same.
Qed.

(** X8: the test of the first loop of [remove_dir] takes the direct
    children of the target directory only: an entry [directory/name] is a
    target entry, an entry [directory/sub/name] is not (it is grouped with
    the entries found elsewhere). *)
Theorem target_entries_are_direct_children
        (d sub name : bytes) (x y : byte) (e e' : entry) :
  contains is_sep name = false ->
  is_sep x = false ->
  is_sep y = false ->
  in_dir (d ++ [x]) ((d ++ [x]) ++ SEP :: name, e) = true
  /\ in_dir (d ++ [x])
            ((d ++ [x]) ++ SEP :: (sub ++ [y]) ++ SEP :: name, e') = false.
Proof.
  intros Hn Hx Hy. unfold in_dir. cbn [fst]. split.
  - destruct (dirname_join d name x Hn Hx) as (-> & _).
    apply bytes_eqb_refl.
  - replace ((d ++ [x]) ++ SEP :: (sub ++ [y]) ++ SEP :: name)
      with ((((d ++ [x]) ++ SEP :: sub) ++ [y]) ++ SEP :: name)
      by (rewrite <- ?app_assoc; cbn [app]; rewrite <- ?app_assoc;
          cbn [app]; reflexivity).
    destruct (dirname_join ((d ++ [x]) ++ SEP :: sub) name y Hn Hy)
      as (-> & _).
    apply bytes_eqb_neq. intros H.
    apply (f_equal (@List.length byte)) in H.
    repeat (rewrite length_app in H; cbn [List.length] in H). lia.
Qed.

End App.

(* ================================================================== *)
(** ** The program on the sample worlds *)

Ltac wf_sample :=
  unfold dict_wf; cbn;
  repeat (constructor; [cbn; intros H; repeat destruct H as [H|H];
                        solve [discriminate H | destruct H] |]);
  constructor.



(** C2 fails as stated: the worker of [worker_state] meets the vanished
    file first and ends on [FileNotFoundError]; nothing is printed, the job
    for the readable file [/x/ok] is still in the queue and its checksum was
    not recorded. *)
Lemma worker_dies_on_unreadable_file :
  let out := HashThread_run sample_md5 worker_state in
  fst out = Raise FileNotFoundError
  /\ queue (snd out) = [Some job_ok; None]
  /\ cache (snd out) = []
  /\ log (snd out) = [EvOpenRead (B "/x/gone")]
  /\ existsb is_warning (log (snd out)) = false.
Proof. vm_compute. repeat split. Qed.

Lemma run_jobs_stops_at_error_witness :
  Forall (fun j => file_digest sample_md5 (fs worker_state_ok_first) (fst j)
                   <> None) [job_ok]
  /\ file_digest sample_md5 (fs worker_state_ok_first) (B "/x/gone") = None
  /\ exists e s',
      run_jobs sample_md5 (map Some [job_ok] ++ Some job_gone :: [None])
               worker_state_ok_first = (Raise e, s')
      /\ is_OSError e = true
      /\ queue s' = [None]
      /\ cache s' = [(B "/x/ok", (2, B "data"))]
      /\ log s' = [EvOpenRead (B "/x/ok"); EvOpenRead (B "/x/gone")].
Proof.
  assert (H1 : Forall (fun j => file_digest sample_md5
                                            (fs worker_state_ok_first) (fst j)
                                <> None) [job_ok]).
  { constructor; [|constructor]. vm_compute. discriminate. }
  split; [exact H1|]. split; [reflexivity|].
  destruct (run_jobs_stops_at_error
              sample_md5 [job_ok] (B "/x/gone")
              (WriteChecksum (B "/x/gone") 1) [None]
              worker_state_ok_first H1 eq_refl)
    as (e & s' & Hrun & He & Hq & Hc & Hl & _).
  exists e, s'. repeat split; assumption.
Defined.

(** C3 fails as stated: [main] on [stale_start] loads the stale cache,
    deletes [/t/a] and drops its entry, meets the changed copy of [/t/b]
    and ends on [sys.exit(1)].  The cache in memory now differs from the
    cache file, which nothing has opened for writing and which still holds
    the bytes of the earlier run. *)
Lemma main_stale_exit_loses_cache :
  let out := main sample_md5 sample_real_path sample_expanduser sample_walk
                  sample_rmdir_ok (Some 2%nat) sample_stdout sample_lower
                  sample_stdout_repr (ActRemoveDir true (B "/t"))
                  stale_start in
  fst out = Raise (SystemExit 1)
  /\ cache (snd out) = [ (B "/t/b", (1, B "B")); (B "/o/a", (1, B "A"));
                         (B "/o/b", (1, B "B")) ]
  /\ existsb is_open_write (log (snd out)) = false
  /\ fs_get sample_cache_filename (fs (snd out))
     = Some (file_of (cache_file_data 990 stale_cache) 990000000000).
Proof. vm_compute. repeat split. Qed.

Lemma main_stale_exit_without_write_witness :
  let out := main sample_md5 sample_real_path sample_expanduser sample_walk
                  sample_rmdir_ok (Some 2%nat) sample_stdout sample_lower
                  sample_stdout_repr (ActRemoveDir true (B "/t"))
                  stale_start in
  In (EvPrint MsgOutdatedCache) (log (snd out))
  /\ (fst out = Raise (SystemExit 1) \/ fst out = Raise UnicodeEncodeError)
  /\ (forall p, ~ In (EvOpenWrite p) (log (snd out)))
  /\ threads (snd out) = 2%nat
  /\ queue (snd out) = []
  /\ cache_filename (snd out) = sample_cache_filename
  /\ ~ In (EvUnlink sample_cache_filename) (log (snd out))
  /\ fs_get sample_cache_filename (fs (snd out))
     = fs_get sample_cache_filename (fs stale_start).
Proof.
  intros out.
  destruct (main_stale_exit_without_write
              sample_md5 sample_real_path sample_expanduser sample_walk
              sample_rmdir_ok (Some 2%nat) sample_stdout sample_lower
              sample_stdout_repr true (B "/t") stale_start)
    as (evs & Hl & H).
  fold out in Hl, H. cbn [log stale_start App_init app] in Hl.
  rewrite <- Hl in H.
  assert (Hin : In (EvPrint MsgOutdatedCache) (log (snd out))).
  { vm_compute. do 9 right. left. reflexivity. }
  assert (Hun : ~ In (EvUnlink sample_cache_filename) (log (snd out))).
  { vm_compute. intros Hx.
    repeat (destruct Hx as [Hx|Hx]; [discriminate Hx|]). exact Hx. }
  destruct (H Hin) as (Hr & Hw & _ & _ & Hq & Hcf & Hfs).
  split; [exact Hin|]. split; [exact Hr|]. split; [exact Hw|].
  split; [vm_compute; reflexivity|]. split; [exact Hq|].
  split; [vm_compute; reflexivity|]. split; [exact Hun|].
  exact (Hfs sample_cache_filename Hun).
Defined.

(** C4 fails on the code: for the named pipe [/d/pipe] the warning is
    printed and [scan_file] carries on: it calls [os.stat] and puts a
    hashing job for the pipe on the queue. *)
Theorem scan_file_hashes_non_regular_file :
  let out := scan_file sample_real_path sample_stdout (B "/d/pipe")
                       scan_state in
  let job := (B "/d/pipe", WriteChecksum (B "/d/pipe") 7) in
  fst out = Ret tt
  /\ queue (snd out) = [Some job]
  /\ log (snd out) = [ EvIsFile (B "/d/pipe"); EvPrint MsgWarning;
                       EvStat (B "/d/pipe");
                       EvPrint (MsgHash (B "/d/pipe") 0);
                       EvPut (Some job) ].
Proof. vm_compute. repeat split. Qed.


(** C7 fails as stated: the path of the cache file of
    [newline_home_state] holds a newline, and [scan_file] returns on it
    without an error: the test for the cache file comes first. *)
Lemma scan_file_skips_newline_cache_file :
  contains is_nl (sample_real_path newline_cache_filename) = true
  /\ scan_file sample_real_path sample_stdout newline_cache_filename
               newline_home_state
     = (Ret tt, newline_home_state).
Proof. vm_compute. split; reflexivity. Qed.

Lemma cache_round_trip_witness :
  let reader :=
    set_clock 1010
      (set_cache [] (set_fs (fs (snd (write_cache saving_state)))
                            saving_state)) in
  cache saving_state <> []
  /\ dict_wf (cache saving_state)
  /\ newline_free (cache saving_state)
  /\ clock saving_state <= clock reader < clock saving_state + MAX_CACHE_AGE
  /\ fst (write_cache saving_state) = Ret tt
  /\ fst (read_cache sample_lower sample_stdout_repr reader) = Ret tt
  /\ cache (snd (read_cache sample_lower sample_stdout_repr reader))
     = saved_cache.
Proof.
  intros reader.
  assert (H1 : cache saving_state <> []) by discriminate.
  assert (H2 : dict_wf (cache saving_state)) by wf_sample.
  assert (H3 : newline_free (cache saving_state)).
  { intros p e Hin. cbn in Hin. repeat destruct Hin as [Hin|Hin];
      try (injection Hin as <- <-; reflexivity). destruct Hin. }
  assert (H4 : clock saving_state <= clock reader
               < clock saving_state + MAX_CACHE_AGE)
    by (cbn; unfold MAX_CACHE_AGE; lia).
  repeat (split; [assumption|]).
  apply (cache_round_trip sample_lower sample_stdout_repr
                          saving_state reader H1 H2 H3 eq_refl eq_refl
                          eq_refl H4).
Defined.


Lemma scan_file_newline_raises_witness :
  contains is_nl (sample_real_path newline_path) = true
  /\ contains is_nl (sample_real_path newline_cache_filename) = true
  /\ snd (scan_file sample_real_path sample_stdout newline_path scan_state)
     = scan_state
  /\ scan_file sample_real_path sample_stdout newline_path scan_state
     = (Raise ValueError, scan_state)
  /\ scan_file sample_real_path sample_stdout newline_cache_filename
               newline_home_state
     = (Ret tt, newline_home_state).
Proof.
  assert (Hnl : contains is_nl (sample_real_path newline_path) = true)
    by (vm_compute; reflexivity).
  assert (Hnl' : contains is_nl (sample_real_path newline_cache_filename)
                 = true) by (vm_compute; reflexivity).
  assert (Hown : sample_real_path newline_path <> cache_filename scan_state)
    by (vm_compute; discriminate).
  destruct (scan_file_newline_raises sample_real_path sample_stdout
                                     newline_path scan_state Hnl)
    as (Hsame & Hraise & _).
  destruct (scan_file_newline_raises sample_real_path sample_stdout
                                     newline_cache_filename
                                     newline_home_state Hnl')
    as (_ & _ & Hskip).
  split; [exact Hnl|]. split; [exact Hnl'|]. split; [exact Hsame|].
  split; [exact (Hraise Hown) | exact (Hskip eq_refl)].
Defined.

Lemma write_cache_empty_witness :
  cache empty_cache_state = []
  /\ fs_get sample_cache_filename (fs empty_cache_state)
     = Some (file_of (cache_file_data 990 stale_cache) 990000000000)
  /\ write_cache empty_cache_state = (Ret tt, empty_cache_state).
Proof.
  assert (H : cache empty_cache_state = []) by reflexivity.
  split; [exact H|]. split; [vm_compute; reflexivity|].
  exact (write_cache_empty empty_cache_state H).
Defined.

Lemma target_only_copies_untouched_witness :
  let s' := snd (remove_dir sample_md5 sample_real_path sample_rmdir_ok
                            sample_stdout true (B "/t") twins_state) in
  dict_wf (cache twins_state)
  /\ In (B "/t/a", (1, B "A")) (cache twins_state)
  /\ dirname (B "/t/a") = sample_real_path (B "/t")
  /\ groups_get (B "A") (snd (partition_cache (sample_real_path (B "/t"))
                                              (cache twins_state) [] []))
     = []
  /\ In (B "/t/a", (1, B "A")) (cache s')
  /\ fs_get (B "/t/a") (fs s') = fs_get (B "/t/a") (fs twins_state).
Proof.
  intros s'.
  assert (H1 : dict_wf (cache twins_state)) by wf_sample.
  assert (H2 : In (B "/t/a", (1, B "A")) (cache twins_state))
    by (left; reflexivity).
  assert (H3 : dirname (B "/t/a") = sample_real_path (B "/t"))
    by (vm_compute; reflexivity).
  assert (H4 : forall g m, In (g, (m, B "A")) (cache twins_state) ->
                           dirname g = sample_real_path (B "/t")).
  { intros g m Hin. vm_compute in Hin.
    destruct Hin as [Hin|[Hin|[Hin|[]]]];
      [injection Hin as <- <- | injection Hin as <- <- | discriminate Hin];
      vm_compute; reflexivity. }
  destruct (target_only_copies_untouched
              sample_md5 sample_real_path sample_rmdir_ok sample_stdout true
              (B "/t") twins_state (B "/t/a") 1 (B "A") H1 H2 H3 H4)
    as (_ & Hg & evs & _ & _ & _ & Hc & Hf).
  split; [exact H1|]. split; [exact H2|]. split; [exact H3|].
  split; [exact Hg|]. split; [exact Hc | exact Hf].
Defined.

(* ------------------------------------------------------------------ *)
(** *** The other properties on the sample worlds *)

Lemma read_cache_missing_file_witness :
  fs_get (cache_filename stale_state) (fs stale_state) = None
  /\ read_cache sample_lower sample_stdout_repr stale_state
     = (Ret tt, set_log (log stale_state
                           ++ [EvOpenRead (cache_filename stale_state)])
                        stale_state).
Proof.
  assert (H : fs_get (cache_filename stale_state) (fs stale_state) = None)
    by (vm_compute; reflexivity).
  split; [exact H|].
  exact (read_cache_missing_file sample_lower sample_stdout_repr
                                 stale_state H).
Defined.

Lemma read_cache_bad_header_witness :
  fs_get (cache_filename foreign_state) (fs foreign_state)
  = Some (file_of foreign_cache_file 5)
  /\ fst (readline foreign_cache_file) <> HEADER ++ [NL]
  /\ exists s',
      read_cache sample_lower sample_stdout_repr foreign_state
      = (Raise (SystemExit 1), s')
      /\ cache s' = cache foreign_state
      /\ fs s' = fs foreign_state.
Proof.
  assert (H1 : fs_get (cache_filename foreign_state) (fs foreign_state)
               = Some (file_of foreign_cache_file 5))
    by (vm_compute; reflexivity).
  assert (H2 : n_data (file_of foreign_cache_file 5)
               = Some foreign_cache_file) by reflexivity.
  assert (H3 : fst (readline foreign_cache_file) <> HEADER ++ [NL])
    by (vm_compute; discriminate).
  split; [exact H1|]. split; [exact H3|].
  destruct (read_cache_bad_header sample_lower sample_stdout_repr
                                  foreign_state _ _ H1 H2 H3)
    as (s' & Hrun & Hc & Hf & _).
  exists s'. split; [exact Hrun|]. split; [exact Hc | exact Hf].
Defined.

Lemma old_cache_state_facts (keys : list keyboard) :
  fs_get (cache_filename (old_cache_state keys)) (fs (old_cache_state keys))
  = Some (file_of (cache_file_data 990 stale_cache) 990000000000)
  /\ n_data (file_of (cache_file_data 990 stale_cache) 990000000000)
     = Some (stamped 990 (flat_map cache_line stale_cache))
  /\ stale 990 (old_cache_state keys).
Proof.
  split; [vm_compute; reflexivity|]. split; [vm_compute; reflexivity|].
  unfold stale, MAX_CACHE_AGE. cbn [clock old_cache_state].
  split; [lia | vm_compute; discriminate].
Defined.


Lemma read_cache_stale_quit_witness :
  let s := old_cache_state [CtrlC] in
  stale 990 s
  /\ exists s',
      read_cache sample_lower sample_stdout_repr s = (Raise (SystemExit 0), s')
      /\ cache s' = []
      /\ fs s' = stale_disk.
Proof.
  intros s.
  destruct (old_cache_state_facts [CtrlC]) as (H1 & H2 & H3).
  split; [exact H3|].
  destruct (read_cache_stale_quit sample_lower sample_stdout_repr
                                  s _ 990 _ CtrlC [] H1 H2 H3
                                  eq_refl (or_introl eq_refl))
    as (s' & Hrun & Hc & Hf).
  exists s'. split; [exact Hrun|]. split; [exact Hc | exact Hf].
Defined.


Lemma cache_round_trip_after_yes_witness :
  let reader :=
    set_stdin [Line (U "Y")]
      (set_clock 9000
         (set_cache [] (set_fs (fs (snd (write_cache saving_state)))
                               saving_state))) in
  cache saving_state <> []
  /\ dict_wf (cache saving_state)
  /\ newline_free (cache saving_state)
  /\ stale (clock saving_state) reader
  /\ says_yes sample_lower (U "Y") = true
  /\ fst (read_cache sample_lower sample_stdout_repr reader) = Ret tt
  /\ cache (snd (read_cache sample_lower sample_stdout_repr reader))
     = saved_cache
  /\ stdin (snd (read_cache sample_lower sample_stdout_repr reader)) = [].
Proof.
  intros reader.
  assert (H1 : cache saving_state <> []) by discriminate.
  assert (H2 : dict_wf (cache saving_state)) by wf_sample.
  assert (H3 : newline_free (cache saving_state)).
  { intros p e Hin. cbn in Hin. repeat destruct Hin as [Hin|Hin];
      try (injection Hin as <- <-; reflexivity). destruct Hin. }
  assert (H4 : stale (clock saving_state) reader).
  { unfold stale, MAX_CACHE_AGE. cbn [clock saving_state reader set_stdin
                                           set_clock].
    split; [lia | vm_compute; discriminate]. }
  assert (H5 : says_yes sample_lower (U "Y") = true)
    by (vm_compute; reflexivity).
  repeat (split; [assumption|]).
  apply (cache_round_trip_after_yes sample_lower sample_stdout_repr
                                    saving_state reader (U "Y") []
                                    H1 H2 H3 eq_refl eq_refl eq_refl H4
                                    eq_refl H5).
Defined.

Lemma target_entries_are_direct_children_witness :
  contains is_sep (B "x.txt") = false
  /\ in_dir (B "/t") (B "/t/x.txt", (1, B "A")) = true
  /\ in_dir (B "/t") (B "/t/sub/x.txt", (1, B "A")) = false.
Proof.
  assert (H : contains is_sep (B "x.txt") = false)
    by (vm_compute; reflexivity).
  split; [exact H|].
  exact (target_entries_are_direct_children
           [SEP] (B "su") (B "x.txt") "t"%byte "b"%byte
           (1, B "A") (1, B "A") H eq_refl eq_refl).
Defined.

Lemma run_jobs_until_sentinel_witness :
  Forall (fun j => file_digest sample_md5 (fs worker_state_ok_first) (fst j)
                   <> None) [job_ok]
  /\ exists s',
      run_jobs sample_md5 (map Some [job_ok] ++ None :: [Some job_gone])
               worker_state_ok_first = (Ret Stopped, s')
      /\ queue s' = [Some job_gone]
      /\ cache s' = [(B "/x/ok", (2, B "data"))].
Proof.
  assert (H1 : Forall (fun j => file_digest sample_md5
                                            (fs worker_state_ok_first) (fst j)
                                <> None) [job_ok]).
  { constructor; [|constructor]. vm_compute. discriminate. }
  split; [exact H1|].
  destruct (run_jobs_until_sentinel sample_md5 [job_ok] [Some job_gone]
                                    worker_state_ok_first H1)
    as (s' & Hrun & Hq & Hc & _).
  exists s'. split; [exact Hrun|]. split; [exact Hq | exact Hc].
Defined.

Lemma scan_twice_no_rehash_witness :
  let s1 := snd (scan_file sample_real_path sample_stdout (B "/d/a:b")
                           scan_state) in
  let s2 := snd (HashThread_run sample_md5 s1) in
  fs_get (B "/d/a:b") (fs scan_state) = Some (file_of (B "hello") 5)
  /\ sample_stdout (B "/d/a:b") = true
  /\ queue scan_state = []
  /\ queue s1 = [Some (B "/d/a:b", WriteChecksum (B "/d/a:b") 5)]
  /\ exists cache_mtime checksum,
      dict_get (B "/d/a:b") (cache s2) = Some (cache_mtime, checksum)
      /\ queue (snd (scan_file sample_real_path sample_stdout (B "/d/a:b")
                               s2)) = [].
Proof.
  intros s1 s2.
  assert (H1 : sample_real_path (B "/d/a:b") <> cache_filename scan_state)
    by (vm_compute; discriminate).
  assert (H2 : contains is_nl (sample_real_path (B "/d/a:b")) = false)
    by (vm_compute; reflexivity).
  assert (H3 : fs_get (sample_real_path (B "/d/a:b")) (fs scan_state)
               = Some (file_of (B "hello") 5))
    by (vm_compute; reflexivity).
  split; [exact H3|]. split; [reflexivity|]. split; [reflexivity|].
  split; [vm_compute; reflexivity|].
  destruct (scan_twice_no_rehash sample_md5 sample_real_path sample_stdout
                                 (B "/d/a:b") scan_state
                                 (file_of (B "hello") 5) (B "hello")
                                 H1 H2 H3 eq_refl eq_refl eq_refl)
    as (cm & ck & Hget & _ & _ & Hq & _).
  exists cm, ck. split; [exact Hget | exact Hq].
Defined.

Lemma scan_file_missing_witness :
  fs_get (B "/d/none") (fs scan_state) = None
  /\ exists s',
      scan_file sample_real_path sample_stdout (B "/d/none") scan_state
      = (Raise FileNotFoundError, s')
      /\ queue s' = queue scan_state
      /\ cache s' = cache scan_state.
Proof.
  assert (H1 : sample_real_path (B "/d/none") <> cache_filename scan_state)
    by (vm_compute; discriminate).
  assert (H2 : contains is_nl (sample_real_path (B "/d/none")) = false)
    by (vm_compute; reflexivity).
  assert (H3 : fs_get (sample_real_path (B "/d/none")) (fs scan_state) = None)
    by (vm_compute; reflexivity).
  split; [exact H3|].
  destruct (scan_file_missing sample_real_path sample_stdout (B "/d/none")
                              scan_state H1 H2 H3)
    as (s' & Hrun & Hq & Hc & _).
  exists s'. split; [exact Hrun|]. split; [exact Hq | exact Hc].
Defined.

Lemma remove_dir_removes_duplicates_witness :
  let out := remove_dir sample_md5 sample_real_path sample_rmdir_ok
                        sample_stdout true (B "/t") copied_state in
  dict_wf (cache copied_state)
  /\ fst out = Ret tt
  /\ In (B "/t/a", (1, B "A")) (cache copied_state)
  /\ fs_get (B "/t/a") (fs copied_state) = Some (file_of (B "A") 1)
  /\ fs_get (B "/t/a") (fs (snd out)) = None
  /\ dict_get (B "/t/a") (cache (snd out)) = None.
Proof.
  intros out.
  assert (H1 : dict_wf (cache copied_state)) by wf_sample.
  assert (H2 : fst out = Ret tt) by (vm_compute; reflexivity).
  assert (H3 : In (B "/t/a", (1, B "A")) (cache copied_state))
    by (left; reflexivity).
  assert (H4 : dirname (B "/t/a") = sample_real_path (B "/t"))
    by (vm_compute; reflexivity).
  assert (H5 : groups_get (B "A")
                 (snd (partition_cache (sample_real_path (B "/t"))
                                       (cache copied_state) [] [])) <> [])
    by (vm_compute; discriminate).
  split; [exact H1|]. split; [exact H2|]. split; [exact H3|].
  split; [vm_compute; reflexivity|].
  exact (remove_dir_removes_duplicates
           sample_md5 sample_real_path sample_rmdir_ok sample_stdout (B "/t")
           copied_state (B "/t/a") 1 (B "A") H1 H2 H3 H4 H5).
Defined.

Lemma remove_dir_reports_count_witness :
  let out := remove_dir sample_md5 sample_real_path sample_rmdir_ok
                        sample_stdout false (B "/t") copied_state in
  fst out = Ret tt
  /\ fs (snd out) = fs copied_state
  /\ exists evs,
      log (snd out) = log copied_state ++ evs
      /\ In (EvPrint (MsgRemoved 1)) evs.
Proof.
  intros out.
  assert (H : fst out = Ret tt) by (vm_compute; reflexivity).
  split; [exact H|]. split; [vm_compute; reflexivity|].
  exact (remove_dir_reports_count sample_md5 sample_real_path
                                  sample_rmdir_ok sample_stdout false (B "/t")
                                  copied_state H).
Defined.

Lemma remove_dir_no_KeyError_witness :
  let out := remove_dir sample_md5 sample_real_path sample_rmdir_ok
                        sample_stdout true (B "/t") copied_state in
  dict_wf (cache copied_state)
  /\ In (EvUnlink (B "/t/a")) (log (snd out))
  /\ fst out <> Raise KeyError.
Proof.
  intros out.
  assert (H : dict_wf (cache copied_state)) by wf_sample.
  split; [exact H|]. split.
  - vm_compute. do 3 right. left. reflexivity.
  - exact (remove_dir_no_KeyError sample_md5 sample_real_path
                                  sample_rmdir_ok sample_stdout
                                  true (B "/t") copied_state H).
Defined.

Lemma main_writes_only_on_return_witness :
  let out := main sample_md5 sample_real_path sample_expanduser sample_walk
                  sample_rmdir_ok (Some 2%nat) sample_stdout sample_lower
                  sample_stdout_repr (ActScan [B "/d"])
                  (set_fs [ (newline_path, file_of (B "x") 1) ]
                          first_start) in
  fst out = Raise ValueError
  /\ exists evs,
      log (snd out) = evs /\ forall p, ~ In (EvOpenWrite p) evs.
Proof.
  intros out.
  assert (H : fst out = Raise ValueError) by (vm_compute; reflexivity).
  split; [exact H|].
  destruct (main_writes_only_on_return
              sample_md5 sample_real_path sample_expanduser sample_walk
              sample_rmdir_ok (Some 2%nat) sample_stdout sample_lower
              sample_stdout_repr (ActScan [B "/d"])
              (set_fs [ (newline_path, file_of (B "x") 1) ] first_start)
              ValueError H)
    as (evs & Hl & Hw).
  exists evs. split; [exact Hl | exact Hw].
Defined.

Lemma main_persists_on_return_witness :
  let out := main sample_md5 sample_real_path sample_expanduser sample_walk
                  sample_rmdir_ok (Some 2%nat) sample_stdout sample_lower
                  sample_stdout_repr (ActScan [B "/d"])
                  first_start in
  fst out = Ret tt
  /\ cache (snd out) = [ (B "/d/x", (5, B "hello")) ]
  /\ exists n,
      fs_get sample_cache_filename (fs (snd out)) = Some n
      /\ n_data n = Some (cache_file_data 1000 [ (B "/d/x", (5, B "hello")) ]).
Proof.
  intros out.
  assert (H1 : fst out = Ret tt) by (vm_compute; reflexivity).
  assert (H2 : cache (snd out) = [ (B "/d/x", (5, B "hello")) ])
    by (vm_compute; reflexivity).
  assert (H3 : cache (snd out) <> []) by (rewrite H2; discriminate).
  split; [exact H1|]. split; [exact H2|].
  destruct (main_persists_on_return
              sample_md5 sample_real_path sample_expanduser sample_walk
              sample_rmdir_ok (Some 2%nat) sample_stdout sample_lower
              sample_stdout_repr (ActScan [B "/d"]) first_start
              H1 H3)
    as (n & Hg & Hd).
  exists n.
  assert (E1 : cache_filename (snd out) = sample_cache_filename)
    by (vm_compute; reflexivity).
  assert (E2 : clock (snd out) = 1000) by (vm_compute; reflexivity).
  fold out in Hg, Hd. rewrite E1 in Hg. rewrite E2, H2 in Hd.
  split; [exact Hg | exact Hd].
Defined.
